(** * Potalip: the bike simulation of [src/components/GameCanvas.tsx]

    A shallow embedding of the simulation core of the game: level
    generation ([initLevel]), the fixed physics step ([updatePhysics]:
    control impulses, Verlet integration, stick relaxation, terrain
    collisions), the gameplay evaluation ([checkGameplay]) and the status
    machine ([die], [win]).

    Numbers.  A JavaScript [number] is modelled by a real number of the
    Standard Library: arithmetic is exact, [Math.hypot] is the Euclidean
    norm, and the two places where the source relies on [NaN] (a
    degenerate terrain segment, a zero contact distance) are written out
    where they occur.

    Objects.  The five [Point] objects of the bike are shared between
    [state.points], [state.bike] and the sticks.  The model keeps them in
    one record ([Bike]) and lets the array and the sticks refer to them
    by name ([PointRef]), so an update through one alias is seen through
    all of them.

    Constants.  [src/constants.ts] is not part of the sources at hand:
    [PHYSICS] and [GAME_CONFIG] are parameters of the development. *)

From Stdlib Require Import Reals Lra List Bool Arith Lia.
From Stdlib Require String.
From Stdlib Require DecimalString.
Import ListNotations.

Open Scope R_scope.

(** ** Numbers *)

Definition Rltb (a b : R) : bool := if Rlt_dec a b then true else false.
Definition Reqb (a b : R) : bool := if Req_dec_T a b then true else false.

(** [Math.hypot(a, b)]. *)
Definition hypot (a b : R) : R := sqrt (a * a + b * b).

(** [a || b] on numbers: [b] when [a] is falsy.  The falsy numbers are
    [0] and [NaN]; the only [NaN] the source can feed to [||] is [0 / 0],
    which is [0] here. *)
Definition js_or (a b : R) : R := if Reqb a 0 then b else a.

(** ** Data model ([src/types.ts]) *)

Inductive GameStatus : Set := MENU | PLAYING | WON | DEAD.

Definition GameStatus_eqb (a b : GameStatus) : bool :=
  match a, b with
  | MENU, MENU | PLAYING, PLAYING | WON, WON | DEAD, DEAD => true
  | _, _ => false
  end.

Record Point : Type := mkPoint {
  x : R; y : R; oldx : R; oldy : R;
  mass : R; radius : R;
  isWheel : bool; pinned : bool;
  rotation : R
}.

(** The names under which [initLevel] creates the five points. *)
Inductive PointRef : Set := RW | FW | BODY | HANDLE | HEAD.

Definition PointRef_eqb (a b : PointRef) : bool :=
  match a, b with
  | RW, RW | FW, FW | BODY, BODY | HANDLE, HANDLE | HEAD, HEAD => true
  | _, _ => false
  end.

Record Bike : Type := mkBike {
  rw : Point; fw : Point; body : Point; handle : Point; head : Point
}.

Record Stick : Type := mkStick {
  p1 : PointRef; p2 : PointRef;
  length : R; stiffness : R;
  visible : bool; width : R
}.

Module Vertex.
Record t : Type := mk { x : R; y : R }.
End Vertex.

(** [r] and [collected] are optional fields. *)
Module Entity.
Record t : Type := mk { x : R; y : R; r : option R; collected : option bool }.
End Entity.

Module Flower.
Record t : Type := mk { x : R; y : R; unlocked : bool }.
End Flower.

Record InputState : Type := mkKeys {
  up : bool; down : bool; left : bool; right : bool;
  space : bool; enter : bool
}.

(** The object behind [stateRef.current]. *)
Record State : Type := mkState {
  sticks : list Stick;
  terrain : list Vertex.t;
  apples : list Entity.t;
  killers : list Entity.t;
  flower : Flower.t;
  bike : Bike;
  keys : InputState;
  status : GameStatus;
  camera : Vertex.t
}.

(** [state.points], in the order of the [push] of [initLevel]. *)
Definition points : list PointRef := [RW; FW; BODY; HANDLE; HEAD].

(** The constants of [src/constants.ts] the simulation reads. *)
Record Physics : Type := mkPhysics {
  WHEEL_SPEED : R;
  BIKE_TORQUE : R;
  FRICTION : R;
  GRAVITY : R;
  GROUND_FRICTION : R;
  ITERATIONS : nat;
  SUSPENSION_STIFFNESS : R;
  RIGID_STIFFNESS : R
}.

Record GameConfig : Type := mkGameConfig {
  TERRAIN_SEGMENTS : nat
}.

(** ** Reading and writing the shared points *)

Definition get (r : PointRef) (b : Bike) : Point :=
  match r with
  | RW => rw b | FW => fw b | BODY => body b
  | HANDLE => handle b | HEAD => head b
  end.

Definition set (r : PointRef) (p : Point) (b : Bike) : Bike :=
  match r with
  | RW => mkBike p (fw b) (body b) (handle b) (head b)
  | FW => mkBike (rw b) p (body b) (handle b) (head b)
  | BODY => mkBike (rw b) (fw b) p (handle b) (head b)
  | HANDLE => mkBike (rw b) (fw b) (body b) p (head b)
  | HEAD => mkBike (rw b) (fw b) (body b) (handle b) p
  end.

Definition upd (r : PointRef) (f : Point -> Point) (b : Bike) : Bike :=
  set r (f (get r b)) b.

Definition set_x (v : R) (p : Point) : Point :=
  mkPoint v (y p) (oldx p) (oldy p) (mass p) (radius p) (isWheel p) (pinned p) (rotation p).
Definition set_y (v : R) (p : Point) : Point :=
  mkPoint (x p) v (oldx p) (oldy p) (mass p) (radius p) (isWheel p) (pinned p) (rotation p).
Definition set_oldx (v : R) (p : Point) : Point :=
  mkPoint (x p) (y p) v (oldy p) (mass p) (radius p) (isWheel p) (pinned p) (rotation p).
Definition set_oldy (v : R) (p : Point) : Point :=
  mkPoint (x p) (y p) (oldx p) v (mass p) (radius p) (isWheel p) (pinned p) (rotation p).
Definition set_rotation (v : R) (p : Point) : Point :=
  mkPoint (x p) (y p) (oldx p) (oldy p) (mass p) (radius p) (isWheel p) (pinned p) v.

Definition set_bike (b : Bike) (s : State) : State :=
  mkState (sticks s) (terrain s) (apples s) (killers s) (flower s) b
          (keys s) (status s) (camera s).
Definition set_status (st : GameStatus) (s : State) : State :=
  mkState (sticks s) (terrain s) (apples s) (killers s) (flower s) (bike s)
          (keys s) st (camera s).
Definition set_apples (l : list Entity.t) (s : State) : State :=
  mkState (sticks s) (terrain s) l (killers s) (flower s) (bike s)
          (keys s) (status s) (camera s).
Definition set_flower (f : Flower.t) (s : State) : State :=
  mkState (sticks s) (terrain s) (apples s) (killers s) f (bike s)
          (keys s) (status s) (camera s).

(** ** Status machine (lines 347-359) *)

Definition die (s : State) : State :=
  if GameStatus_eqb (status s) PLAYING then set_status DEAD s else s.

Definition win (s : State) : State :=
  if GameStatus_eqb (status s) PLAYING then set_status WON s else s.

(** ** The physics step (lines 146-220) *)

Section Simulation.

Variable PHYSICS : Physics.

(** Control impulses (lines 153-185): edits of the positions and previous
    positions of the bike's points, whatever their [pinned] flag. *)
Definition controls (k : InputState) (b : Bike) : Bike :=
  let b :=
    if up k
    then upd RW (fun p => set_oldx (oldx p - WHEEL_SPEED PHYSICS) p) b
    else b in
  let b :=
    if down k
    then upd RW (fun p => set_oldx (oldx p + WHEEL_SPEED PHYSICS * 0.5) p) b
    else b in
  let torqueForce := BIKE_TORQUE PHYSICS in
  let b :=
    if left k
    then
      let b := upd FW (fun p => set_y (y p - torqueForce) p) b in
      let b := upd RW (fun p => set_y (y p + torqueForce) p) b in
      upd HANDLE (fun p => set_x (x p - torqueForce) p) b
    else b in
  let b :=
    if right k
    then
      let b := upd FW (fun p => set_y (y p + torqueForce) p) b in
      let b := upd RW (fun p => set_y (y p - torqueForce) p) b in
      upd HANDLE (fun p => set_x (x p + torqueForce) p) b
    else b in
  if space k
  then
    let b := upd BODY (fun p => set_y (y p - 2) p) b in
    let b := upd RW (fun p => set_oldx (oldx p - 1) p) b in
    upd FW (fun p => set_oldx (oldx p + 1) p) b
  else b.

(** The body of the [forEach] of the Verlet integration (lines 188-196). *)
Definition integratePoint (p : Point) : Point :=
  if pinned p then p
  else
    let vx := (x p - oldx p) * FRICTION PHYSICS in
    let vy := (y p - oldy p) * FRICTION PHYSICS in
    mkPoint (x p + vx) (y p + (vy + GRAVITY PHYSICS)) (x p) (y p)
            (mass p) (radius p) (isWheel p) (pinned p) (rotation p).

Definition integrate (b : Bike) : Bike :=
  fold_left (fun b r => upd r integratePoint b) points b.

(** The body of the [forEach] over the sticks (lines 201-213).  [p1] and
    [p2] are read again after [p1] has been written: they may alias. *)
Definition relaxStick (st : Stick) (b : Bike) : Bike :=
  let dx := x (get (p2 st) b) - x (get (p1 st) b) in
  let dy := y (get (p2 st) b) - y (get (p1 st) b) in
  let dist := hypot dx dy in
  if Reqb dist 0 then b
  else
    let diff := (length st - dist) / dist * stiffness st in
    let ox := dx * diff * 0.5 in
    let oy := dy * diff * 0.5 in
    let b :=
      if negb (pinned (get (p1 st) b))
      then upd (p1 st) (fun p => set_y (y p - oy) (set_x (x p - ox) p)) b
      else b in
    if negb (pinned (get (p2 st) b))
    then upd (p2 st) (fun p => set_y (y p + oy) (set_x (x p + ox) p)) b
    else b.

Definition relax (l : list Stick) (b : Bike) : Bike :=
  fold_left (fun b st => relaxStick st b) l b.

(** *** Terrain collisions (lines 222-296) *)

(** How a loop body ends: the loops go on ([Next]) or [checkCollisions]
    returns ([Return]). *)
Inductive Flow : Type :=
| Next (s : State)
| Return (s : State).

Definition flowState (f : Flow) : State :=
  match f with Next s => s | Return s => s end.

(** The pairs [(terrain[i], terrain[i + 1])]. *)
Definition segments (t : list Vertex.t) : list (Vertex.t * Vertex.t) :=
  combine t (tl t).

(** The body of the inner loop, for the point [r] and the segment from
    [a] to [b].  A segment of length zero makes [t] a [NaN] in the
    source, [dist] with it, and [dist < p.radius] false. *)
Definition collide (r : PointRef) (a b : Vertex.t) (s : State) : Flow :=
  let p := get r (bike s) in
  if Rltb (x p) (Rmin (Vertex.x a) (Vertex.x b) - 50)
     || Rltb (Rmax (Vertex.x a) (Vertex.x b) + 50) (x p)
  then Next s
  else
    let sx := Vertex.x b - Vertex.x a in
    let sy := Vertex.y b - Vertex.y a in
    let px := x p - Vertex.x a in
    let py := y p - Vertex.y a in
    if Reqb (sx * sx + sy * sy) 0 then Next s
    else
      let t := Rmax 0 (Rmin 1 ((px * sx + py * sy) / (sx * sx + sy * sy))) in
      let closestX := Vertex.x a + t * sx in
      let closestY := Vertex.y a + t * sy in
      let dx := x p - closestX in
      let dy := y p - closestY in
      let dist := hypot dx dy in
      if Rltb dist (radius p)
      then
        if PointRef_eqb r HEAD && Rltb dist (radius p * 0.8)
        then Return (die s)
        else
          let overlap := radius p - dist in
          let nx := js_or (dx / dist) 0 in
          let ny := js_or (dy / dist) (-1) in
          let x' := x p + nx * overlap in
          let y' := y p + ny * overlap in
          let vx := x' - oldx p in
          let vy := y' - oldy p in
          let dot := vx * - ny + vy * nx in
          let oldx' := oldx p + - ny * dot * (1 - GROUND_FRICTION PHYSICS) in
          let oldy' := oldy p + nx * dot * (1 - GROUND_FRICTION PHYSICS) in
          let rotation' :=
            if isWheel p
            then
              let speed := hypot vx vy in
              let dir := if Rltb 0 dot then 1 else -1 in
              rotation p + speed * dir * 0.2
            else rotation p in
          Next (set_bike
                  (set r (mkPoint x' y' oldx' oldy' (mass p) (radius p)
                                  (isWheel p) (pinned p) rotation')
                       (bike s)) s)
      else Next s.

Fixpoint segmentLoop (r : PointRef) (segs : list (Vertex.t * Vertex.t))
    (s : State) : Flow :=
  match segs with
  | [] => Next s
  | (a, b) :: rest =>
      match collide r a b s with
      | Next s' => segmentLoop r rest s'
      | Return s' => Return s'
      end
  end.

Fixpoint pointLoop (ps : list PointRef) (segs : list (Vertex.t * Vertex.t))
    (s : State) : Flow :=
  match ps with
  | [] => Next s
  | r :: rest =>
      match segmentLoop r segs s with
      | Next s' => pointLoop rest segs s'
      | Return s' => Return s'
      end
  end.

(** [None] is the [TypeError] of [s.terrain[0].y] on an empty terrain. *)
Definition checkCollisions (s : State) : option State :=
  match terrain s with
  | [] => None
  | t0 :: _ =>
      let s1 :=
        if Rltb (Vertex.y t0 + 2000) (y (head (bike s))) then die s else s in
      Some (flowState (pointLoop points (segments (terrain s1)) s1))
  end.

(** *** Gameplay (lines 298-345) *)

Definition bikeParts : list PointRef := [RW; FW; BODY; HEAD].

Definition truthy (o : option bool) : bool :=
  match o with Some true => true | _ => false end.

Definition near (b : Bike) (ex ey : R) (r : PointRef) : bool :=
  Rltb (hypot (x (get r b) - ex) (y (get r b) - ey)) 35.

Definition collectApple (b : Bike) (a : Entity.t) : Entity.t :=
  if negb (truthy (Entity.collected a))
  then
    if existsb (near b (Entity.x a) (Entity.y a)) bikeParts
    then Entity.mk (Entity.x a) (Entity.y a) (Entity.r a) (Some true)
    else a
  else a.

(** [collectedCount]: the apples found collected by the [forEach], those
    it collects itself are not counted. *)
Definition collectedCount (l : list Entity.t) : nat :=
  List.length (filter (fun a => truthy (Entity.collected a)) l).

Definition killerRadius (k : Entity.t) : R :=
  match Entity.r k with
  | Some r => js_or r 15
  | None => 15
  end.

Definition hits (b : Bike) (k : Entity.t) (r : PointRef) : bool :=
  Rltb (hypot (x (get r b) - Entity.x k) (y (get r b) - Entity.y k))
       (killerRadius k + radius (get r b)).

(** The React [uiState] of the HUD is not part of the simulation state
    and is left out. *)
Definition checkGameplay (s : State) : State :=
  let count := collectedCount (apples s) in
  let s := set_apples (map (collectApple (bike s)) (apples s)) s in
  let s :=
    if Nat.eqb count (List.length (apples s))
    then
      let s :=
        set_flower (Flower.mk (Flower.x (flower s)) (Flower.y (flower s)) true) s in
      fold_left
        (fun s r =>
           if near (bike s) (Flower.x (flower s)) (Flower.y (flower s)) r
           then win s else s)
        bikeParts s
    else s in
  fold_left
    (fun s k =>
       fold_left (fun s r => if hits (bike s) k r then die s else s) bikeParts s)
    (killers s) s.

(** *** The step *)

(** One turn of the loop of lines 199-217. *)
Definition relaxAndCollide (s : State) : option State :=
  checkCollisions (set_bike (relax (sticks s) (bike s)) s).

Fixpoint iterate (n : nat) (s : State) : option State :=
  match n with
  | O => Some s
  | S n' =>
      match relaxAndCollide s with
      | Some s' => iterate n' s'
      | None => None
      end
  end.

Definition updatePhysics (s : State) : option State :=
  if negb (GameStatus_eqb (status s) PLAYING) then Some s
  else
    let s := set_bike (integrate (controls (keys s) (bike s))) s in
    match iterate (ITERATIONS PHYSICS) s with
    | Some s' => Some (checkGameplay s')
    | None => None
    end.

End Simulation.

(** ** Level initialisation (lines 50-136) *)

(** [createPoint] (lines 8-10). *)
Definition createPoint (x y mass radius : R) (isWheel : bool) : Point :=
  mkPoint x y x y mass radius isWheel false 0.

(** [createStick] (lines 13-17), with the default [width]; the two points
    are named and read in the bike under construction. *)
Definition createStick (b : Bike) (p1 p2 : PointRef) (length : option R)
    (stiffness : R) (visible : bool) : Stick :=
  let d := hypot (x (get p2 b) - x (get p1 b)) (y (get p2 b) - y (get p1 b)) in
  mkStick p1 p2
          (match length with Some l => js_or l d | None => d end)
          stiffness visible 2.

Section Level.

Variable PHYSICS : Physics.
Variable GAME_CONFIG : GameConfig.

(** [Math.random()]: the [k]-th draw of the run is [random k]. *)
Variable random : nat -> R.

(** The variables the terrain loop updates; [next] counts the draws. *)
Record Gen : Type := mkGen {
  tX : R; tY : R;
  genTerrain : list Vertex.t;
  genApples : list Entity.t;
  genKillers : list Entity.t;
  next : nat
}.

(** The body of the loop of lines 66-87, at index [i]. *)
Definition genStep (height : R) (i : nat) (g : Gen) : Gen :=
  let k := next g in
  let tX := tX g + (80 + random k * 100) in
  let variation := (random (k + 1) - 0.5) * 250 in
  let tY := tY g + variation in
  let tY := Rmax 200 (Rmin (height + 200) tY) in
  let tY := if Rltb 0.8 (random (k + 2)) then height - 200 else tY in
  let terrain := genTerrain g ++ [Vertex.mk tX tY] in
  let k := (k + 3)%nat in
  let '(apples, k) :=
    if Rltb 0.5 (random k)
    then (genApples g
            ++ [Entity.mk tX (tY - 120 - random (k + 1) * 50) None (Some false)],
          (k + 2)%nat)
    else (genApples g, (k + 1)%nat) in
  let '(killers, k) :=
    if Nat.ltb 3 i
    then
      if Rltb 0.7 (random k)
      then (genKillers g ++ [Entity.mk (tX + 20) (tY - 15) (Some 15) None],
            (k + 1)%nat)
      else (genKillers g, (k + 1)%nat)
    else (genKillers g, k) in
  mkGen tX tY terrain apples killers k.

Fixpoint genLoop (height : R) (n i : nat) (g : Gen) : Gen :=
  match n with
  | O => g
  | S n' => genLoop height n' (S i) (genStep height i g)
  end.

Definition noKeys : InputState := mkKeys false false false false false false.

Definition buildBike (height : R) : Bike :=
  let sx := 200 in
  let sy := height - 400 in
  mkBike (createPoint sx sy 1.5 23 true)
         (createPoint (sx + 85) sy 1.5 23 true)
         (createPoint (sx + 40) (sy - 45) 2 10 false)
         (createPoint (sx + 60) (sy - 70) 0.5 5 false)
         (createPoint (sx + 20) (sy - 95) 0.5 12 false).

Definition buildSticks (b : Bike) : list Stick :=
  [ createStick b RW BODY None (SUSPENSION_STIFFNESS PHYSICS) true;
    createStick b FW HANDLE None (SUSPENSION_STIFFNESS PHYSICS) true;
    createStick b RW FW None (RIGID_STIFFNESS PHYSICS) true;
    createStick b BODY HANDLE None (RIGID_STIFFNESS PHYSICS) true;
    createStick b BODY HEAD None (RIGID_STIFFNESS PHYSICS) true;
    createStick b RW HANDLE None (RIGID_STIFFNESS PHYSICS) false;
    createStick b FW BODY None (RIGID_STIFFNESS PHYSICS) false;
    createStick b RW HEAD None 0.5 false;
    createStick b HANDLE HEAD None (RIGID_STIFFNESS PHYSICS) false ].

(** The generator at the entry of the loop (lines 60-63). *)
Definition genStart (height : R) : Gen :=
  mkGen 0 (height - 200)
        [Vertex.mk 0 (height + 2000); Vertex.mk 0 (height - 200)] [] [] 0.

(** [initLevel(width, height, startStatus)].  The timers and the React
    state it resets are outside the simulation state. *)
Definition initLevel (width height : R) (startStatus : GameStatus) : State :=
  let g := genLoop height (TERRAIN_SEGMENTS GAME_CONFIG) 0 (genStart height) in
  let terrain := genTerrain g ++ [Vertex.mk (tX g + 500) (height + 2000)] in
  let flower := Flower.mk (tX g) (tY g - 100) false in
  let b := buildBike height in
  mkState (buildSticks b) terrain (genApples g) (genKillers g) flower b
          noKeys startStatus
          (Vertex.mk (- 200 + width / 2) (- (height - 400) + height / 1.5)).

End Level.

(** ** Calls that reach the status *)

(** The simulation entry points that can run between two initialisations:
    the physics step and, through it or on their own, [die] and [win]. *)
Inductive Call : Set := CallDie | CallWin | CallUpdatePhysics.

Definition call (PHYSICS : Physics) (c : Call) (s : State) : option State :=
  match c with
  | CallDie => Some (die s)
  | CallWin => Some (win s)
  | CallUpdatePhysics => updatePhysics PHYSICS s
  end.

Fixpoint run (PHYSICS : Physics) (cs : list Call) (s : State) : option State :=
  match cs with
  | [] => Some s
  | c :: rest =>
      match call PHYSICS c s with
      | Some s' => run PHYSICS rest s'
      | None => None
      end
  end.

(** ** The frame loop (lines 363-375 and 559-576) *)

Definition set_camera (c : Vertex.t) (s : State) : State :=
  mkState (sticks s) (terrain s) (apples s) (killers s) (flower s) (bike s)
          (keys s) (status s) c.

(** What [draw] writes to the state: the camera moves a tenth of the way
    to its target, which centres the body.  The canvas calls of [draw]
    have no effect on the state and are left out. *)
Definition drawCamera (width height : R) (s : State) : State :=
  let targetX := - x (body (bike s)) + width / 2 in
  let targetY := - y (body (bike s)) + height / 1.8 in
  set_camera
    (Vertex.mk
       (Vertex.x (camera s) + (targetX - Vertex.x (camera s)) * 0.1)
       (Vertex.y (camera s) + (targetY - Vertex.y (camera s)) * 0.1))
    s.

(** [lastTimeRef] and [accumulatorRef]. *)
Record Clock : Type := mkClock { lastTime : R; accumulator : R }.

(** How a loop that may not end, or may throw, ends in the model. *)
Inductive Outcome (A : Type) : Type :=
| Done (a : A)
| Threw
| OutOfFuel.

Arguments Done {A} a.
Arguments Threw {A}.
Arguments OutOfFuel {A}.

(** The loop [while (accumulator >= TIMESTEP) { updatePhysics();
    accumulator -= TIMESTEP }] of [tick], with [fuel] for the number of
    turns the model may take.  [PHYSICS.TIMESTEP] is the parameter
    [TIMESTEP]. *)
Fixpoint drain (PHYSICS : Physics) (TIMESTEP : R) (fuel : nat) (acc : R)
    (s : State) : Outcome (R * State) :=
  if Rltb acc TIMESTEP then Done (acc, s)
  else
    match fuel with
    | O => OutOfFuel
    | S fuel' =>
        match updatePhysics PHYSICS s with
        | Some s' => drain PHYSICS TIMESTEP fuel' (acc - TIMESTEP) s'
        | None => Threw
        end
    end.

(** [tick], at the time [now] of [Date.now()]; [canvas] is the size of
    the canvas when there is one. *)
Definition tick (PHYSICS : Physics) (TIMESTEP : R) (fuel : nat)
    (canvas : option (R * R)) (now : R) (c : Clock) (s : State)
    : Outcome (Clock * State) :=
  match canvas with
  | None => Done (c, s)
  | Some (width, height) =>
      let frameTime := Rmin (now - lastTime c) 100 in
      match drain PHYSICS TIMESTEP fuel (accumulator c + frameTime) s with
      | Done (acc, s') => Done (mkClock now acc, drawCamera width height s')
      | Threw => Threw
      | OutOfFuel => OutOfFuel
      end
  end.

(** [n] physics steps in a row. *)
Fixpoint steps (PHYSICS : Physics) (n : nat) (s : State) : option State :=
  match n with
  | O => Some s
  | S n' =>
      match updatePhysics PHYSICS s with
      | Some s' => steps PHYSICS n' s'
      | None => None
      end
  end.

(** ** Keyboard, resize and restart (lines 138-142 and 580-618) *)

Definition set_keys (k : InputState) (s : State) : State :=
  mkState (sticks s) (terrain s) (apples s) (killers s) (flower s) (bike s)
          k (status s) (camera s).

(** The game as the handlers see it: the state and, when the canvas is
    mounted, the size of the canvas. *)
Record World : Type := mkWorld {
  world : State;
  canvas : option (R * R)
}.

(** What can happen to the game: a key going down or up with its
    [e.code], a resize of the window to an inner size, a click on the
    restart button of the HUD, one physics step of the frame loop and
    the camera update of [draw]. *)
Inductive Event : Type :=
| KeyDown (code : String.string)
| KeyUp (code : String.string)
| Resize (innerWidth innerHeight : R)
| Restart
| Step
| Draw.

(** The status changes the handlers and the physics step can make. *)
Definition statusMove (a b : GameStatus) : bool :=
  match a, b with
  | MENU, MENU | MENU, PLAYING => true
  | PLAYING, PLAYING | PLAYING, WON | PLAYING, DEAD => true
  | WON, WON | WON, PLAYING => true
  | DEAD, DEAD | DEAD, PLAYING => true
  | _, _ => false
  end.

Module Input.

Import String.

Section Handlers.

Variable PHYSICS : Physics.
Variable GAME_CONFIG : GameConfig.

(** The draws [Math.random] gives from the event on. *)
Variable random : nat -> R.

(** [startGame] (lines 138-142). *)
Definition startGame (w : World) : World :=
  match canvas w with
  | Some (width, height) =>
      mkWorld (initLevel PHYSICS GAME_CONFIG random width height PLAYING) (canvas w)
  | None => w
  end.

(** The writes of the key flags in both key handlers: each of the six
    [if (e.code === ...) s.keys.flag = v] writes its own flag. *)
Definition setFlag (code : string) (v : bool) (k : InputState) : InputState :=
  mkKeys (if eqb code "ArrowUp" then v else up k)
         (if eqb code "ArrowDown" then v else down k)
         (if eqb code "ArrowLeft" then v else left k)
         (if eqb code "ArrowRight" then v else right k)
         (if eqb code "Space" then v else space k)
         (if eqb code "Enter" then v else enter k).

(** [handleKeyDown] (lines 581-594): the flag is set, and [Enter]
    outside [PLAYING] then starts a game. *)
Definition handleKeyDown (code : string) (w : World) : World :=
  let w' := mkWorld (set_keys (setFlag code true (keys (world w))) (world w))
                    (canvas w) in
  if eqb code "Enter"
  then
    if negb (GameStatus_eqb (status (world w')) PLAYING)
    then startGame w' else w'
  else w'.

(** [handleKeyUp] (lines 596-604). *)
Definition handleKeyUp (code : string) (w : World) : World :=
  mkWorld (set_keys (setFlag code false (keys (world w))) (world w)) (canvas w).

(** [handleResize] (lines 609-618). *)
Definition handleResize (innerWidth innerHeight : R) (w : World) : World :=
  match canvas w with
  | Some _ =>
      let s :=
        if GameStatus_eqb (status (world w)) MENU
        then initLevel PHYSICS GAME_CONFIG random innerWidth innerHeight MENU
        else world w in
      mkWorld s (Some (innerWidth, innerHeight))
  | None => w
  end.

(** One event; [None] is the [TypeError] of a physics step.  [draw] runs
    on a mounted canvas only. *)
Definition handle (e : Event) (w : World) : option World :=
  match e with
  | KeyDown code => Some (handleKeyDown code w)
  | KeyUp code => Some (handleKeyUp code w)
  | Resize innerWidth innerHeight => Some (handleResize innerWidth innerHeight w)
  | Restart => Some (startGame w)
  | Step =>
      match updatePhysics PHYSICS (world w) with
      | Some s => Some (mkWorld s (canvas w))
      | None => None
      end
  | Draw =>
      match canvas w with
      | Some (width, height) => Some (mkWorld (drawCamera width height (world w)) (canvas w))
      | None => Some w
      end
  end.

End Handlers.

(** A sequence of events, each with the draws [Math.random] gives from
    it on. *)
Fixpoint handleAll (PHYSICS : Physics) (GAME_CONFIG : GameConfig)
    (es : list (Event * (nat -> R))) (w : World) : option World :=
  match es with
  | [] => Some w
  | (e, random) :: rest =>
      match handle PHYSICS GAME_CONFIG random e w with
      | Some w' => handleAll PHYSICS GAME_CONFIG rest w'
      | None => None
      end
  end.

End Input.

(** ** The time label of the HUD ([formatTime], src/unnamed/part_001) *)

Module Hud.

Import Ascii String.

(** The decimal text of a non-negative whole number, as a template
    literal prints it. *)
Definition showNat (n : nat) : string :=
  DecimalString.NilEmpty.string_of_uint (Nat.to_uint n).

(** [formatTime(seconds)], for the whole non-negative numbers of seconds
    the game passes to it. *)
Definition formatTime (seconds : nat) : string :=
  let m := Nat.div seconds 60 in
  let s := Nat.modulo seconds 60 in
  ((if Nat.ltb m 10 then "0" else "") ++ showNat m ++ ":"
   ++ (if Nat.ltb s 10 then "0" else "") ++ showNat s)%string.

(** Reading a label [mm:ss] back: the seconds it stands for. *)
Definition readTime (label : string) : option nat :=
  match DecimalString.NilEmpty.uint_of_string (substring 0 2 label),
        get 2 label,
        DecimalString.NilEmpty.uint_of_string (substring 3 2 label) with
  | Some m, Some ":"%char, Some s => Some (Nat.of_uint m * 60 + Nat.of_uint s)%nat
  | _, _, _ => None
  end.

(** The check of one time, for the times below 100 minutes. *)
Definition labelOk (t : nat) : bool :=
  Nat.eqb (String.length (formatTime t)) 5
  && match readTime (formatTime t) with
     | Some t' => Nat.eqb t' t
     | None => false
     end.

End Hud.

(** ** Sample inputs *)

(** Sample values for the constants, used by the examples only. *)
Definition samplePhysics : Physics :=
  mkPhysics 0.5 0.25 0.99 0.5 0.5 8 0.5 1.

Definition sampleConfig : GameConfig := mkGameConfig 50.

(** A point at rest. *)
Definition restPoint (x y radius : R) (isWheel pinned : bool) : Point :=
  mkPoint x y x y 1 radius isWheel pinned 0.

(** A bike at rest, its front wheel, body, handle and head well to the
    right of the sample terrain below; the rear wheel and the height of
    the head are placed, and the rear wheel is pinned, as asked. *)
Definition sampleBike (rwPinned : bool) (rwX rwY headY : R) : Bike :=
  mkBike (restPoint rwX rwY 23 true rwPinned)
         (restPoint 1085 0 23 true false)
         (restPoint 1040 (-45) 10 false false)
         (restPoint 1060 (-70) 5 false false)
         (restPoint 1020 headY 12 false false).

(** A state with one flat terrain segment, no stick, no apple, no killer
    and the flower far to the left. *)
Definition sampleState (b : Bike) (k : InputState) (st : GameStatus) : State :=
  mkState [] [Vertex.mk 0 0; Vertex.mk 100 0] [] []
          (Flower.mk (-100000) 0 false) b k st (Vertex.mk 0 0).

(** A level that was lost. *)
Definition lostLevel : State :=
  initLevel samplePhysics sampleConfig (fun _ => 0) 800 600 DEAD.

(** A level in play generated from the constant draw 0.9: every
    generated segment carries an apple, and every one after the fourth a
    killer. *)
Definition busyLevel : State :=
  initLevel samplePhysics sampleConfig (fun _ => 0.9) 800 600 PLAYING.



(** A stick of rest length 1 and stiffness 1 between the pinned rear
    wheel at (0, 0) and the free body at (2, 0). *)
Definition pinnedStick : Stick := mkStick RW BODY 1 1 true 2.

Definition pinnedBike : Bike :=
  mkBike (restPoint 0 0 23 true true)
         (restPoint 85 0 23 true false)
         (restPoint 2 0 10 false false)
         (restPoint 60 (-70) 5 false false)
         (restPoint 20 (-95) 12 false false).

(** A [PLAYING] state whose only apple is collected, with the flower and
    a killer both at the centre of the rear wheel. *)
Definition goalState : State :=
  mkState [] [Vertex.mk 0 0; Vertex.mk 100 0]
          [Entity.mk 500 0 None (Some true)]
          [Entity.mk 1000 0 (Some 15) None]
          (Flower.mk 1000 0 false) (sampleBike false 1000 0 0)
          noKeys PLAYING (Vertex.mk 0 0).

(** A [PLAYING] state whose only apple is still to collect, with the
    apple and the locked flower both at the centre of the rear wheel, and
    no killer. *)
Definition lastAppleState : State :=
  mkState [] [Vertex.mk 0 0; Vertex.mk 100 0]
          [Entity.mk 1000 0 None (Some false)]
          []
          (Flower.mk 1000 0 false) (sampleBike false 1000 0 0)
          noKeys PLAYING (Vertex.mk 0 0).

(** A bike whose head has fallen to [y = 3000], below [terrain[0].y +
    2000 = 2000], while its rear wheel, of radius 23, rests 10 above the
    middle of the terrain segment. *)
Definition fallenBike : Bike := sampleBike false 50 (-10) 3000.


(** A bike whose head, of radius 12, is 5 above the middle of the sample
    segment, the other points clear of it. *)
Definition crashedBike : Bike :=
  mkBike (restPoint 1000 0 23 true false)
         (restPoint 1085 0 23 true false)
         (restPoint 1040 (-45) 10 false false)
         (restPoint 1060 (-70) 5 false false)
         (restPoint 50 (-5) 12 false false).

(** ** The spec's wording of two steps, for comparison with the code *)

(** Section 4.4 of the spec: a pinned endpoint absorbs no correction and
    the entire correction goes to the other endpoint. *)
Definition specRelaxStick (st : Stick) (b : Bike) : Bike :=
  let dx := x (get (p2 st) b) - x (get (p1 st) b) in
  let dy := y (get (p2 st) b) - y (get (p1 st) b) in
  let dist := hypot dx dy in
  if Reqb dist 0 then b
  else
    let diff := (length st - dist) / dist * stiffness st in
    let share1 :=
      if pinned (get (p1 st) b) then 0
      else if pinned (get (p2 st) b) then 1 else 0.5 in
    let share2 :=
      if pinned (get (p2 st) b) then 0
      else if pinned (get (p1 st) b) then 1 else 0.5 in
    let b :=
      upd (p1 st)
          (fun p => set_y (y p - dy * diff * share1) (set_x (x p - dx * diff * share1) p))
          b in
    upd (p2 st)
        (fun p => set_y (y p + dy * diff * share2) (set_x (x p + dx * diff * share2) p))
        b.

(** Section 4.3 of the spec, read as it is written: velocity = (position -
    previousPosition) * frictionDamping; previousPosition = position;
    position += velocity; position.y += velocity.y + gravityConstant. *)
Definition specIntegratePoint (PHYSICS : Physics) (p : Point) : Point :=
  if pinned p then p
  else
    let vx := (x p - oldx p) * FRICTION PHYSICS in
    let vy := (y p - oldy p) * FRICTION PHYSICS in
    let p := set_oldy (y p) (set_oldx (x p) p) in
    let p := set_y (y p + vy) (set_x (x p + vx) p) in
    set_y (y p + (vy + GRAVITY PHYSICS)) p.

(** ** Solver calls on the bike *)

(** The calls of the integration step and of the constraint solver, to
    state what any sequence of them leaves alone. *)
Inductive SolverOp : Set := OpIntegrate | OpRelax.

Definition solverOp (PHYSICS : Physics) (l : list Stick) (o : SolverOp)
    (b : Bike) : Bike :=
  match o with
  | OpIntegrate => integrate PHYSICS b
  | OpRelax => relax l b
  end.

Definition solverOps (PHYSICS : Physics) (l : list Stick) (os : list SolverOp)
    (b : Bike) : Bike :=
  fold_left (fun b o => solverOp PHYSICS l o b) os b.

(** The points whose position ([x] or [y]) the control impulses edit
    under the keys [k]: both wheels and the handle when leaning, the body
    when flipping. *)
Definition controlsMove (k : InputState) (r : PointRef) : bool :=
  match r with
  | RW | FW | HANDLE => left k || right k
  | BODY => space k
  | HEAD => false
  end.

(** The state the [n]-th collision pass of a step receives, counted from
    0: the state after [n] turns of the loop, its sticks relaxed once
    more. *)
Definition collisionPassInput (PHYSICS : Physics) (n : nat) (s : State)
    : option State :=
  match
    iterate PHYSICS n (set_bike (integrate PHYSICS (controls PHYSICS (keys s) (bike s))) s)
  with
  | Some s' => Some (set_bike (relax (sticks s') (bike s')) s')
  | None => None
  end.

(** Non-decreasing sequences of numbers. *)
Fixpoint nondecreasing (l : list R) : Prop :=
  match l with
  | [] => True
  | a :: t =>
      match t with
      | [] => True
      | b :: _ => a <= b /\ nondecreasing t
      end
  end.

(** ** What a collision pass may change *)

(** Everything of the state but the bike and the status. *)
Definition sameLevel (s s' : State) : Prop :=
  sticks s' = sticks s /\ terrain s' = terrain s /\ apples s' = apples s /\
  killers s' = killers s /\ flower s' = flower s /\ keys s' = keys s /\
  camera s' = camera s.

(** The status is kept, or goes from [PLAYING] to [DEAD]. *)
Definition onlyDies (s s' : State) : Prop :=
  status s' = status s \/ (status s = PLAYING /\ status s' = DEAD).

(** What the terrain loop of [initLevel] maintains: the two vertices it
    starts from, a last vertex at [(tX, tY)], non-decreasing abscissas
    bounded by [tX], and no vertex but the first at the depth of the
    anchors. *)
Definition genInvariant (height : R) (g : Gen) : Prop :=
  (exists mid,
     genTerrain g
     = Vertex.mk 0 (height + 2000) :: Vertex.mk 0 (height - 200) :: mid) /\
  (exists l, genTerrain g = l ++ [Vertex.mk (tX g) (tY g)]) /\
  nondecreasing (map Vertex.x (genTerrain g)) /\
  (forall v, In v (genTerrain g) -> Vertex.x v <= tX g) /\
  (height <> -1800 ->
   forall v, In v (tl (genTerrain g)) -> Vertex.y v <> height + 2000).

(** ** Further sample inputs *)

(** A stick of rest length 80 and stiffness 1 between the two free
    wheels of the sample bike, which stand 85 apart. *)
Definition wheelStick : Stick := mkStick RW FW 80 1 true 2.

(** ** Predicates on generated levels *)

(** Strictly increasing sequences of numbers. *)
Fixpoint increasing (l : list R) : Prop :=
  match l with
  | [] => True
  | a :: t =>
      match t with
      | [] => True
      | b :: _ => a < b /\ increasing t
      end
  end.

(** An uncollected apple hanging more than 120 and less than 170 above a
    vertex of [t]. *)
Definition appleAbove (t : list Vertex.t) (a : Entity.t) : Prop :=
  Entity.collected a = Some false /\ Entity.r a = None /\
  exists v, In v t /\ Entity.x a = Vertex.x v /\
            Vertex.y v - 170 < Entity.y a <= Vertex.y v - 120.

(** A killer of radius 15 placed 20 to the right of and 15 above a vertex
    of [t]. *)
Definition killerBeside (t : list Vertex.t) (k : Entity.t) : Prop :=
  Entity.r k = Some 15 /\
  exists v, In v t /\ Entity.x k = Vertex.x v + 20 /\
            Entity.y k = Vertex.y v - 15.

(** ** The contact of a point with a segment *)

(** The quantities [collide] computes for the point [p] and the segment
    from [a] to [b]: the clamped parameter [t], the closest point of the
    segment and the distance to it. *)
Definition contactT (a b : Vertex.t) (p : Point) : R :=
  Rmax 0
    (Rmin 1
       (((x p - Vertex.x a) * (Vertex.x b - Vertex.x a)
         + (y p - Vertex.y a) * (Vertex.y b - Vertex.y a))
        / ((Vertex.x b - Vertex.x a) * (Vertex.x b - Vertex.x a)
           + (Vertex.y b - Vertex.y a) * (Vertex.y b - Vertex.y a)))).

Definition closestX (a b : Vertex.t) (p : Point) : R :=
  Vertex.x a + contactT a b p * (Vertex.x b - Vertex.x a).

Definition closestY (a b : Vertex.t) (p : Point) : R :=
  Vertex.y a + contactT a b p * (Vertex.y b - Vertex.y a).

Definition contactDist (a b : Vertex.t) (p : Point) : R :=
  hypot (x p - closestX a b p) (y p - closestY a b p).

(** The point passes the broad phase, the segment is not degenerate and
    the point is closer to it than its radius. *)
Definition touches (a b : Vertex.t) (p : Point) : bool :=
  negb (Rltb (x p) (Rmin (Vertex.x a) (Vertex.x b) - 50)
        || Rltb (Rmax (Vertex.x a) (Vertex.x b) + 50) (x p))
  && negb (Reqb ((Vertex.x b - Vertex.x a) * (Vertex.x b - Vertex.x a)
                 + (Vertex.y b - Vertex.y a) * (Vertex.y b - Vertex.y a)) 0)
  && Rltb (contactDist a b p) (radius p).

(** The contact that kills: the head, deeper than a fifth of its
    radius. *)
Definition fatal (r : PointRef) (a b : Vertex.t) (p : Point) : bool :=
  touches a b p && PointRef_eqb r HEAD
  && Rltb (contactDist a b p) (radius p * 0.8).

(** The fields of a point no part of the simulation writes. *)
Definition sameBody (p p' : Point) : Prop :=
  mass p' = mass p /\ radius p' = radius p /\
  isWheel p' = isWheel p /\ pinned p' = pinned p.

(** ** The outcome of a gameplay evaluation *)

(** Every apple was found collected and a body part is at less than 35
    from the flower. *)
Definition winsNow (s : State) : bool :=
  Nat.eqb (collectedCount (apples s)) (List.length (apples s))
  && existsb (near (bike s) (Flower.x (flower s)) (Flower.y (flower s))) bikeParts.

(** A body part is in contact with a killer. *)
Definition killedNow (s : State) : bool :=
  existsb (fun k => existsb (hits (bike s) k) bikeParts) (killers s).

(** An apple after the pickup test against the bike [b]: the same apple,
    collected if it was or if a body part is at less than 35 from it. *)
Definition pickedUp (b : Bike) (a a' : Entity.t) : Prop :=
  Entity.x a' = Entity.x a /\ Entity.y a' = Entity.y a /\
  Entity.r a' = Entity.r a /\
  truthy (Entity.collected a')
  = truthy (Entity.collected a)
    || existsb (near b (Entity.x a) (Entity.y a)) bikeParts.

(** An apple later in the same level: at the same place, and collected
    if it was. *)
Definition appleKept (a a' : Entity.t) : Prop :=
  Entity.x a' = Entity.x a /\ Entity.y a' = Entity.y a /\
  (truthy (Entity.collected a) = true -> truthy (Entity.collected a') = true).

(** What a physics step leaves of the level: sticks, terrain, killers,
    keys and camera as they are, the flower in place and unlocked if it
    was, the apples kept. *)
Definition levelKept (s s' : State) : Prop :=
  sticks s' = sticks s /\ terrain s' = terrain s /\ killers s' = killers s /\
  keys s' = keys s /\ camera s' = camera s /\
  Flower.x (flower s') = Flower.x (flower s) /\
  Flower.y (flower s') = Flower.y (flower s) /\
  (Flower.unlocked (flower s) = true -> Flower.unlocked (flower s') = true) /\
  Forall2 appleKept (apples s) (apples s').

(** * Properties *)

(** ** Comparisons on concrete numbers *)

Lemma Rltb_true (a b : R) : a < b -> Rltb a b = true.
Proof. intros H. unfold Rltb. destruct (Rlt_dec a b); [reflexivity | contradiction]. Qed.

Lemma Rltb_false (a b : R) : b <= a -> Rltb a b = false.
Proof. intros H. unfold Rltb. destruct (Rlt_dec a b); [lra | reflexivity]. Qed.

Lemma Rltb_lt (a b : R) : Rltb a b = true <-> a < b.
Proof.
  unfold Rltb. destruct (Rlt_dec a b); split; intros H;
    try reflexivity; try assumption; try discriminate; contradiction.
Qed.

Lemma Reqb_true (a b : R) : a = b -> Reqb a b = true.
Proof. intros H. unfold Reqb. destruct (Req_dec_T a b); [reflexivity | contradiction]. Qed.

Lemma Reqb_false (a b : R) : a <> b -> Reqb a b = false.
Proof. intros H. unfold Reqb. destruct (Req_dec_T a b); [contradiction | reflexivity]. Qed.

Lemma hypot_nonneg (a b : R) : 0 <= hypot a b.
Proof. unfold hypot. apply sqrt_pos. Qed.

Lemma hypot_axis_r (a : R) : 0 <= a -> hypot a 0 = a.
Proof.
  intros H. unfold hypot.
  replace (a * a + 0 * 0) with (a * a) by ring.
  apply sqrt_square, H.
Qed.

Lemma hypot_axis_l (b : R) : 0 <= b -> hypot 0 b = b.
Proof.
  intros H. unfold hypot.
  replace (0 * 0 + b * b) with (b * b) by ring.
  apply sqrt_square, H.
Qed.

(** A distance is at least its horizontal part. *)
Lemma hypot_ge (a b c : R) : 0 <= c -> c <= a -> c <= hypot a b.
Proof.
  intros Hc Hca. unfold hypot.
  rewrite <- (sqrt_square c Hc).
  apply sqrt_le_1_alt. nra.
Qed.

Lemma hypot_zero (a b : R) : hypot a b = 0 -> a = 0 /\ b = 0.
Proof.
  unfold hypot. intros H.
  apply sqrt_eq_0 in H; [ | nra ].
  split; nra.
Qed.

(** ** Reading after writing *)

Lemma get_set_same (r : PointRef) (p : Point) (b : Bike) : get r (set r p b) = p.
Proof. destruct r; reflexivity. Qed.

Lemma get_set_other (r r' : PointRef) (p : Point) (b : Bike) :
  r <> r' -> get r' (set r p b) = get r' b.
Proof. destruct r, r'; intros H; try reflexivity; contradiction H; reflexivity. Qed.

Lemma get_upd_same (r : PointRef) (f : Point -> Point) (b : Bike) :
  get r (upd r f b) = f (get r b).
Proof. apply get_set_same. Qed.

Lemma get_upd_other (r r' : PointRef) (f : Point -> Point) (b : Bike) :
  r <> r' -> get r' (upd r f b) = get r' b.
Proof. apply get_set_other. Qed.

Lemma PointRef_eqb_eq (a b : PointRef) : PointRef_eqb a b = true <-> a = b.
Proof. destruct a, b; simpl; split; intros H; try reflexivity; discriminate. Qed.

Lemma PointRef_eq_dec (a b : PointRef) : {a = b} + {a <> b}.
Proof. decide equality. Defined.

(** ** The status machine *)

Lemma die_not_playing (s : State) : status s <> PLAYING -> die s = s.
Proof. unfold die. destruct (status s); simpl; intros H; try reflexivity. contradiction H; reflexivity. Qed.

Lemma win_not_playing (s : State) : status s <> PLAYING -> win s = s.
Proof. unfold win. destruct (status s); simpl; intros H; try reflexivity. contradiction H; reflexivity. Qed.

Lemma updatePhysics_not_playing (PHYSICS : Physics) (s : State) :
  status s <> PLAYING -> updatePhysics PHYSICS s = Some s.
Proof.
  unfold updatePhysics. destruct (status s); simpl; intros H; try reflexivity.
  contradiction H; reflexivity.
Qed.

Lemma run_not_playing (PHYSICS : Physics) (cs : list Call) (s : State) :
  status s <> PLAYING -> run PHYSICS cs s = Some s.
Proof.
  intros H. induction cs as [ | c cs IH]; simpl; [reflexivity | ].
  destruct c; simpl.
  - rewrite die_not_playing by assumption. exact IH.
  - rewrite win_not_playing by assumption. exact IH.
  - rewrite updatePhysics_not_playing by assumption. exact IH.
Qed.

Lemma status_die (s : State) :
  status (die s) = match status s with PLAYING => DEAD | st => st end.
Proof. unfold die. destruct (status s) eqn:E; simpl; auto. Qed.

Lemma status_win (s : State) :
  status (win s) = match status s with PLAYING => WON | st => st end.
Proof. unfold win. destruct (status s) eqn:E; simpl; auto. Qed.

(** C1.  [die] and [win] change the status only from [PLAYING], to [DEAD]
    and to [WON], and touch nothing else; from any other status they
    return the state as it is, and so does every sequence of [die], [win]
    and physics steps: a [DEAD] or [WON] status stays until [initLevel],
    which installs the status it is given. *)
Theorem status_changes_only_from_playing :
  forall (PHYSICS : Physics) (GAME_CONFIG : GameConfig) (random : nat -> R)
         (s : State),
    (status s = PLAYING -> status (die s) = DEAD /\ status (win s) = WON) /\
    die s = set_status (status (die s)) s /\
    win s = set_status (status (win s)) s /\
    (status s <> PLAYING ->
       die s = s /\ win s = s /\
       forall cs : list Call, run PHYSICS cs s = Some s) /\
    (status (die s) <> status s -> status s = PLAYING /\ status (die s) = DEAD) /\
    (status (win s) <> status s -> status s = PLAYING /\ status (win s) = WON) /\
    (forall width height st,
       status (initLevel PHYSICS GAME_CONFIG random width height st) = st).
Proof.
  intros PHYSICS GAME_CONFIG random s.
  repeat split.
  - rewrite status_die, H. reflexivity.
  - rewrite status_win, H. reflexivity.
  - unfold die. destruct s as [a b c d e f g st h]; destruct st; reflexivity.
  - unfold win. destruct s as [a b c d e f g st h]; destruct st; reflexivity.
  - apply die_not_playing, H.
  - apply win_not_playing, H.
  - intros cs. apply run_not_playing, H.
  - destruct (status s) eqn:E; try reflexivity;
      rewrite status_die, E in H; contradiction H; reflexivity.
  - rewrite status_die in *. destruct (status s); try reflexivity;
      contradiction H; reflexivity.
  - destruct (status s) eqn:E; try reflexivity;
      rewrite status_win, E in H; contradiction H; reflexivity.
  - rewrite status_win in *. destruct (status s); try reflexivity;
      contradiction H; reflexivity.
Qed.

(** A lost level stays lost through physics steps, [win] and [die]. *)
Lemma status_changes_only_from_playing_witness :
  status lostLevel <> PLAYING /\
  die lostLevel = lostLevel /\ win lostLevel = lostLevel /\
  run samplePhysics [CallUpdatePhysics; CallWin; CallDie; CallUpdatePhysics] lostLevel
    = Some lostLevel.
Proof.
  assert (H : status lostLevel <> PLAYING) by (simpl; discriminate).
  destruct (status_changes_only_from_playing samplePhysics sampleConfig
              (fun _ => 0) lostLevel) as [_ [_ [_ [K _]]]].
  destruct (K H) as [K1 [K2 K3]].
  split; [exact H | ]. split; [exact K1 | ]. split; [exact K2 | ]. apply K3.
Defined.

(** ** Verlet integration *)

Lemma get_integrate (PHYSICS : Physics) (r : PointRef) (b : Bike) :
  get r (integrate PHYSICS b) = integratePoint PHYSICS (get r b).
Proof. destruct r; reflexivity. Qed.

(** C5, as the code has it.  One integration step turns a point that is
    not pinned into the point with velocity [(position - previous) *
    FRICTION], previous position the old position, [x] advanced by the
    velocity and [y] advanced by the velocity plus [GRAVITY]: the vertical
    velocity is added once.  Nothing else of the point changes. *)
Theorem integrate_free_point :
  forall (PHYSICS : Physics) (r : PointRef) (b : Bike),
    pinned (get r b) = false ->
    let p := get r b in
    let p' := get r (integrate PHYSICS b) in
    let vx := (x p - oldx p) * FRICTION PHYSICS in
    let vy := (y p - oldy p) * FRICTION PHYSICS in
    oldx p' = x p /\ oldy p' = y p /\
    x p' = x p + vx /\
    y p' = y p + (vy + GRAVITY PHYSICS) /\
    mass p' = mass p /\ radius p' = radius p /\ isWheel p' = isWheel p /\
    pinned p' = pinned p /\ rotation p' = rotation p.
Proof.
  intros PHYSICS r b H p p' vx vy. subst p p' vx vy.
  rewrite get_integrate. unfold integratePoint. rewrite H. simpl.
  repeat split; reflexivity.
Qed.

(** The body of the sample bike, at rest, falls by [GRAVITY]. *)
Lemma integrate_free_point_witness :
  pinned (get BODY (sampleBike false 1000 0 0)) = false /\
  y (get BODY (integrate samplePhysics (sampleBike false 1000 0 0)))
    = -45 + ((-45 - -45) * 0.99 + 0.5).
Proof.
  split; [reflexivity | ].
  apply (integrate_free_point samplePhysics BODY (sampleBike false 1000 0 0)).
  reflexivity.
Defined.

(** C5, counterexample.  On a free point moving down by 1 per step, with
    [FRICTION = 0.99] and [GRAVITY = 0.5], the code puts [y] at 2.49 and
    the sequence of the spec, which adds the vertical velocity twice, at
    3.48. *)
Lemma integrate_differs_from_spec_sequence :
  y (integratePoint samplePhysics (mkPoint 0 1 0 0 1 5 false false 0)) = 2.49 /\
  y (specIntegratePoint samplePhysics (mkPoint 0 1 0 0 1 5 false false 0)) = 3.48.
Proof.
  unfold integratePoint, specIntegratePoint. simpl. split; lra.
Qed.

(** ** Stick relaxation *)

Lemma relaxStick_unfold (st : Stick) (b : Bike) :
  let a := get (p1 st) b in
  let c := get (p2 st) b in
  let dx := x c - x a in
  let dy := y c - y a in
  let dist := hypot dx dy in
  let diff := (length st - dist) / dist * stiffness st in
  dist <> 0 ->
  relaxStick st b =
    let b1 :=
      if pinned a then b
      else upd (p1 st)
               (fun p => set_y (y p - dy * diff * 0.5) (set_x (x p - dx * diff * 0.5) p))
               b in
    if pinned (get (p2 st) b1) then b1
    else upd (p2 st)
             (fun p => set_y (y p + dy * diff * 0.5) (set_x (x p + dx * diff * 0.5) p))
             b1.
Proof.
  intros a c dx dy dist diff Hd.
  unfold relaxStick. fold a c. fold dx dy. fold dist.
  rewrite (Reqb_false dist 0 Hd). fold diff.
  destruct (pinned a); simpl.
  - destruct (pinned (get (p2 st) b)); reflexivity.
  - match goal with |- context [pinned ?u] => destruct (pinned u) end; reflexivity.
Qed.

(** C2, as the code has it.  In one relaxation of a stick of nonzero
    current length with exactly one pinned endpoint, the pinned endpoint
    is left as it is and the free endpoint moves by half of the
    correction [(dx, dy) * diff], its own share, where [diff = (length -
    dist) / dist * stiffness]; no other point is touched. *)
Theorem relaxStick_one_pinned :
  forall (st : Stick) (b : Bike),
    let a := get (p1 st) b in
    let c := get (p2 st) b in
    let dx := x c - x a in
    let dy := y c - y a in
    let dist := hypot dx dy in
    let diff := (length st - dist) / dist * stiffness st in
    let b' := relaxStick st b in
    dist <> 0 ->
    (pinned a = true -> pinned c = false ->
       get (p1 st) b' = a /\
       x (get (p2 st) b') = x c + dx * diff * 0.5 /\
       y (get (p2 st) b') = y c + dy * diff * 0.5) /\
    (pinned a = false -> pinned c = true ->
       get (p2 st) b' = c /\
       x (get (p1 st) b') = x a - dx * diff * 0.5 /\
       y (get (p1 st) b') = y a - dy * diff * 0.5) /\
    (forall r, r <> p1 st -> r <> p2 st -> get r b' = get r b).
Proof.
  intros st b a c dx dy dist diff b' Hd.
  subst b'. rewrite (relaxStick_unfold st b Hd).
  fold a c. fold dx dy. fold dist. fold diff. cbv zeta.
  split; [ | split].
  - intros Ha Hc.
    assert (Hne : p2 st <> p1 st).
    { intros K. subst a c. rewrite K in Hc. congruence. }
    rewrite Ha. fold c. rewrite Hc.
    rewrite get_upd_same, get_upd_other by exact Hne.
    fold a c. simpl. repeat split; reflexivity.
  - intros Ha Hc.
    assert (Hne : p1 st <> p2 st).
    { intros K. subst a c. rewrite K in Ha. congruence. }
    rewrite Ha. rewrite get_upd_other by exact Hne. fold c. rewrite Hc.
    rewrite get_upd_same, get_upd_other by exact Hne.
    fold a c. simpl. repeat split; reflexivity.
  - intros r H1 H2.
    assert (N1 : p1 st <> r) by (intros K; subst r; contradiction).
    assert (N2 : p2 st <> r) by (intros K; subst r; contradiction).
    destruct (pinned a).
    + destruct (pinned (get (p2 st) b)); [reflexivity | ].
      apply get_upd_other, N2.
    + match goal with |- context [pinned ?u] => destruct (pinned u) end.
      * apply get_upd_other, N1.
      * rewrite get_upd_other by exact N2. apply get_upd_other, N1.
Qed.

Lemma pinnedStick_dist : hypot (2 - 0) (0 - 0) = 2.
Proof.
  replace (0 - 0) with 0 by ring. replace (2 - 0) with 2 by ring.
  apply hypot_axis_r. lra.
Qed.

(** The pinned rear wheel of [pinnedBike] stays where it is. *)
Lemma relaxStick_one_pinned_witness :
  hypot (x (get BODY pinnedBike) - x (get RW pinnedBike))
        (y (get BODY pinnedBike) - y (get RW pinnedBike)) <> 0 /\
  pinned (get RW pinnedBike) = true /\
  pinned (get BODY pinnedBike) = false /\
  get RW (relaxStick pinnedStick pinnedBike) = get RW pinnedBike.
Proof.
  assert (H : hypot (x (get BODY pinnedBike) - x (get RW pinnedBike))
                    (y (get BODY pinnedBike) - y (get RW pinnedBike)) <> 0).
  { simpl. rewrite pinnedStick_dist. lra. }
  split; [exact H | ]. split; [reflexivity | ]. split; [reflexivity | ].
  destruct (relaxStick_one_pinned pinnedStick pinnedBike H) as [K _].
  apply K; reflexivity.
Defined.

(** C2, counterexample.  The rear wheel is pinned at (0, 0), the body is
    free at (2, 0), the stick has rest length 1 and stiffness 1: the
    correction is [dx * diff = -1].  The code moves the body by half of
    it, to 1.5; with the entire correction, as the spec words it, the
    body would be at 1. *)
Lemma relaxStick_gives_half_the_correction :
  x (get BODY (relaxStick pinnedStick pinnedBike)) = 1.5 /\
  x (get BODY (specRelaxStick pinnedStick pinnedBike)) = 1 /\
  get RW (relaxStick pinnedStick pinnedBike) = get RW pinnedBike.
Proof.
  unfold relaxStick, specRelaxStick. simpl.
  rewrite pinnedStick_dist.
  rewrite (Reqb_false 2 0) by lra. simpl.
  repeat split; lra.
Qed.

(** ** Pinned points *)

Lemma integratePoint_pinned (PHYSICS : Physics) (p : Point) :
  pinned p = true -> integratePoint PHYSICS p = p.
Proof. intros H. unfold integratePoint. rewrite H. reflexivity. Qed.

Lemma pinned_integratePoint (PHYSICS : Physics) (p : Point) :
  pinned (integratePoint PHYSICS p) = pinned p.
Proof. unfold integratePoint. destruct (pinned p) eqn:E; simpl; auto. Qed.

Lemma relaxStick_pinned (st : Stick) (b : Bike) (r : PointRef) :
  pinned (get r b) = true -> get r (relaxStick st b) = get r b.
Proof.
  intros H. unfold relaxStick.
  match goal with |- context [Reqb ?d 0] => destruct (Reqb d 0) end;
    [reflexivity | ].
  cbv zeta.
  match goal with
  | |- get r (if negb (pinned (get (p2 st) ?b1)) then upd (p2 st) ?f ?b1 else ?b1)
       = _ =>
      assert (E1 : get r b1 = get r b); [ | set (c1 := b1) in * ]
  end.
  - destruct (PointRef_eq_dec (p1 st) r) as [K | K].
    + rewrite K, H. reflexivity.
    + destruct (negb (pinned (get (p1 st) b))); [ | reflexivity].
      apply get_upd_other, K.
  - destruct (PointRef_eq_dec (p2 st) r) as [K | K].
    + rewrite K, E1, H. simpl. exact E1.
    + destruct (negb (pinned (get (p2 st) c1))); [ | exact E1].
      rewrite get_upd_other by exact K. exact E1.
Qed.

Lemma relax_pinned (l : list Stick) (b : Bike) (r : PointRef) :
  pinned (get r b) = true -> get r (relax l b) = get r b.
Proof.
  unfold relax. revert b.
  induction l as [ | st l IH]; intros b H; [reflexivity | ].
  cbn [fold_left]. rewrite IH.
  - apply relaxStick_pinned, H.
  - rewrite relaxStick_pinned by exact H. exact H.
Qed.

Lemma solverOps_pinned (PHYSICS : Physics) (l : list Stick)
    (os : list SolverOp) (b : Bike) (r : PointRef) :
  pinned (get r b) = true -> get r (solverOps PHYSICS l os b) = get r b.
Proof.
  unfold solverOps. revert b.
  induction os as [ | o os IH]; intros b H; [reflexivity | ].
  cbn [fold_left].
  assert (E : get r (solverOp PHYSICS l o b) = get r b).
  { destruct o; cbn [solverOp].
    - rewrite get_integrate. apply integratePoint_pinned, H.
    - apply relax_pinned, H. }
  rewrite IH; rewrite E; [reflexivity | exact H].
Qed.

Lemma controls_pinned_flag (PHYSICS : Physics) (k : InputState) (b : Bike)
    (r : PointRef) :
  pinned (get r (controls PHYSICS k b)) = pinned (get r b).
Proof.
  unfold controls.
  destruct (up k), (down k), (left k), (right k), (space k), r; reflexivity.
Qed.

Lemma controls_position (PHYSICS : Physics) (k : InputState) (b : Bike)
    (r : PointRef) :
  controlsMove k r = false ->
  x (get r (controls PHYSICS k b)) = x (get r b) /\
  y (get r (controls PHYSICS k b)) = y (get r b).
Proof.
  unfold controls, controlsMove.
  destruct (up k), (down k), (left k), (right k), (space k), r;
    simpl; intros H; try discriminate; split; reflexivity.
Qed.

(** C7, as the code has it.  For every combination of the six flags, a
    pinned point is the same point, position included, after any sequence
    of Verlet integrations and relaxation passes that follows the control
    impulses; the control impulses themselves leave its position alone
    when they do not edit the position of that point, that is unless it
    is a wheel or the handle while [left] or [right] is held, or the body
    while [space] is held. *)
Theorem pinned_point_fixed_by_solver :
  forall (PHYSICS : Physics) (k : InputState) (l : list Stick)
         (os : list SolverOp) (b : Bike) (r : PointRef),
    pinned (get r b) = true ->
    let b1 := controls PHYSICS k b in
    let b2 := solverOps PHYSICS l os b1 in
    get r b2 = get r b1 /\
    pinned (get r b2) = true /\
    (controlsMove k r = false ->
       x (get r b2) = x (get r b) /\ y (get r b2) = y (get r b)).
Proof.
  intros PHYSICS k l os b r H b1 b2.
  assert (H1 : pinned (get r b1) = true).
  { subst b1. rewrite controls_pinned_flag. exact H. }
  assert (E : get r b2 = get r b1).
  { subst b2. apply solverOps_pinned, H1. }
  split; [exact E | ]. split; [rewrite E; exact H1 | ].
  intros Hm. rewrite E. subst b1. apply controls_position, Hm.
Qed.

(** A pinned rear wheel under [up], [down], [space] and [enter]: an
    integration and two relaxation passes leave it as the controls left
    it. *)
Lemma pinned_point_fixed_by_solver_witness :
  pinned (get RW (sampleBike true 1000 0 0)) = true /\
  get RW (solverOps samplePhysics [pinnedStick]
            [OpIntegrate; OpRelax; OpRelax]
            (controls samplePhysics (mkKeys true true false false true true)
               (sampleBike true 1000 0 0)))
    = get RW (controls samplePhysics (mkKeys true true false false true true)
                (sampleBike true 1000 0 0)).
Proof.
  split; [reflexivity | ].
  apply (pinned_point_fixed_by_solver samplePhysics
           (mkKeys true true false false true true) [pinnedStick]
           [OpIntegrate; OpRelax; OpRelax] (sampleBike true 1000 0 0) RW).
  reflexivity.
Defined.

(** ** Collision passes: what they keep *)

Lemma sameLevel_refl (s : State) : sameLevel s s.
Proof. unfold sameLevel. repeat split; reflexivity. Qed.

Lemma sameLevel_trans (s1 s2 s3 : State) :
  sameLevel s1 s2 -> sameLevel s2 s3 -> sameLevel s1 s3.
Proof.
  unfold sameLevel.
  intros (A1 & A2 & A3 & A4 & A5 & A6 & A7) (B1 & B2 & B3 & B4 & B5 & B6 & B7).
  repeat split; congruence.
Qed.

Lemma onlyDies_refl (s : State) : onlyDies s s.
Proof. left. reflexivity. Qed.

Lemma onlyDies_trans (s1 s2 s3 : State) :
  onlyDies s1 s2 -> onlyDies s2 s3 -> onlyDies s1 s3.
Proof.
  unfold onlyDies. intros [A | [A1 A2]] [B | [B1 B2]].
  - left. congruence.
  - right. split; congruence.
  - right. split; congruence.
  - congruence.
Qed.

Lemma sameLevel_set_bike (b : Bike) (s : State) : sameLevel s (set_bike b s).
Proof. unfold sameLevel. repeat split; reflexivity. Qed.

Lemma sameLevel_die (s : State) : sameLevel s (die s).
Proof.
  unfold die, sameLevel.
  destruct (GameStatus_eqb (status s) PLAYING); repeat split; reflexivity.
Qed.

Lemma onlyDies_die (s : State) : onlyDies s (die s).
Proof.
  unfold onlyDies. rewrite status_die.
  destruct (status s); auto.
Qed.

Lemma bike_die (s : State) : bike (die s) = bike s.
Proof. unfold die. destruct (GameStatus_eqb (status s) PLAYING); reflexivity. Qed.

Lemma bike_win (s : State) : bike (win s) = bike s.
Proof. unfold win. destruct (GameStatus_eqb (status s) PLAYING); reflexivity. Qed.

Lemma collide_keeps (PHYSICS : Physics) (r : PointRef) (a b : Vertex.t)
    (s : State) :
  let s' := flowState (collide PHYSICS r a b s) in
  sameLevel s s' /\ onlyDies s s'.
Proof.
  unfold collide. cbv zeta.
  repeat match goal with
         | |- context [if ?c then _ else _] => destruct c
         end;
    cbn [flowState];
    first [ split; [apply sameLevel_refl | apply onlyDies_refl]
          | split; [apply sameLevel_die | apply onlyDies_die]
          | split; [apply sameLevel_set_bike | left; reflexivity] ].
Qed.

Lemma segmentLoop_keeps (PHYSICS : Physics) (r : PointRef)
    (segs : list (Vertex.t * Vertex.t)) (s : State) :
  let s' := flowState (segmentLoop PHYSICS r segs s) in
  sameLevel s s' /\ onlyDies s s'.
Proof.
  revert s. induction segs as [ | [a b] rest IH]; intros s; cbn [segmentLoop].
  - split; [apply sameLevel_refl | apply onlyDies_refl].
  - pose proof (collide_keeps PHYSICS r a b s) as K. cbv zeta in K.
    destruct (collide PHYSICS r a b s) as [s1 | s1]; cbn [flowState] in *.
    + destruct (IH s1) as [I1 I2]. destruct K as [K1 K2]. split.
      * eapply sameLevel_trans; eassumption.
      * eapply onlyDies_trans; eassumption.
    + exact K.
Qed.

Lemma pointLoop_keeps (PHYSICS : Physics) (ps : list PointRef)
    (segs : list (Vertex.t * Vertex.t)) (s : State) :
  let s' := flowState (pointLoop PHYSICS ps segs s) in
  sameLevel s s' /\ onlyDies s s'.
Proof.
  revert s. induction ps as [ | r rest IH]; intros s; cbn [pointLoop].
  - split; [apply sameLevel_refl | apply onlyDies_refl].
  - pose proof (segmentLoop_keeps PHYSICS r segs s) as K. cbv zeta in K.
    destruct (segmentLoop PHYSICS r segs s) as [s1 | s1]; cbn [flowState] in *.
    + destruct (IH s1) as [I1 I2]. destruct K as [K1 K2]. split.
      * eapply sameLevel_trans; eassumption.
      * eapply onlyDies_trans; eassumption.
    + exact K.
Qed.

Lemma Some_eq (A : Type) (a b : A) : Some a = Some b -> a = b.
Proof. intros H. injection H as H. exact H. Qed.

Lemma checkCollisions_keeps (PHYSICS : Physics) (s s' : State) :
  checkCollisions PHYSICS s = Some s' -> sameLevel s s' /\ onlyDies s s'.
Proof.
  unfold checkCollisions. destruct (terrain s) as [ | t0 rest]; [discriminate | ].
  cbv zeta. intros H. apply Some_eq in H. subst s'.
  match goal with
  | |- context [pointLoop PHYSICS points (segments (terrain ?u)) ?u] =>
      pose proof (pointLoop_keeps PHYSICS points (segments (terrain u)) u) as K;
      cbv zeta in K; destruct K as [K1 K2];
      assert (J : sameLevel s u /\ onlyDies s u)
  end.
  { destruct (Rltb (Vertex.y t0 + 2000) (y (head (bike s)))).
    - split; [apply sameLevel_die | apply onlyDies_die].
    - split; [apply sameLevel_refl | apply onlyDies_refl]. }
  destruct J as [J1 J2]. split.
  - eapply sameLevel_trans; eassumption.
  - eapply onlyDies_trans; eassumption.
Qed.

Lemma checkCollisions_total (PHYSICS : Physics) (s : State) :
  terrain s <> [] -> exists s', checkCollisions PHYSICS s = Some s'.
Proof.
  unfold checkCollisions. destruct (terrain s); [congruence | ].
  intros _. eexists. reflexivity.
Qed.

(** The fall check of a pass: a head lower than [terrain[0].y + 2000]
    in a [PLAYING] state leaves the pass [DEAD]. *)
Lemma checkCollisions_fall (PHYSICS : Physics) (s s' : State) (t0 : Vertex.t) :
  hd_error (terrain s) = Some t0 ->
  Vertex.y t0 + 2000 < y (head (bike s)) ->
  status s = PLAYING \/ status s = DEAD ->
  checkCollisions PHYSICS s = Some s' ->
  status s' = DEAD.
Proof.
  unfold checkCollisions. destruct (terrain s) as [ | t rest]; [discriminate | ].
  cbn [hd_error]. intros E. injection E as E. subst t.
  cbv zeta. intros Hy Hs H. apply Some_eq in H. subst s'.
  rewrite (Rltb_true _ _ Hy).
  pose proof (pointLoop_keeps PHYSICS points (segments (terrain (die s))) (die s)) as K.
  cbv zeta in K. destruct K as [_ [K | [K _]]].
  - rewrite K, status_die. destruct Hs as [Hs | Hs]; rewrite Hs; reflexivity.
  - rewrite status_die in K. destruct Hs as [Hs | Hs]; rewrite Hs in K; discriminate.
Qed.

Lemma relaxAndCollide_keeps (PHYSICS : Physics) (s s' : State) :
  relaxAndCollide PHYSICS s = Some s' -> sameLevel s s' /\ onlyDies s s'.
Proof.
  unfold relaxAndCollide. intros H.
  apply checkCollisions_keeps in H. destruct H as [H1 H2]. split.
  - eapply sameLevel_trans; [apply sameLevel_set_bike | exact H1].
  - exact H2.
Qed.

Lemma iterate_keeps (PHYSICS : Physics) (n : nat) (s s' : State) :
  iterate PHYSICS n s = Some s' -> sameLevel s s' /\ onlyDies s s'.
Proof.
  revert s. induction n as [ | n IH]; intros s; cbn [iterate].
  - intros H. injection H as H. subst s'.
    split; [apply sameLevel_refl | apply onlyDies_refl].
  - destruct (relaxAndCollide PHYSICS s) as [s1 | ] eqn:E; [ | discriminate].
    intros H. apply relaxAndCollide_keeps in E. apply IH in H.
    destruct E as [E1 E2]. destruct H as [H1 H2]. split.
    + eapply sameLevel_trans; eassumption.
    + eapply onlyDies_trans; eassumption.
Qed.

Lemma iterate_total (PHYSICS : Physics) (n : nat) (s : State) :
  terrain s <> [] -> exists s', iterate PHYSICS n s = Some s'.
Proof.
  revert s. induction n as [ | n IH]; intros s H; cbn [iterate].
  - eexists. reflexivity.
  - destruct (checkCollisions_total PHYSICS
                (set_bike (relax (sticks s) (bike s)) s) H) as [s1 E].
    unfold relaxAndCollide at 1. rewrite E.
    apply IH. apply checkCollisions_keeps in E.
    destruct E as [(_ & E & _) _]. rewrite E. exact H.
Qed.

Lemma iterate_add (PHYSICS : Physics) (n m : nat) (s : State) :
  iterate PHYSICS (n + m) s =
  match iterate PHYSICS n s with
  | Some s' => iterate PHYSICS m s'
  | None => None
  end.
Proof.
  revert s. induction n as [ | n IH]; intros s; cbn [iterate Nat.add].
  - reflexivity.
  - destruct (relaxAndCollide PHYSICS s); [apply IH | reflexivity].
Qed.

Lemma updatePhysics_total (PHYSICS : Physics) (s : State) :
  terrain s <> [] -> exists s', updatePhysics PHYSICS s = Some s'.
Proof.
  intros H. unfold updatePhysics.
  destruct (negb (GameStatus_eqb (status s) PLAYING)); [eexists; reflexivity | ].
  destruct (iterate_total PHYSICS (ITERATIONS PHYSICS)
              (set_bike (integrate PHYSICS (controls PHYSICS (keys s) (bike s))) s) H)
    as [s1 E].
  rewrite E. eexists. reflexivity.
Qed.

(** ** Gameplay evaluation *)

Lemma existsb_same (A : Type) (f g : A -> bool) (l : list A) :
  (forall a, f a = g a) -> existsb f l = existsb g l.
Proof.
  intros H. induction l as [ | a l IH]; simpl; [reflexivity | ].
  rewrite H, IH. reflexivity.
Qed.

Lemma fold_left_same (A B : Type) (f g : A -> B -> A) (l : list B) (a : A) :
  (forall a b, f a b = g a b) -> fold_left f l a = fold_left g l a.
Proof.
  intros H. revert a. induction l as [ | b l IH]; intros a; simpl; [reflexivity | ].
  rewrite H. apply IH.
Qed.

(** A loop that runs an idempotent action whenever a test holds, the
    action leaving the test alone, runs it if the test holds somewhere. *)
Lemma fold_left_when (A : Type) (act : State -> State)
    (c : State -> A -> bool) (l : list A) (s : State) :
  (forall s a, c (act s) a = c s a) ->
  (forall s, act (act s) = act s) ->
  fold_left (fun s a => if c s a then act s else s) l s =
  if existsb (c s) l then act s else s.
Proof.
  intros Hc Hi. revert s. induction l as [ | a l IH]; intros s; simpl; [reflexivity | ].
  rewrite IH. destruct (c s a) eqn:E; simpl; [ | reflexivity].
  rewrite Hi. rewrite (existsb_same _ (c (act s)) (c s)) by (intros; apply Hc).
  destruct (existsb (c s) l); reflexivity.
Qed.

Lemma die_die (s : State) : die (die s) = die s.
Proof. unfold die. destruct s as [a b c d e f g st h]; destruct st; reflexivity. Qed.

Lemma win_win (s : State) : win (win s) = win s.
Proof. unfold win. destruct s as [a b c d e f g st h]; destruct st; reflexivity. Qed.

Lemma flower_win (s : State) : flower (win s) = flower s.
Proof. unfold win. destruct (GameStatus_eqb (status s) PLAYING); reflexivity. Qed.

Lemma killers_win (s : State) : killers (win s) = killers s.
Proof. unfold win. destruct (GameStatus_eqb (status s) PLAYING); reflexivity. Qed.

(** The loops of [checkGameplay] in closed form. *)
Lemma checkGameplay_unfold (s : State) :
  checkGameplay s =
  let s1 := set_apples (map (collectApple (bike s)) (apples s)) s in
  let s2 :=
    if Nat.eqb (collectedCount (apples s)) (List.length (apples s1))
    then
      let s' :=
        set_flower (Flower.mk (Flower.x (flower s1)) (Flower.y (flower s1)) true) s1 in
      if existsb (near (bike s') (Flower.x (flower s')) (Flower.y (flower s'))) bikeParts
      then win s' else s'
    else s1 in
  if existsb (fun k => existsb (hits (bike s2) k) bikeParts) (killers s2)
  then die s2 else s2.
Proof.
  unfold checkGameplay. cbv zeta.
  match goal with
  | |- fold_left _ (killers ?u) ?u = _ => set (s2 := u)
  end.
  match goal with
  | |- _ = if existsb _ (killers ?v) then _ else _ => assert (E : s2 = v)
  end.
  { subst s2.
    destruct (Nat.eqb _ _); [ | reflexivity].
    apply (fold_left_when _ win
             (fun s r => near (bike s) (Flower.x (flower s)) (Flower.y (flower s)) r)).
    - intros s0 r. rewrite bike_win, flower_win. reflexivity.
    - apply win_win. }
  rewrite <- E.
  rewrite (fold_left_same _ _
             (fun s k =>
                fold_left (fun s r => if hits (bike s) k r then die s else s)
                          bikeParts s)
             (fun s k =>
                if existsb (hits (bike s) k) bikeParts then die s else s)).
  - apply (fold_left_when _ die
             (fun s k => existsb (hits (bike s) k) bikeParts)).
    + intros s0 k. rewrite bike_die. reflexivity.
    + apply die_die.
  - intros s0 k.
    apply (fold_left_when _ die (fun s r => hits (bike s) k r)).
    + intros s1 r. rewrite bike_die. reflexivity.
    + apply die_die.
Qed.

Lemma collectedCount_all (l : list Entity.t) :
  (forall a, In a l -> truthy (Entity.collected a) = true) ->
  collectedCount l = List.length l.
Proof.
  unfold collectedCount. induction l as [ | a l IH]; intros H; simpl; [reflexivity | ].
  rewrite (H a) by (left; reflexivity). simpl. f_equal.
  apply IH. intros b Hb. apply H. right. exact Hb.
Qed.

Lemma checkGameplay_not_playing (s : State) :
  status s <> PLAYING -> status (checkGameplay s) = status s.
Proof.
  intros H. rewrite checkGameplay_unfold. cbv zeta.
  repeat match goal with
         | |- context [if ?c then _ else _] => destruct c
         end;
    rewrite ?status_die, ?status_win; cbn [status set_flower set_apples];
    rewrite ?status_win; cbn [status set_flower set_apples];
    destruct (status s); try reflexivity; contradiction H; reflexivity.
Qed.

Lemma flower_checkGameplay_unlocked (s : State) :
  collectedCount (apples s) = List.length (apples s) ->
  Flower.unlocked (flower (checkGameplay s)) = true.
Proof.
  intros H. rewrite checkGameplay_unfold. cbv zeta.
  cbn [apples set_apples]. rewrite length_map, H, Nat.eqb_refl.
  assert (D : forall u, flower (die u) = flower u).
  { intros u. unfold die. destruct (GameStatus_eqb (status u) PLAYING); reflexivity. }
  repeat match goal with
         | |- context [if ?c then _ else _] => destruct c
         end;
    rewrite ?D, ?flower_win; reflexivity.
Qed.

Lemma checkGameplay_wins (s : State) :
  status s = PLAYING ->
  collectedCount (apples s) = List.length (apples s) ->
  existsb (near (bike s) (Flower.x (flower s)) (Flower.y (flower s))) bikeParts = true ->
  status (checkGameplay s) = WON.
Proof.
  intros Hs Hc Hn. rewrite checkGameplay_unfold. cbv zeta.
  cbn [apples set_apples]. rewrite length_map, Hc, Nat.eqb_refl.
  cbn [bike flower set_flower set_apples Flower.x Flower.y].
  rewrite Hn.
  match goal with
  | |- context [if ?c then _ else _] => destruct c
  end;
    rewrite ?status_die, status_win; cbn [status set_flower set_apples];
    rewrite Hs; reflexivity.
Qed.

Lemma near_exists (b : Bike) (fx fy : R) :
  (exists r, In r bikeParts /\
             hypot (x (get r b) - fx) (y (get r b) - fy) < 35) ->
  existsb (near b fx fy) bikeParts = true.
Proof.
  intros (r & Hr & Hd). apply existsb_exists. exists r. split; [exact Hr | ].
  unfold near. apply Rltb_true, Hd.
Qed.

Lemma hypot_self (a b : R) : hypot (a - a) (b - b) = 0.
Proof.
  unfold hypot. replace ((a - a) * (a - a) + (b - b) * (b - b)) with 0 by ring.
  apply sqrt_0.
Qed.

Lemma bike_checkGameplay (s : State) : bike (checkGameplay s) = bike s.
Proof.
  rewrite checkGameplay_unfold. cbv zeta.
  repeat match goal with
         | |- context [if ?c then _ else _] => destruct c
         end;
    rewrite ?bike_die, ?bike_win; reflexivity.
Qed.

Lemma apples_die (s : State) : apples (die s) = apples s.
Proof. unfold die. destruct (GameStatus_eqb (status s) PLAYING); reflexivity. Qed.

Lemma apples_win (s : State) : apples (win s) = apples s.
Proof. unfold win. destruct (GameStatus_eqb (status s) PLAYING); reflexivity. Qed.

Lemma apples_checkGameplay (s : State) :
  apples (checkGameplay s) = map (collectApple (bike s)) (apples s).
Proof.
  rewrite checkGameplay_unfold. cbv zeta.
  repeat match goal with
         | |- context [if ?c then _ else _] => destruct c
         end;
    rewrite ?apples_die, ?apples_win; reflexivity.
Qed.

(** [collectedCount] counts the apples found collected, not those the
    evaluation collects: an evaluation that starts with an apple still to
    collect leaves the flower and the status as they are, apart from a
    death, even when it collects that apple; the apple counts from the
    next evaluation on. *)
Lemma checkGameplay_apple_pending (s : State) :
  collectedCount (apples s) <> List.length (apples s) ->
  flower (checkGameplay s) = flower s /\ onlyDies s (checkGameplay s).
Proof.
  intros H. rewrite checkGameplay_unfold. cbv zeta.
  cbn [apples set_apples]. rewrite length_map.
  destruct (Nat.eqb_spec (collectedCount (apples s)) (List.length (apples s)))
    as [E | _]; [contradiction | ].
  match goal with
  | |- context [if ?c then _ else _] => destruct c
  end.
  - split.
    + unfold die. destruct (GameStatus_eqb _ PLAYING); reflexivity.
    + apply (onlyDies_die (set_apples _ s)).
  - split; [reflexivity | left; reflexivity].
Qed.

Lemma collectedCount_some_left (l : list Entity.t) :
  (exists a, In a l /\ truthy (Entity.collected a) = false) ->
  collectedCount l <> List.length l.
Proof.
  unfold collectedCount. intros (a & Hin & Ha) E.
  apply filter_length_forallb in E.
  rewrite forallb_forall in E. rewrite (E a Hin) in Ha. discriminate.
Qed.

(** C9, as the code has it.  A gameplay evaluation counts the apples it
    finds collected when it begins.  If it finds every apple collected,
    the flower ends unlocked, and if the status is [PLAYING] and one of
    the four body parts is at less than 35 from the flower, the status
    ends [WON].  If it finds an apple still to collect, it leaves the
    flower as it is and the status as it is or [DEAD] after [PLAYING],
    even when it collects that apple itself.  Once [WON], the status
    stays [WON]: through a further gameplay evaluation, through [win] and
    through the physics step, which returns the state as it is. *)
Theorem flower_unlocks_and_wins_once :
  forall (PHYSICS : Physics) (s : State),
    ((forall a, In a (apples s) -> truthy (Entity.collected a) = true) ->
     Flower.unlocked (flower (checkGameplay s)) = true /\
     (status s = PLAYING ->
      (exists r, In r bikeParts /\
                 hypot (x (get r (bike s)) - Flower.x (flower s))
                       (y (get r (bike s)) - Flower.y (flower s)) < 35) ->
      status (checkGameplay s) = WON)) /\
    ((exists a, In a (apples s) /\ truthy (Entity.collected a) = false) ->
     flower (checkGameplay s) = flower s /\ onlyDies s (checkGameplay s)) /\
    (status s = WON ->
     status (checkGameplay s) = WON /\ win s = s /\
     updatePhysics PHYSICS s = Some s).
Proof.
  intros PHYSICS s. split; [ | split].
  - intros Ha. pose proof (collectedCount_all (apples s) Ha) as Hc. split.
    + apply flower_checkGameplay_unlocked, Hc.
    + intros Hs Hn. apply checkGameplay_wins; [exact Hs | exact Hc | ].
      apply near_exists, Hn.
  - intros Hp. apply checkGameplay_apple_pending, collectedCount_some_left, Hp.
  - intros Hs. split; [ | split].
    + rewrite checkGameplay_not_playing; [exact Hs | rewrite Hs; discriminate].
    + apply win_not_playing. rewrite Hs. discriminate.
    + apply updatePhysics_not_playing. rewrite Hs. discriminate.
Qed.

Lemma goalState_apples :
  forall a, In a (apples goalState) -> truthy (Entity.collected a) = true.
Proof. intros a [H | []]. subst a. reflexivity. Qed.

Lemma goalState_near :
  exists r, In r bikeParts /\
            hypot (x (get r (bike goalState)) - Flower.x (flower goalState))
                  (y (get r (bike goalState)) - Flower.y (flower goalState)) < 35.
Proof.
  exists RW. split; [left; reflexivity | ].
  simpl. rewrite hypot_self. lra.
Qed.

(** [goalState] is won by its gameplay evaluation. *)
Lemma flower_unlocks_and_wins_once_witness :
  (forall a, In a (apples goalState) -> truthy (Entity.collected a) = true) /\
  status goalState = PLAYING /\
  Flower.unlocked (flower (checkGameplay goalState)) = true /\
  status (checkGameplay goalState) = WON.
Proof.
  destruct (flower_unlocks_and_wins_once samplePhysics goalState) as [F _].
  destruct (F goalState_apples) as [U W].
  split; [exact goalState_apples | ]. split; [reflexivity | ].
  split; [exact U | ]. apply W; [reflexivity | exact goalState_near].
Defined.

Lemma lastAppleState_pickup :
  map (collectApple (bike lastAppleState)) (apples lastAppleState)
  = [Entity.mk 1000 0 None (Some true)].
Proof.
  cbn [lastAppleState apples bike map]. unfold collectApple.
  cbn [Entity.collected Entity.x Entity.y Entity.r truthy negb].
  rewrite near_exists; [reflexivity | ].
  exists RW. split; [left; reflexivity | ].
  cbn [sampleBike get rw restPoint x y]. rewrite hypot_self. lra.
Qed.

(** C9, counterexample.  In [lastAppleState] the rear wheel is on the
    last apple and on the flower.  The gameplay evaluation collects the
    apple: after it every apple is collected and a body part is at less
    than 35 from the flower, and yet the flower is locked and the status
    [PLAYING].  The evaluation after it unlocks the flower and wins. *)
Lemma last_apple_pickup_does_not_win :
  status lastAppleState = PLAYING /\
  apples (checkGameplay lastAppleState) = [Entity.mk 1000 0 None (Some true)] /\
  hypot (x (rw (bike (checkGameplay lastAppleState)))
         - Flower.x (flower (checkGameplay lastAppleState)))
        (y (rw (bike (checkGameplay lastAppleState)))
         - Flower.y (flower (checkGameplay lastAppleState))) < 35 /\
  Flower.unlocked (flower (checkGameplay lastAppleState)) = false /\
  status (checkGameplay lastAppleState) = PLAYING /\
  Flower.unlocked (flower (checkGameplay (checkGameplay lastAppleState))) = true /\
  status (checkGameplay (checkGameplay lastAppleState)) = WON.
Proof.
  assert (P : collectedCount (apples lastAppleState)
              <> List.length (apples lastAppleState)).
  { cbn. discriminate. }
  destruct (checkGameplay_apple_pending lastAppleState P) as [F _].
  assert (A : apples (checkGameplay lastAppleState)
              = [Entity.mk 1000 0 None (Some true)]).
  { rewrite apples_checkGameplay. apply lastAppleState_pickup. }
  assert (N : hypot (x (rw (bike (checkGameplay lastAppleState)))
                     - Flower.x (flower (checkGameplay lastAppleState)))
                    (y (rw (bike (checkGameplay lastAppleState)))
                     - Flower.y (flower (checkGameplay lastAppleState))) < 35).
  { rewrite F, bike_checkGameplay.
    cbn [lastAppleState bike flower sampleBike rw restPoint x y Flower.x Flower.y].
    rewrite hypot_self. lra. }
  assert (S : status (checkGameplay lastAppleState) = PLAYING).
  { rewrite checkGameplay_unfold. cbv zeta. rewrite lastAppleState_pickup.
    reflexivity. }
  assert (C : collectedCount (apples (checkGameplay lastAppleState))
              = List.length (apples (checkGameplay lastAppleState))).
  { rewrite A. reflexivity. }
  split; [reflexivity | ]. split; [exact A | ]. split; [exact N | ].
  split; [rewrite F; reflexivity | ]. split; [exact S | ].
  split; [apply flower_checkGameplay_unlocked, C | ].
  apply checkGameplay_wins; [exact S | exact C | ].
  apply near_exists. exists RW. split; [left; reflexivity | exact N].
Qed.

(** C10.  When a gameplay evaluation in status [PLAYING] finds every
    apple collected, a body part at less than 35 from the flower and a
    body part in contact with a killer, the status ends [WON]: the flower
    is looked at first, and the [die] of the killer loop finds a status
    that is no longer [PLAYING]. *)
Theorem win_takes_precedence_over_killer :
  forall (s : State),
    status s = PLAYING ->
    (forall a, In a (apples s) -> truthy (Entity.collected a) = true) ->
    (exists r, In r bikeParts /\
               hypot (x (get r (bike s)) - Flower.x (flower s))
                     (y (get r (bike s)) - Flower.y (flower s)) < 35) ->
    (exists k r, In k (killers s) /\ In r bikeParts /\
                 hypot (x (get r (bike s)) - Entity.x k)
                       (y (get r (bike s)) - Entity.y k)
                   < killerRadius k + radius (get r (bike s))) ->
    status (checkGameplay s) = WON /\
    die (checkGameplay s) = checkGameplay s.
Proof.
  intros s Hs Ha Hn _.
  assert (W : status (checkGameplay s) = WON).
  { apply checkGameplay_wins;
      [exact Hs | apply collectedCount_all, Ha | apply near_exists, Hn]. }
  split; [exact W | ]. apply die_not_playing. rewrite W. discriminate.
Qed.

Lemma goalState_killer :
  exists k r, In k (killers goalState) /\ In r bikeParts /\
              hypot (x (get r (bike goalState)) - Entity.x k)
                    (y (get r (bike goalState)) - Entity.y k)
                < killerRadius k + radius (get r (bike goalState)).
Proof.
  exists (Entity.mk 1000 0 (Some 15) None), RW.
  split; [left; reflexivity | ]. split; [left; reflexivity | ].
  simpl. rewrite hypot_self. unfold killerRadius, js_or. simpl.
  rewrite (Reqb_false 15 0) by lra. lra.
Qed.

(** [goalState] touches the flower and a killer at once, and is won. *)
Lemma win_takes_precedence_over_killer_witness :
  status goalState = PLAYING /\
  status (checkGameplay goalState) = WON.
Proof.
  split; [reflexivity | ].
  apply (win_takes_precedence_over_killer goalState eq_refl goalState_apples
           goalState_near goalState_killer).
Defined.

(** ** Evaluating the step on the sample states *)

Ltac eval_cmp :=
  repeat match goal with
    | |- context [Rmin ?a ?b] =>
        first [rewrite (Rmin_left a b) by lra | rewrite (Rmin_right a b) by lra]
    | |- context [Rmax ?a ?b] =>
        first [rewrite (Rmax_left a b) by lra | rewrite (Rmax_right a b) by lra]
    | |- context [Rltb ?a ?b] =>
        first [rewrite (Rltb_true a b) by lra | rewrite (Rltb_false a b) by lra]
    | |- context [Reqb ?a ?b] =>
        first [rewrite (Reqb_true a b) by lra | rewrite (Reqb_false a b) by lra]
    end.

(** The broad phase rejects a point to the right of the segment. *)
Lemma collide_far (PHYSICS : Physics) (r : PointRef) (a b : Vertex.t) (s : State) :
  Rmax (Vertex.x a) (Vertex.x b) + 50 < x (get r (bike s)) ->
  collide PHYSICS r a b s = Next s.
Proof.
  intros H. unfold collide. rewrite (Rltb_true _ _ H).
  rewrite orb_true_r. reflexivity.
Qed.

Lemma hypot_down (b : R) : b <= 0 -> hypot 0 b = - b.
Proof.
  intros H. unfold hypot.
  replace (0 * 0 + b * b) with ((- b) * (- b)) by ring.
  apply sqrt_square. lra.
Qed.

Lemma sample_far (PHYSICS : Physics) (r : PointRef) (b : Bike)
    (k : InputState) (st : GameStatus) :
  150 < x (get r b) ->
  collide PHYSICS r (Vertex.mk 0 0) (Vertex.mk 100 0) (sampleState b k st)
  = Next (sampleState b k st).
Proof.
  intros H. apply collide_far. cbn [Vertex.x sampleState bike].
  rewrite Rmax_right by lra. lra.
Qed.

Lemma checkCollisions_clear (PHYSICS : Physics) (b : Bike) (k : InputState)
    (st : GameStatus) :
  (forall r, 150 < x (get r b)) ->
  y (head b) <= 2000 ->
  checkCollisions PHYSICS (sampleState b k st) = Some (sampleState b k st).
Proof.
  intros Hx Hy. unfold checkCollisions.
  change (terrain (sampleState b k st)) with [Vertex.mk 0 0; Vertex.mk 100 0].
  cbv beta iota zeta.
  change (y (head (bike (sampleState b k st)))) with (y (head b)).
  change (Vertex.y (Vertex.mk 0 0)) with 0.
  rewrite Rltb_false by lra.
  change (terrain (sampleState b k st)) with [Vertex.mk 0 0; Vertex.mk 100 0].
  cbn [segments combine tl points pointLoop segmentLoop].
  rewrite !sample_far by apply Hx. reflexivity.
Qed.

Lemma iterate_clear (PHYSICS : Physics) (n : nat) (b : Bike) (k : InputState)
    (st : GameStatus) :
  (forall r, 150 < x (get r b)) ->
  y (head b) <= 2000 ->
  iterate PHYSICS n (sampleState b k st) = Some (sampleState b k st).
Proof.
  intros Hx Hy. induction n as [ | n IH]; cbn [iterate]; [reflexivity | ].
  unfold relaxAndCollide.
  change (set_bike (relax (sticks (sampleState b k st)) (bike (sampleState b k st)))
                   (sampleState b k st))
    with (sampleState b k st).
  rewrite checkCollisions_clear by assumption. exact IH.
Qed.

Lemma checkGameplay_clear (b : Bike) (k : InputState) (st : GameStatus) :
  (forall r, 150 < x (get r b)) ->
  checkGameplay (sampleState b k st)
  = set_flower (Flower.mk (-100000) 0 true) (sampleState b k st).
Proof.
  intros Hx. rewrite checkGameplay_unfold.
  cbn [sampleState apples killers map collectedCount filter List.length
       set_apples set_flower flower bike Flower.x Flower.y Nat.eqb existsb].
  assert (N : forall r, near b (-100000) 0 r = false).
  { intros r. unfold near. apply Rltb_false.
    apply hypot_ge; [lra | ]. specialize (Hx r). lra. }
  unfold bikeParts. cbn [existsb]. rewrite !N. reflexivity.
Qed.

(** A step of a sample state whose bike, once the controls applied and
    integrated, is still clear of the terrain and above the fall line:
    nothing else happens to it but the unlocking of the flower. *)
Lemma updatePhysics_clear (PHYSICS : Physics) (b : Bike) (k : InputState) :
  let b' := integrate PHYSICS (controls PHYSICS k b) in
  (forall r, 150 < x (get r b')) ->
  y (head b') <= 2000 ->
  updatePhysics PHYSICS (sampleState b k PLAYING)
  = Some (set_flower (Flower.mk (-100000) 0 true) (sampleState b' k PLAYING)).
Proof.
  intros b' Hx Hy. unfold updatePhysics.
  change (status (sampleState b k PLAYING)) with PLAYING.
  cbn [GameStatus_eqb negb].
  change (set_bike (integrate PHYSICS
                      (controls PHYSICS (keys (sampleState b k PLAYING))
                                (bike (sampleState b k PLAYING))))
                   (sampleState b k PLAYING))
    with (sampleState b' k PLAYING).
  rewrite iterate_clear by assumption.
  rewrite checkGameplay_clear by assumption. reflexivity.
Qed.

(** ** The fall check *)


Lemma status_DEAD_kept (s s' : State) :
  onlyDies s s' -> status s = DEAD -> status s' = DEAD.
Proof. intros [H | [H _]] E; congruence. Qed.

(** C4, as the code has it.  The fall check looks at the head only.  If,
    in a step taken in status [PLAYING], some collision pass receives a
    state whose head is lower than [terrain[0].y + 2000], then the step
    completes and leaves the status [DEAD]. *)
Theorem head_fall_kills :
  forall (PHYSICS : Physics) (s sn : State) (n : nat) (t0 : Vertex.t),
    status s = PLAYING ->
    (n < ITERATIONS PHYSICS)%nat ->
    collisionPassInput PHYSICS n s = Some sn ->
    hd_error (terrain sn) = Some t0 ->
    Vertex.y t0 + 2000 < y (head (bike sn)) ->
    exists s', updatePhysics PHYSICS s = Some s' /\ status s' = DEAD.
Proof.
  intros PHYSICS s sn n t0 Hs Hn Hp Ht Hy.
  unfold collisionPassInput in Hp. unfold updatePhysics.
  rewrite Hs. cbn [GameStatus_eqb negb].
  set (s1 := set_bike (integrate PHYSICS (controls PHYSICS (keys s) (bike s))) s) in *.
  destruct (iterate PHYSICS n s1) as [sk | ] eqn:Ek; [ | discriminate].
  apply Some_eq in Hp.
  assert (Hk : status sk = PLAYING \/ status sk = DEAD).
  { destruct (iterate_keeps PHYSICS n s1 sk Ek) as [_ [K | [_ K]]].
    - left. rewrite K. exact Hs.
    - right. exact K. }
  replace (ITERATIONS PHYSICS) with (n + S (ITERATIONS PHYSICS - S n))%nat by lia.
  rewrite iterate_add, Ek. cbn [iterate].
  assert (Hne : terrain sn <> []).
  { destruct (terrain sn); [discriminate | congruence]. }
  unfold relaxAndCollide at 1. rewrite Hp.
  destruct (checkCollisions_total PHYSICS sn Hne) as [sc Ec]. rewrite Ec.
  assert (Hc : status sc = DEAD).
  { apply (checkCollisions_fall PHYSICS sn sc t0 Ht Hy); [ | exact Ec].
    rewrite <- Hp. exact Hk. }
  assert (Hnc : terrain sc <> []).
  { apply checkCollisions_keeps in Ec. destruct Ec as [(_ & E & _) _].
    rewrite E. exact Hne. }
  destruct (iterate_total PHYSICS (ITERATIONS PHYSICS - S n) sc Hnc) as [sf Ef].
  rewrite Ef. eexists. split; [reflexivity | ].
  assert (Hf : status sf = DEAD).
  { apply iterate_keeps in Ef. destruct Ef as [_ Ef].
    apply (status_DEAD_kept sc sf Ef Hc). }
  rewrite checkGameplay_not_playing; [exact Hf | rewrite Hf; discriminate].
Qed.

(** The head of [fallenBike] is below the line at the first pass: the
    step ends [DEAD]. *)
Lemma head_fall_kills_witness :
  status (sampleState fallenBike noKeys PLAYING) = PLAYING /\
  (0 < ITERATIONS samplePhysics)%nat /\
  exists s',
    updatePhysics samplePhysics (sampleState fallenBike noKeys PLAYING) = Some s' /\
    status s' = DEAD.
Proof.
  split; [reflexivity | ]. split; [cbn; lia | ].
  eapply (head_fall_kills samplePhysics (sampleState fallenBike noKeys PLAYING)
            _ 0 (Vertex.mk 0 0)).
  - reflexivity.
  - cbn. lia.
  - reflexivity.
  - reflexivity.
  - cbn. lra.
Defined.

(** C4, counterexample.  The rear wheel is at [y = 5000], far below
    [terrain[0].y + 2000 = 2000], the head at [y = 0]; no point touches
    the terrain.  After the step the wheel is lower still and the status
    is [PLAYING]. *)
Lemma wheel_fall_does_not_kill :
  status (sampleState (sampleBike false 1000 5000 0) noKeys PLAYING) = PLAYING /\
  hd_error (terrain (sampleState (sampleBike false 1000 5000 0) noKeys PLAYING))
    = Some (Vertex.mk 0 0) /\
  y (rw (bike (sampleState (sampleBike false 1000 5000 0) noKeys PLAYING))) = 5000 /\
  option_map status
    (updatePhysics samplePhysics
       (sampleState (sampleBike false 1000 5000 0) noKeys PLAYING))
    = Some PLAYING /\
  option_map (fun s => Rltb 5000 (y (rw (bike s))))
    (updatePhysics samplePhysics
       (sampleState (sampleBike false 1000 5000 0) noKeys PLAYING))
    = Some true.
Proof.
  split; [reflexivity | ]. split; [reflexivity | ]. split; [reflexivity | ].
  rewrite updatePhysics_clear.
  - split; [reflexivity | ]. cbn [option_map]. f_equal.
    apply Rltb_true. cbn. lra.
  - intros r. destruct r; cbn; lra.
  - cbn. lra.
Qed.

(** ** The drive *)

(** C6, as the code has it.  With [up] held and [down], [left], [right]
    and [space] released, the control impulse and the Verlet integration
    of a step leave a free rear wheel with the horizontal velocity
    [(x - oldx + WHEEL_SPEED) * FRICTION]: for positive constants it is
    positive, not negative, whenever the wheel was not moving backwards;
    this holds at every step at which [up] is held. *)
Theorem up_pushes_rear_wheel :
  forall (PHYSICS : Physics) (k : InputState) (b : Bike),
    up k = true -> down k = false -> left k = false -> right k = false ->
    space k = false ->
    pinned (rw b) = false ->
    let b' := integrate PHYSICS (controls PHYSICS k b) in
    x (rw b') - oldx (rw b')
      = (x (rw b) - oldx (rw b) + WHEEL_SPEED PHYSICS) * FRICTION PHYSICS /\
    (0 < WHEEL_SPEED PHYSICS -> 0 < FRICTION PHYSICS ->
     0 <= x (rw b) - oldx (rw b) ->
     0 < x (rw b') - oldx (rw b')).
Proof.
  intros PHYSICS k b Hu Hd Hl Hr Hsp Hp b'.
  assert (E : x (rw b') - oldx (rw b')
              = (x (rw b) - oldx (rw b) + WHEEL_SPEED PHYSICS) * FRICTION PHYSICS).
  { subst b'. change (rw (integrate PHYSICS (controls PHYSICS k b)))
      with (get RW (integrate PHYSICS (controls PHYSICS k b))).
    rewrite get_integrate. unfold controls. rewrite Hu, Hd, Hl, Hr, Hsp.
    unfold integratePoint. cbn [get upd set rw set_oldx pinned x oldx].
    rewrite Hp. cbn [x oldx]. ring. }
  split; [exact E | ].
  intros Hw Hf Hv. rewrite E. apply Rmult_lt_0_compat; lra.
Qed.

(** The sample bike at rest, [up] held. *)
Lemma up_pushes_rear_wheel_witness :
  pinned (rw (sampleBike false 1000 0 0)) = false /\
  0 < x (rw (integrate samplePhysics
               (controls samplePhysics (mkKeys true false false false false false)
                  (sampleBike false 1000 0 0))))
      - oldx (rw (integrate samplePhysics
                    (controls samplePhysics (mkKeys true false false false false false)
                       (sampleBike false 1000 0 0)))).
Proof.
  split; [reflexivity | ].
  apply (up_pushes_rear_wheel samplePhysics
           (mkKeys true false false false false false)
           (sampleBike false 1000 0 0)
           eq_refl eq_refl eq_refl eq_refl eq_refl eq_refl).
  - cbn. lra.
  - cbn. lra.
  - cbn. lra.
Defined.

(** C6, counterexample.  The bike is at rest and clear of the terrain and
    only [up] is held.  After one physics step the rear wheel's [x -
    oldx] is [0.495]: positive. *)
Lemma up_gives_positive_velocity :
  option_map (fun s => Rltb 0 (x (rw (bike s)) - oldx (rw (bike s))))
    (updatePhysics samplePhysics
       (sampleState (sampleBike false 1000 0 0)
                    (mkKeys true false false false false false) PLAYING))
    = Some true /\
  option_map (fun s => Reqb (x (rw (bike s)) - oldx (rw (bike s))) 0.495)
    (updatePhysics samplePhysics
       (sampleState (sampleBike false 1000 0 0)
                    (mkKeys true false false false false false) PLAYING))
    = Some true.
Proof.
  rewrite updatePhysics_clear.
  - cbn [option_map]. split; f_equal.
    + apply Rltb_true. cbn. lra.
    + apply Reqb_true. cbn. lra.
  - intros r. destruct r; cbn; lra.
  - cbn. lra.
Qed.

(** ** Control impulses on a pinned point *)

(** C7, counterexample.  The rear wheel is pinned at [y = 0] and only
    [left] is held: the control impulse of the step lowers it by
    [BIKE_TORQUE], and after the step it is at [y = 0.25], still
    pinned. *)
Lemma pinned_wheel_moved_by_lean :
  pinned (rw (sampleBike true 1000 0 0)) = true /\
  y (rw (sampleBike true 1000 0 0)) = 0 /\
  option_map (fun s => pinned (rw (bike s)))
    (updatePhysics samplePhysics
       (sampleState (sampleBike true 1000 0 0)
                    (mkKeys false false true false false false) PLAYING))
    = Some true /\
  option_map (fun s => Reqb (y (rw (bike s))) 0.25)
    (updatePhysics samplePhysics
       (sampleState (sampleBike true 1000 0 0)
                    (mkKeys false false true false false false) PLAYING))
    = Some true.
Proof.
  split; [reflexivity | ]. split; [reflexivity | ].
  rewrite updatePhysics_clear.
  - cbn [option_map]. split; [reflexivity | ]. f_equal.
    apply Reqb_true. cbn. lra.
  - intros r. destruct r; cbn; lra.
  - cbn. lra.
Qed.

(** ** Level generation *)

Lemma nondecreasing_snoc (l : list R) (a : R) :
  nondecreasing l -> (forall z, In z l -> z <= a) -> nondecreasing (l ++ [a]).
Proof.
  induction l as [ | b l IH]; intros Hn Hb; [exact I | ].
  destruct l as [ | c l].
  - simpl. split; [apply Hb; left; reflexivity | exact I].
  - destruct Hn as [Hbc Hn]. cbn [app nondecreasing] in *. split; [exact Hbc | ].
    apply IH; [exact Hn | ]. intros z Hz. apply Hb. right. exact Hz.
Qed.

Section LevelFacts.

Variable random : nat -> R.
Variable height : R.

Hypothesis random_range : forall k, 0 <= random k < 1.

Lemma genStep_terrain (i : nat) (g : Gen) :
  genTerrain (genStep random height i g)
  = genTerrain g
      ++ [Vertex.mk (tX (genStep random height i g)) (tY (genStep random height i g))].
Proof.
  unfold genStep. cbv zeta.
  repeat match goal with
         | |- context [if ?c then _ else _] => destruct c
         end; reflexivity.
Qed.

Lemma genStep_tX (i : nat) (g : Gen) :
  tX (genStep random height i g) = tX g + (80 + random (next g) * 100).
Proof.
  unfold genStep. cbv zeta.
  repeat match goal with
         | |- context [if ?c then _ else _] => destruct c
         end; reflexivity.
Qed.

Lemma genStep_tY (i : nat) (g : Gen) :
  tY (genStep random height i g) = height - 200 \/
  exists v, tY (genStep random height i g) = Rmax 200 (Rmin (height + 200) v).
Proof.
  unfold genStep. cbv zeta.
  destruct (Rltb 0.8 (random (next g + 2))) eqn:E.
  - left.
    repeat match goal with
           | |- context [if ?c then _ else _] => destruct c
           end; reflexivity.
  - right. eexists.
    repeat match goal with
           | |- context [if ?c then _ else _] => destruct c
           end; reflexivity.
Qed.

Lemma genStep_tY_not_anchor (i : nat) (g : Gen) :
  height <> -1800 -> tY (genStep random height i g) <> height + 2000.
Proof.
  intros Hh. destruct (genStep_tY i g) as [E | [v E]]; rewrite E.
  - lra.
  - unfold Rmax, Rmin.
    destruct (Rle_dec (height + 200) v); destruct (Rle_dec 200 _); lra.
Qed.

Lemma genInvariant_start : genInvariant height (genStart height).
Proof.
  unfold genInvariant, genStart. cbn [genTerrain tX tY].
  split; [exists []; reflexivity | ].
  split; [exists [Vertex.mk 0 (height + 2000)]; reflexivity | ].
  split; [cbn; lra | ].
  split.
  - intros v [H | [H | []]]; subst v; cbn; lra.
  - intros Hh v [H | []]. subst v. cbn. lra.
Qed.

Lemma genInvariant_step (i : nat) (g : Gen) :
  genInvariant height g -> genInvariant height (genStep random height i g).
Proof.
  intros ([mid Hm] & [l Hl] & Hn & Hb & Hy).
  pose proof (random_range (next g)) as Hr.
  assert (Hx : tX g <= tX (genStep random height i g)).
  { rewrite genStep_tX. lra. }
  unfold genInvariant. rewrite genStep_terrain.
  split; [ | split; [ | split; [ | split]]].
  - rewrite Hm. eexists. reflexivity.
  - eexists. reflexivity.
  - rewrite map_app. apply nondecreasing_snoc; [exact Hn | ].
    intros z Hz. apply in_map_iff in Hz. destruct Hz as (v & Ev & Hv).
    subst z. cbn [Vertex.x]. apply Hb in Hv. lra.
  - intros v Hv. apply in_app_or in Hv. destruct Hv as [Hv | [Hv | []]].
    + apply Hb in Hv. lra.
    + subst v. cbn [Vertex.x]. lra.
  - intros Hh v Hv. rewrite Hm in Hv. cbn [tl app] in Hv.
    change (Vertex.mk 0 (height - 200) :: mid ++ [?a])
      with ((Vertex.mk 0 (height - 200) :: mid) ++ [a]) in Hv.
    apply in_app_or in Hv. destruct Hv as [Hv | [Hv | []]].
    + apply (Hy Hh). rewrite Hm. exact Hv.
    + subst v. cbn [Vertex.y]. apply genStep_tY_not_anchor, Hh.
Qed.

Lemma genInvariant_loop (n i : nat) (g : Gen) :
  genInvariant height g -> genInvariant height (genLoop random height n i g).
Proof.
  revert i g. induction n as [ | n IH]; intros i g H; cbn [genLoop].
  - exact H.
  - apply IH, genInvariant_step, H.
Qed.

End LevelFacts.

Lemma last_two (A : Type) (a b d : A) (l : list A) :
  last (a :: b :: l) d = last (b :: l) d.
Proof. reflexivity. Qed.

(** C8, as the code has it.  With draws in [0, 1) the terrain of a new
    level is: a deep anchor at [y = height + 2000] and at the abscissa 0
    of the start vertex, the start vertex and the generated vertices, and
    a deep anchor at [y = height + 2000], 500 beyond the last generated
    vertex, over which the flower stands.  Its abscissas never decrease,
    and for a height other than -1800, so for every canvas height, no
    vertex between the two anchors is at their depth. *)
Theorem terrain_anchors_and_order :
  forall (PHYSICS : Physics) (GAME_CONFIG : GameConfig) (random : nat -> R)
         (width height : R) (startStatus : GameStatus),
    (forall k, 0 <= random k < 1) ->
    let s := initLevel PHYSICS GAME_CONFIG random width height startStatus in
    exists (mid : list Vertex.t) (lastv : Vertex.t),
      terrain s
      = Vertex.mk 0 (height + 2000)
          :: (Vertex.mk 0 (height - 200) :: mid)
          ++ [Vertex.mk (Vertex.x lastv + 500) (height + 2000)] /\
      last (Vertex.mk 0 (height - 200) :: mid) (Vertex.mk 0 0) = lastv /\
      Vertex.x lastv = Flower.x (flower s) /\
      nondecreasing (map Vertex.x (terrain s)) /\
      (height <> -1800 ->
       forall v, In v (Vertex.mk 0 (height - 200) :: mid) ->
                 Vertex.y v <> height + 2000).
Proof.
  intros PHYSICS GAME_CONFIG random width height startStatus Hr s.
  pose proof (genInvariant_loop random height Hr (TERRAIN_SEGMENTS GAME_CONFIG) 0
                (genStart height) (genInvariant_start height)) as H.
  set (g := genLoop random height (TERRAIN_SEGMENTS GAME_CONFIG) 0 (genStart height)) in *.
  destruct H as ([mid Hm] & [l Hl] & Hn & Hb & Hy).
  exists mid, (Vertex.mk (tX g) (tY g)).
  assert (Et : terrain s = genTerrain g ++ [Vertex.mk (tX g + 500) (height + 2000)])
    by reflexivity.
  split; [ | split; [ | split; [ | split]]].
  - rewrite Et, Hm. reflexivity.
  - rewrite <- (last_two _ (Vertex.mk 0 (height + 2000))), <- Hm, Hl.
    apply last_last.
  - reflexivity.
  - rewrite Et, map_app. apply nondecreasing_snoc; [exact Hn | ].
    intros z Hz. apply in_map_iff in Hz. destruct Hz as (v & Ev & Hv).
    subst z. cbn [Vertex.x]. apply Hb in Hv. lra.
  - intros Hh v Hv. apply (Hy Hh). rewrite Hm. exact Hv.
Qed.

(** The terrain of the level generated from the constant draw 0. *)
Lemma terrain_anchors_and_order_witness :
  (forall k : nat, 0 <= 0 < 1) /\
  nondecreasing (map Vertex.x (terrain lostLevel)).
Proof.
  assert (H : forall k : nat, 0 <= 0 < 1) by (intros k; lra).
  split; [exact H | ].
  destruct (terrain_anchors_and_order samplePhysics sampleConfig (fun _ => 0)
              800 600 DEAD H) as (mid & lastv & _ & _ & _ & K & _).
  exact K.
Defined.

(** C8, counterexample.  In a level of height 600 the start vertex is at
    the abscissa 0 and so is the first deep anchor: it is not 500 to the
    left of the start. *)
Lemma start_anchor_at_start_abscissa :
  nth_error (terrain lostLevel) 1 = Some (Vertex.mk 0 (600 - 200)) /\
  nth_error (terrain lostLevel) 0 = Some (Vertex.mk 0 (600 + 2000)) /\
  0 <> 0 - 500.
Proof.
  destruct (genInvariant_loop (fun _ => 0) 600 (fun _ => conj (Rle_refl 0) Rlt_0_1)
              (TERRAIN_SEGMENTS sampleConfig) 0 (genStart 600)
              (genInvariant_start 600)) as ([mid Hm] & _).
  assert (Et : terrain lostLevel
               = genTerrain (genLoop (fun _ => 0) 600 (TERRAIN_SEGMENTS sampleConfig) 0
                               (genStart 600))
                   ++ [Vertex.mk
                         (tX (genLoop (fun _ => 0) 600 (TERRAIN_SEGMENTS sampleConfig) 0
                                (genStart 600)) + 500)
                         (600 + 2000)])
    by reflexivity.
  rewrite Et, Hm. split; [reflexivity | ]. split; [reflexivity | lra].
Qed.

(** * Further properties of the simulation *)

(** ** Sticks with two free endpoints *)

Lemma hypot_scale (a b m : R) : hypot (a * m) (b * m) = Rabs m * hypot a b.
Proof.
  unfold hypot.
  replace (a * m * (a * m) + b * m * (b * m)) with (Rsqr m * (a * a + b * b))
    by (unfold Rsqr; ring).
  rewrite sqrt_mult; [ | apply Rle_0_sqr | nra].
  rewrite sqrt_Rsqr_abs. reflexivity.
Qed.

Lemma relaxStick_free_points (st : Stick) (b : Bike) :
  let a := get (p1 st) b in
  let c := get (p2 st) b in
  let dx := x c - x a in
  let dy := y c - y a in
  let dist := hypot dx dy in
  let diff := (length st - dist) / dist * stiffness st in
  dist <> 0 -> pinned a = false -> pinned c = false ->
  p1 st <> p2 st /\
  get (p1 st) (relaxStick st b)
    = set_y (y a - dy * diff * 0.5) (set_x (x a - dx * diff * 0.5) a) /\
  get (p2 st) (relaxStick st b)
    = set_y (y c + dy * diff * 0.5) (set_x (x c + dx * diff * 0.5) c).
Proof.
  intros a c dx dy dist diff Hd Ha Hc.
  assert (Hne : p1 st <> p2 st).
  { intros K. apply Hd. subst dist dx dy a c. rewrite K. apply hypot_self. }
  split; [exact Hne | ].
  rewrite (relaxStick_unfold st b Hd).
  fold a c. fold dx dy. fold dist. fold diff. cbv zeta.
  rewrite Ha. rewrite get_upd_other by exact Hne. fold c. rewrite Hc.
  split.
  - rewrite get_upd_other by (intros K; apply Hne; symmetry; exact K).
    rewrite get_upd_same. reflexivity.
  - rewrite get_upd_same. rewrite get_upd_other by exact Hne. reflexivity.
Qed.

(** X1.  One relaxation of a stick with two free endpoints and nonzero
    current length [dist] leaves the endpoints at the distance
    [|dist + (length - dist) * stiffness|]: the length error is scaled by
    [1 - stiffness], and a stick of stiffness 1 and non-negative rest
    length is back at its rest length. *)
Theorem relaxStick_new_length :
  forall (st : Stick) (b : Bike),
    let a := get (p1 st) b in
    let c := get (p2 st) b in
    let dist := hypot (x c - x a) (y c - y a) in
    let a' := get (p1 st) (relaxStick st b) in
    let c' := get (p2 st) (relaxStick st b) in
    dist <> 0 -> pinned a = false -> pinned c = false ->
    hypot (x c' - x a') (y c' - y a')
      = Rabs (dist + (length st - dist) * stiffness st) /\
    (stiffness st = 1 -> 0 <= length st ->
     hypot (x c' - x a') (y c' - y a') = length st).
Proof.
  intros st b a c dist a' c' Hd Ha Hc.
  destruct (relaxStick_free_points st b Hd Ha Hc) as (_ & E1 & E2).
  fold a c in E1, E2. fold dist in E1, E2.
  assert (Hpos : 0 < dist).
  { pose proof (hypot_nonneg (x c - x a) (y c - y a)) as K. fold dist in K. lra. }
  assert (E : hypot (x c' - x a') (y c' - y a')
              = Rabs (dist + (length st - dist) * stiffness st)).
  { subst a' c'. rewrite E1, E2. cbn [x y set_x set_y].
    set (diff := (length st - dist) / dist * stiffness st).
    replace (x c + (x c - x a) * diff * 0.5 - (x a - (x c - x a) * diff * 0.5))
      with ((x c - x a) * (1 + diff)) by lra.
    replace (y c + (y c - y a) * diff * 0.5 - (y a - (y c - y a) * diff * 0.5))
      with ((y c - y a) * (1 + diff)) by lra.
    rewrite hypot_scale. fold dist.
    replace (dist + (length st - dist) * stiffness st) with ((1 + diff) * dist)
      by (subst diff; field; lra).
    rewrite Rabs_mult, (Rabs_pos_eq dist) by lra. reflexivity. }
  split; [exact E | ].
  intros Hk Hl. rewrite E, Hk.
  replace (dist + (length st - dist) * 1) with (length st) by ring.
  apply Rabs_pos_eq, Hl.
Qed.

(** X2.  One relaxation of a stick with two free endpoints keeps the
    midpoint of the endpoints: what one endpoint gains the other
    loses. *)
Theorem relaxStick_keeps_midpoint :
  forall (st : Stick) (b : Bike),
    let a := get (p1 st) b in
    let c := get (p2 st) b in
    let a' := get (p1 st) (relaxStick st b) in
    let c' := get (p2 st) (relaxStick st b) in
    hypot (x c - x a) (y c - y a) <> 0 ->
    pinned a = false -> pinned c = false ->
    x a' + x c' = x a + x c /\ y a' + y c' = y a + y c.
Proof.
  intros st b a c a' c' Hd Ha Hc.
  destruct (relaxStick_free_points st b Hd Ha Hc) as (_ & E1 & E2).
  subst a' c'. rewrite E1, E2. cbn [x y set_x set_y]. fold a c. split; ring.
Qed.

Lemma wheelStick_dist :
  hypot (x (get FW (sampleBike false 1000 0 0)) - x (get RW (sampleBike false 1000 0 0)))
        (y (get FW (sampleBike false 1000 0 0)) - y (get RW (sampleBike false 1000 0 0)))
  = 85.
Proof.
  cbn [get sampleBike rw fw restPoint x y].
  replace (1085 - 1000) with 85 by lra. replace (0 - 0) with 0 by lra.
  apply hypot_axis_r. lra.
Qed.

(** The wheels of the sample bike, 85 apart, are brought to 80. *)
Lemma relaxStick_new_length_witness :
  hypot (x (get FW (sampleBike false 1000 0 0)) - x (get RW (sampleBike false 1000 0 0)))
        (y (get FW (sampleBike false 1000 0 0)) - y (get RW (sampleBike false 1000 0 0)))
    <> 0 /\
  hypot (x (get FW (relaxStick wheelStick (sampleBike false 1000 0 0)))
           - x (get RW (relaxStick wheelStick (sampleBike false 1000 0 0))))
        (y (get FW (relaxStick wheelStick (sampleBike false 1000 0 0)))
           - y (get RW (relaxStick wheelStick (sampleBike false 1000 0 0))))
    = 80.
Proof.
  assert (H : hypot (x (get FW (sampleBike false 1000 0 0))
                       - x (get RW (sampleBike false 1000 0 0)))
                    (y (get FW (sampleBike false 1000 0 0))
                       - y (get RW (sampleBike false 1000 0 0))) <> 0).
  { rewrite wheelStick_dist. lra. }
  split; [exact H | ].
  destruct (relaxStick_new_length wheelStick (sampleBike false 1000 0 0)
              H eq_refl eq_refl) as [_ K].
  apply K; [reflexivity | cbn; lra].
Defined.

(** The midpoint of the wheels of the sample bike stays at 1042.5. *)
Lemma relaxStick_keeps_midpoint_witness :
  hypot (x (get FW (sampleBike false 1000 0 0)) - x (get RW (sampleBike false 1000 0 0)))
        (y (get FW (sampleBike false 1000 0 0)) - y (get RW (sampleBike false 1000 0 0)))
    <> 0 /\
  x (get RW (relaxStick wheelStick (sampleBike false 1000 0 0)))
    + x (get FW (relaxStick wheelStick (sampleBike false 1000 0 0)))
  = 1000 + 1085.
Proof.
  assert (H : hypot (x (get FW (sampleBike false 1000 0 0))
                       - x (get RW (sampleBike false 1000 0 0)))
                    (y (get FW (sampleBike false 1000 0 0))
                       - y (get RW (sampleBike false 1000 0 0))) <> 0).
  { rewrite wheelStick_dist. lra. }
  split; [exact H | ].
  destruct (relaxStick_keeps_midpoint wheelStick (sampleBike false 1000 0 0)
              H eq_refl eq_refl) as [K _].
  exact K.
Defined.

(** ** What relaxation leaves alone *)

Lemma relaxStick_frame (st : Stick) (b : Bike) (r : PointRef) :
  let p := get r b in
  let p' := get r (relaxStick st b) in
  oldx p' = oldx p /\ oldy p' = oldy p /\ mass p' = mass p /\
  radius p' = radius p /\ isWheel p' = isWheel p /\ pinned p' = pinned p /\
  rotation p' = rotation p.
Proof.
  cbv zeta. unfold relaxStick.
  match goal with |- context [Reqb ?d 0] => destruct (Reqb d 0) end;
    [repeat split; reflexivity | ].
  cbv zeta.
  destruct (negb (pinned (get (p1 st) b)));
    match goal with
    | |- context [if negb (pinned (get (p2 st) ?u)) then _ else _] =>
        destruct (negb (pinned (get (p2 st) u)))
    end;
    destruct st as [q1 q2 len k vis w]; cbn [p1 p2];
    destruct q1, q2, r; cbn; repeat split; reflexivity.
Qed.

(** X3.  Relaxing any list of sticks edits positions only: the previous
    position, mass, radius, wheel and pinned flags and rotation of every
    point are as before. *)
Theorem relax_edits_positions_only :
  forall (l : list Stick) (b : Bike) (r : PointRef),
    let p := get r b in
    let p' := get r (relax l b) in
    oldx p' = oldx p /\ oldy p' = oldy p /\ mass p' = mass p /\
    radius p' = radius p /\ isWheel p' = isWheel p /\ pinned p' = pinned p /\
    rotation p' = rotation p.
Proof.
  intros l b r. cbv zeta. unfold relax. revert b.
  induction l as [ | st l IH]; intros b; cbn [fold_left].
  - repeat split; reflexivity.
  - destruct (IH (relaxStick st b)) as (A1 & A2 & A3 & A4 & A5 & A6 & A7).
    destruct (relaxStick_frame st b r) as (B1 & B2 & B3 & B4 & B5 & B6 & B7).
    repeat split; congruence.
Qed.

(** X4.  A stick whose endpoints coincide, because they are at the same
    place or because both ends name the same point, is skipped: the bike
    is returned as it is. *)
Theorem relaxStick_skips_degenerate :
  forall (st : Stick) (b : Bike),
    (p1 st = p2 st \/
     (x (get (p1 st) b) = x (get (p2 st) b) /\
      y (get (p1 st) b) = y (get (p2 st) b))) ->
    relaxStick st b = b.
Proof.
  intros st b H.
  assert (E : x (get (p1 st) b) = x (get (p2 st) b) /\
              y (get (p1 st) b) = y (get (p2 st) b)).
  { destruct H as [H | H]; [rewrite H; split; reflexivity | exact H]. }
  destruct E as [Ex Ey]. unfold relaxStick. rewrite Ex, Ey.
  rewrite hypot_self, (Reqb_true 0 0) by reflexivity. reflexivity.
Qed.

Lemma relaxStick_skips_degenerate_witness :
  p1 (mkStick HEAD HEAD 10 1 true 2) = p2 (mkStick HEAD HEAD 10 1 true 2) /\
  relaxStick (mkStick HEAD HEAD 10 1 true 2) pinnedBike = pinnedBike.
Proof.
  split; [reflexivity | ].
  apply relaxStick_skips_degenerate. left. reflexivity.
Defined.

(** ** A new bike is at rest *)

Lemma set_get (r : PointRef) (b : Bike) : set r (get r b) b = b.
Proof. destruct r, b; reflexivity. Qed.

Lemma upd_id (r : PointRef) (f : Point -> Point) (b : Bike) :
  f (get r b) = get r b -> upd r f b = b.
Proof. intros H. unfold upd. rewrite H. apply set_get. Qed.

Lemma move_back_by_zero (p : Point) (u v : R) :
  u = 0 -> v = 0 -> set_y (y p - v) (set_x (x p - u) p) = p.
Proof.
  intros Hu Hv. subst u v. destruct p as [px py pox poy m rd w pn rot].
  unfold set_y, set_x. cbn. f_equal; ring.
Qed.

Lemma move_on_by_zero (p : Point) (u v : R) :
  u = 0 -> v = 0 -> set_y (y p + v) (set_x (x p + u) p) = p.
Proof.
  intros Hu Hv. subst u v. destruct p as [px py pox poy m rd w pn rot].
  unfold set_y, set_x. cbn. f_equal; ring.
Qed.

(** A stick whose rest length is the current distance of its endpoints
    moves nothing. *)
Lemma relaxStick_at_rest (st : Stick) (b : Bike) :
  length st = hypot (x (get (p2 st) b) - x (get (p1 st) b))
                    (y (get (p2 st) b) - y (get (p1 st) b)) ->
  relaxStick st b = b.
Proof.
  intros H. unfold relaxStick. rewrite <- H.
  destruct (Reqb (length st) 0); [reflexivity | ]. cbv zeta.
  assert (Z : forall v, v * ((length st - length st) / length st * stiffness st) * 0.5 = 0).
  { intros v. unfold Rdiv. ring. }
  assert (E1 : (if negb (pinned (get (p1 st) b))
                then upd (p1 st)
                       (fun p =>
                          set_y (y p - (y (get (p2 st) b) - y (get (p1 st) b))
                                       * ((length st - length st) / length st * stiffness st)
                                       * 0.5)
                                (set_x (x p - (x (get (p2 st) b) - x (get (p1 st) b))
                                             * ((length st - length st) / length st
                                                * stiffness st)
                                             * 0.5) p))
                       b
                else b) = b).
  { destruct (negb (pinned (get (p1 st) b))); [ | reflexivity].
    apply upd_id. apply move_back_by_zero; apply Z. }
  rewrite E1.
  destruct (negb (pinned (get (p2 st) b))); [ | reflexivity].
  apply upd_id. apply move_on_by_zero; apply Z.
Qed.

Lemma relax_buildSticks (PHYSICS : Physics) (b : Bike) :
  relax (buildSticks PHYSICS b) b = b.
Proof.
  unfold relax, buildSticks. cbn [fold_left].
  repeat match goal with
         | |- context [relaxStick ?st b] =>
             rewrite (relaxStick_at_rest st b) by reflexivity
         end.
  reflexivity.
Qed.

(** X5.  The bike of a new level satisfies every stick of the level,
    whose rest lengths are the distances of the points as built: a
    relaxation pass over the sticks returns the bike as it is, and every
    point of the bike is free and at rest. *)
Theorem new_level_bike_at_rest :
  forall (PHYSICS : Physics) (GAME_CONFIG : GameConfig) (random : nat -> R)
         (width height : R) (startStatus : GameStatus),
    let s := initLevel PHYSICS GAME_CONFIG random width height startStatus in
    relax (sticks s) (bike s) = bike s /\
    List.length (sticks s) = 9%nat /\
    forall r, pinned (get r (bike s)) = false /\
              oldx (get r (bike s)) = x (get r (bike s)) /\
              oldy (get r (bike s)) = y (get r (bike s)).
Proof.
  intros PHYSICS GAME_CONFIG random width height startStatus s.
  split; [ | split].
  - apply (relax_buildSticks PHYSICS (buildBike height)).
  - reflexivity.
  - intros r. destruct r; repeat split; reflexivity.
Qed.

(** ** The shape of a generated level *)

Section LevelShape.

Variable random : nat -> R.
Variable height : R.

Hypothesis random_range : forall k, 0 <= random k < 1.

(** What one turn of the terrain loop does to the two entity lists. *)
Lemma genStep_entities (i : nat) (g : Gen) :
  let g' := genStep random height i g in
  (genApples g' = genApples g \/
   exists k,
     genApples g'
     = genApples g
         ++ [Entity.mk (tX g') (tY g' - 120 - random k * 50) None (Some false)]) /\
  (genKillers g' = genKillers g \/
   ((3 < i)%nat /\
    genKillers g'
    = genKillers g ++ [Entity.mk (tX g' + 20) (tY g' - 15) (Some 15) None])).
Proof.
  unfold genStep. cbv zeta.
  destruct (Rltb 0.8 (random (next g + 2)));
    destruct (Rltb 0.5 (random (next g + 3)));
    destruct (Nat.ltb_spec 3 i);
    try match goal with
        | |- context [Rltb 0.7 ?u] => destruct (Rltb 0.7 u)
        end;
    cbn [genApples genKillers tX tY];
    (split;
     [ first [ left; reflexivity
             | right; eexists; reflexivity ]
     | first [ left; reflexivity
             | right; split; [assumption | reflexivity] ] ]).
Qed.

Lemma genLoop_lengths (n i : nat) (g : Gen) :
  let g' := genLoop random height n i g in
  List.length (genTerrain g') = (List.length (genTerrain g) + n)%nat /\
  (List.length (genApples g') <= List.length (genApples g) + n)%nat /\
  (List.length (genKillers g') + (i - 4)
   <= List.length (genKillers g) + (i + n - 4))%nat.
Proof.
  cbv zeta. revert i g. induction n as [ | n IH]; intros i g; cbn [genLoop].
  - repeat split; lia.
  - destruct (IH (S i) (genStep random height i g)) as (A & B & C).
    pose proof (genStep_terrain random height i g) as T.
    destruct (genStep_entities i g) as [P Q]. cbv zeta in P, Q.
    assert (LT : List.length (genTerrain (genStep random height i g))
                 = S (List.length (genTerrain g))).
    { rewrite T, length_app. cbn. lia. }
    assert (LA : (List.length (genApples (genStep random height i g))
                  <= S (List.length (genApples g)))%nat).
    { destruct P as [P | (u & P)]; rewrite P; [lia | ].
      rewrite length_app. cbn. lia. }
    assert (LK : (List.length (genKillers (genStep random height i g))
                  <= List.length (genKillers g)
                     + (if Nat.ltb 3 i then 1 else 0))%nat).
    { destruct Q as [Q | (Hi & Q)]; rewrite Q; [lia | ].
      rewrite length_app. apply Nat.ltb_lt in Hi. rewrite Hi. cbn. lia. }
    destruct (Nat.ltb_spec 3 i); repeat split; lia.
Qed.

Lemma appleAbove_more (t t' : list Vertex.t) (a : Entity.t) :
  (forall v, In v t -> In v t') -> appleAbove t a -> appleAbove t' a.
Proof.
  intros H (A & B & v & Hv & C). repeat split; try assumption.
  exists v. split; [apply H, Hv | exact C].
Qed.

Lemma killerBeside_more (t t' : list Vertex.t) (k : Entity.t) :
  (forall v, In v t -> In v t') -> killerBeside t k -> killerBeside t' k.
Proof.
  intros H (A & v & Hv & C). split; [exact A | ].
  exists v. split; [apply H, Hv | exact C].
Qed.

Lemma genLoop_placement (n i : nat) (g : Gen) :
  Forall (appleAbove (genTerrain g)) (genApples g) ->
  Forall (killerBeside (genTerrain g)) (genKillers g) ->
  let g' := genLoop random height n i g in
  Forall (appleAbove (genTerrain g')) (genApples g') /\
  Forall (killerBeside (genTerrain g')) (genKillers g').
Proof.
  cbv zeta. revert i g. induction n as [ | n IH]; intros i g HA HK; cbn [genLoop].
  - split; assumption.
  - apply IH.
    + pose proof (genStep_terrain random height i g) as T.
      destruct (genStep_entities i g) as [[P | (u & P)] _]; rewrite P, T.
      * eapply Forall_impl; [ | exact HA].
        intros a. apply appleAbove_more. intros v Hv. apply in_or_app. left. exact Hv.
      * apply Forall_app. split.
        -- eapply Forall_impl; [ | exact HA].
           intros a. apply appleAbove_more. intros v Hv. apply in_or_app. left. exact Hv.
        -- constructor; [ | constructor].
           repeat split.
           eexists. split; [apply in_or_app; right; left; reflexivity | ].
           cbn [Entity.x Entity.y Vertex.x Vertex.y]. split; [reflexivity | ].
           pose proof (random_range u). lra.
    + pose proof (genStep_terrain random height i g) as T.
      destruct (genStep_entities i g) as [_ [Q | (Hi & Q)]]; rewrite Q, T.
      * eapply Forall_impl; [ | exact HK].
        intros k. apply killerBeside_more. intros v Hv. apply in_or_app. left. exact Hv.
      * apply Forall_app. split.
        -- eapply Forall_impl; [ | exact HK].
           intros k. apply killerBeside_more. intros v Hv. apply in_or_app. left. exact Hv.
        -- constructor; [ | constructor].
           split; [reflexivity | ].
           eexists. split; [apply in_or_app; right; left; reflexivity | ].
           cbn [Entity.x Entity.y Vertex.x Vertex.y]. split; reflexivity.
Qed.

End LevelShape.

(** X6.  A new level has [TERRAIN_SEGMENTS + 3] terrain vertices, at
    most one apple per generated segment and at most one killer per
    generated segment after the fourth; its flower is locked, its key
    flags are all cleared and its status is the one asked for. *)
Theorem new_level_counts :
  forall (PHYSICS : Physics) (GAME_CONFIG : GameConfig) (random : nat -> R)
         (width height : R) (startStatus : GameStatus),
    let s := initLevel PHYSICS GAME_CONFIG random width height startStatus in
    List.length (terrain s) = (TERRAIN_SEGMENTS GAME_CONFIG + 3)%nat /\
    (List.length (apples s) <= TERRAIN_SEGMENTS GAME_CONFIG)%nat /\
    (List.length (killers s) <= TERRAIN_SEGMENTS GAME_CONFIG - 4)%nat /\
    Flower.unlocked (flower s) = false /\
    keys s = noKeys /\
    status s = startStatus.
Proof.
  intros PHYSICS GAME_CONFIG random width height startStatus s.
  destruct (genLoop_lengths random height (TERRAIN_SEGMENTS GAME_CONFIG) 0
              (genStart height)) as (A & B & C).
  cbn [genStart genTerrain genApples genKillers List.length] in A, B, C.
  split; [ | split; [ | split; [ | repeat split]]].
  - change (terrain s)
      with (genTerrain (genLoop random height (TERRAIN_SEGMENTS GAME_CONFIG) 0
                          (genStart height))
              ++ [Vertex.mk
                    (tX (genLoop random height (TERRAIN_SEGMENTS GAME_CONFIG) 0
                           (genStart height)) + 500)
                    (height + 2000)]).
    rewrite length_app, A. cbn. lia.
  - exact B.
  - change (killers s)
      with (genKillers (genLoop random height (TERRAIN_SEGMENTS GAME_CONFIG) 0
                          (genStart height))).
    lia.
Qed.

(** X7.  With draws in [0, 1), every apple of a new level is uncollected
    and hangs more than 120 and at most 170 above a terrain vertex, and
    every killer has radius 15 and sits 20 to the right of and 15 above a
    terrain vertex. *)
Theorem new_level_entities_placed :
  forall (PHYSICS : Physics) (GAME_CONFIG : GameConfig) (random : nat -> R)
         (width height : R) (startStatus : GameStatus),
    (forall k, 0 <= random k < 1) ->
    let s := initLevel PHYSICS GAME_CONFIG random width height startStatus in
    Forall (appleAbove (terrain s)) (apples s) /\
    Forall (killerBeside (terrain s)) (killers s).
Proof.
  intros PHYSICS GAME_CONFIG random width height startStatus Hr s.
  destruct (genLoop_placement random height Hr (TERRAIN_SEGMENTS GAME_CONFIG) 0
              (genStart height) (Forall_nil _) (Forall_nil _)) as [A K].
  split.
  - eapply Forall_impl; [ | exact A].
    intros a. apply appleAbove_more. intros v Hv. apply in_or_app. left. exact Hv.
  - eapply Forall_impl; [ | exact K].
    intros k. apply killerBeside_more. intros v Hv. apply in_or_app. left. exact Hv.
Qed.

(** When every draw is above 0.7, each turn of the terrain loop adds an
    apple, and each turn after the fourth a killer. *)
Lemma genLoop_high_draws (random : nat -> R) (height : R) (n i : nat) (g : Gen) :
  (forall k, 0.7 < random k) ->
  let g' := genLoop random height n i g in
  List.length (genApples g') = (List.length (genApples g) + n)%nat /\
  (List.length (genKillers g') + (i - 4)
   = List.length (genKillers g) + (i + n - 4))%nat.
Proof.
  intros Hr. cbv zeta. revert i g.
  induction n as [ | n IH]; intros i g; cbn [genLoop].
  - split; lia.
  - destruct (IH (S i) (genStep random height i g)) as [A K].
    assert (LA : List.length (genApples (genStep random height i g))
                 = S (List.length (genApples g))).
    { unfold genStep. cbv zeta.
      rewrite (Rltb_true 0.5 (random (next g + 3)%nat))
        by (pose proof (Hr (next g + 3)%nat); lra).
      destruct (Nat.ltb 3 i);
        repeat match goal with
               | |- context [if ?c then _ else _] => destruct c
               end;
        cbn [genApples]; rewrite length_app; cbn; lia. }
    assert (LK : List.length (genKillers (genStep random height i g))
                 = (List.length (genKillers g) + (if Nat.ltb 3 i then 1 else 0))%nat).
    { unfold genStep. cbv zeta.
      rewrite (Rltb_true 0.5 (random (next g + 3)%nat))
        by (pose proof (Hr (next g + 3)%nat); lra).
      cbv beta iota.
      rewrite (Rltb_true 0.7 (random (next g + 3 + 2)%nat))
        by (pose proof (Hr (next g + 3 + 2)%nat); lra).
      destruct (Nat.ltb 3 i); cbn [genKillers]; [rewrite length_app; cbn | ]; lia. }
    rewrite LA in A. rewrite LK in K.
    destruct (Nat.ltb_spec 3 i); split; lia.
Qed.

Lemma busyLevel_counts :
  List.length (apples busyLevel) = 50%nat /\
  List.length (killers busyLevel) = 46%nat.
Proof.
  destruct (genLoop_high_draws (fun _ => 0.9) 600 (TERRAIN_SEGMENTS sampleConfig) 0
              (genStart 600)) as [A K].
  { intros k. lra. }
  split; [exact A | ].
  change (0 - 4)%nat with 0%nat in K. rewrite Nat.add_0_r in K. exact K.
Qed.

(** [busyLevel], generated from the constant draw 0.9, has 50 apples and
    46 killers, all placed as stated. *)
Lemma new_level_entities_placed_witness :
  (forall k : nat, 0 <= 0.9 < 1) /\
  List.length (apples busyLevel) = 50%nat /\
  List.length (killers busyLevel) = 46%nat /\
  Forall (appleAbove (terrain busyLevel)) (apples busyLevel) /\
  Forall (killerBeside (terrain busyLevel)) (killers busyLevel).
Proof.
  assert (H : forall k : nat, 0 <= 0.9 < 1) by (intros k; lra).
  split; [exact H | ].
  split; [exact (proj1 busyLevel_counts) | ].
  split; [exact (proj2 busyLevel_counts) | ].
  exact (new_level_entities_placed samplePhysics sampleConfig (fun _ => 0.9)
           800 600 PLAYING H).
Defined.

(** ** Generated terrain has no degenerate segment *)

Lemma increasing_snoc (l : list R) (a : R) :
  increasing l -> (forall z, In z l -> z < a) -> increasing (l ++ [a]).
Proof.
  induction l as [ | b l IH]; intros Hn Hb; [exact I | ].
  destruct l as [ | c l].
  - simpl. split; [apply Hb; left; reflexivity | exact I].
  - destruct Hn as [Hbc Hn]. cbn [app increasing] in *. split; [exact Hbc | ].
    apply IH; [exact Hn | ]. intros z Hz. apply Hb. right. exact Hz.
Qed.

Lemma increasing_segments (l : list Vertex.t) :
  increasing (map Vertex.x l) ->
  forall a b, In (a, b) (segments l) -> Vertex.x a < Vertex.x b.
Proof.
  unfold segments. induction l as [ | v l IH]; intros H a b Hab; [contradiction | ].
  destruct l as [ | w l]; [contradiction | ].
  cbn [map increasing] in H. destruct H as [Hvw H].
  cbn [tl combine] in Hab. destruct Hab as [E | Hab].
  - injection E as E1 E2. subst a b. exact Hvw.
  - apply IH; [exact H | exact Hab].
Qed.

Section TerrainOrder.

Variable random : nat -> R.
Variable height : R.

Hypothesis random_range : forall k, 0 <= random k < 1.

Lemma genLoop_increasing (n i : nat) (g : Gen) (rest : list Vertex.t) :
  genTerrain g = Vertex.mk 0 (height + 2000) :: rest ->
  increasing (map Vertex.x rest) ->
  (forall v, In v rest -> Vertex.x v <= tX g) ->
  exists rest',
    genTerrain (genLoop random height n i g)
    = Vertex.mk 0 (height + 2000) :: rest' /\
    increasing (map Vertex.x rest') /\
    (forall v, In v rest' -> Vertex.x v <= tX (genLoop random height n i g)) /\
    (exists more, rest' = rest ++ more).
Proof.
  revert i g rest. induction n as [ | n IH]; intros i g rest Ht Hi Hb; cbn [genLoop].
  - exists rest. repeat split; try assumption. exists []. symmetry. apply app_nil_r.
  - pose proof (random_range (next g)) as Hr.
    pose proof (genStep_tX random height i g) as Hx.
    destruct (IH (S i) (genStep random height i g)
                 (rest ++ [Vertex.mk (tX (genStep random height i g))
                                     (tY (genStep random height i g))]))
      as (rest' & A & B & C & more & D).
    + rewrite genStep_terrain, Ht. reflexivity.
    + rewrite map_app. apply increasing_snoc; [exact Hi | ].
      intros z Hz. apply in_map_iff in Hz. destruct Hz as (v & Ev & Hv).
      subst z. cbn [Vertex.x]. apply Hb in Hv. lra.
    + intros v Hv. apply in_app_or in Hv. destruct Hv as [Hv | [Hv | []]].
      * apply Hb in Hv. lra.
      * subst v. cbn [Vertex.x]. lra.
    + exists rest'. repeat split; try assumption.
      eexists. rewrite D, <- app_assoc. reflexivity.
Qed.

End TerrainOrder.

(** X8.  With draws in [0, 1), from the start vertex on the abscissas of
    the terrain of a new level increase strictly, and no terrain segment
    has length zero: the segment below the start vertex is vertical and
    every other one advances in [x].  The guard of the collision test
    against a degenerate segment never fires on a generated level. *)
Theorem new_level_segments_proper :
  forall (PHYSICS : Physics) (GAME_CONFIG : GameConfig) (random : nat -> R)
         (width height : R) (startStatus : GameStatus),
    (forall k, 0 <= random k < 1) ->
    let s := initLevel PHYSICS GAME_CONFIG random width height startStatus in
    increasing (map Vertex.x (tl (terrain s))) /\
    forall a b, In (a, b) (segments (terrain s)) ->
      Vertex.x a <= Vertex.x b /\
      Reqb ((Vertex.x b - Vertex.x a) * (Vertex.x b - Vertex.x a)
            + (Vertex.y b - Vertex.y a) * (Vertex.y b - Vertex.y a)) 0 = false.
Proof.
  intros PHYSICS GAME_CONFIG random width height startStatus Hr s.
  set (g := genLoop random height (TERRAIN_SEGMENTS GAME_CONFIG) 0 (genStart height)).
  destruct (genLoop_increasing random height Hr (TERRAIN_SEGMENTS GAME_CONFIG) 0
              (genStart height) [Vertex.mk 0 (height - 200)])
    as (rest & A & B & C & more & D).
  { reflexivity. }
  { exact I. }
  { intros v [Hv | []]. subst v. cbn. lra. }
  fold g in A, C.
  assert (Et : terrain s
               = Vertex.mk 0 (height + 2000)
                   :: (rest ++ [Vertex.mk (tX g + 500) (height + 2000)])).
  { change (terrain s)
      with (genTerrain g ++ [Vertex.mk (tX g + 500) (height + 2000)]).
    rewrite A. reflexivity. }
  assert (Hi : increasing (map Vertex.x (rest ++ [Vertex.mk (tX g + 500) (height + 2000)]))).
  { rewrite map_app. apply increasing_snoc; [exact B | ].
    intros z Hz. apply in_map_iff in Hz. destruct Hz as (v & Ev & Hv).
    subst z. cbn [Vertex.x]. apply C in Hv. lra. }
  rewrite Et. cbn [tl]. split; [exact Hi | ].
  intros a b Hab. rewrite D in Hab, Hi.
  cbn [app segments tl combine] in Hab.
  destruct Hab as [E | Hab].
  - injection E as E1 E2. subst a b. cbn [Vertex.x Vertex.y].
    split; [lra | ]. apply Reqb_false. nra.
  - assert (K : Vertex.x a < Vertex.x b).
    { apply (increasing_segments
               ((Vertex.mk 0 (height - 200) :: more)
                  ++ [Vertex.mk (tX g + 500) (height + 2000)])).
      - exact Hi.
      - exact Hab. }
    split; [lra | ]. apply Reqb_false.
    assert (0 < (Vertex.x b - Vertex.x a) * (Vertex.x b - Vertex.x a))
      by (apply Rmult_lt_0_compat; lra).
    pose proof (Rle_0_sqr (Vertex.y b - Vertex.y a)) as Hsq. unfold Rsqr in Hsq.
    lra.
Qed.

Lemma new_level_segments_proper_witness :
  (forall k : nat, 0 <= 0 < 1) /\
  increasing (map Vertex.x (tl (terrain lostLevel))).
Proof.
  assert (H : forall k : nat, 0 <= 0 < 1) by (intros k; lra).
  split; [exact H | ].
  destruct (new_level_segments_proper samplePhysics sampleConfig (fun _ => 0)
              800 600 DEAD H) as [K _].
  exact K.
Defined.

(** ** Contacts *)

Lemma collide_no_touch (PHYSICS : Physics) (r : PointRef) (a b : Vertex.t)
    (s : State) :
  touches a b (get r (bike s)) = false -> collide PHYSICS r a b s = Next s.
Proof.
  unfold touches, contactDist, closestX, closestY, contactT, collide. cbv zeta.
  destruct (Rltb (x (get r (bike s))) (Rmin (Vertex.x a) (Vertex.x b) - 50)
            || Rltb (Rmax (Vertex.x a) (Vertex.x b) + 50) (x (get r (bike s))));
    [reflexivity | ].
  destruct (Reqb _ 0); [reflexivity | ].
  cbn [negb andb]. intros H. rewrite H. reflexivity.
Qed.

Lemma collide_fatal (PHYSICS : Physics) (r : PointRef) (a b : Vertex.t)
    (s : State) :
  fatal r a b (get r (bike s)) = true -> collide PHYSICS r a b s = Return (die s).
Proof.
  unfold fatal, touches, contactDist, closestX, closestY, contactT, collide.
  cbv zeta.
  destruct (Rltb (x (get r (bike s))) (Rmin (Vertex.x a) (Vertex.x b) - 50)
            || Rltb (Rmax (Vertex.x a) (Vertex.x b) + 50) (x (get r (bike s))));
    [discriminate | ].
  destruct (Reqb _ 0); [discriminate | ].
  cbn [negb andb]. intros H.
  apply andb_prop in H. destruct H as [H H3].
  apply andb_prop in H. destruct H as [H1 H2].
  rewrite H1, H2, H3. reflexivity.
Qed.

Lemma collide_push (PHYSICS : Physics) (r : PointRef) (a b : Vertex.t)
    (s : State) :
  touches a b (get r (bike s)) = true ->
  fatal r a b (get r (bike s)) = false ->
  exists p',
    collide PHYSICS r a b s = Next (set_bike (set r p' (bike s)) s) /\
    let p := get r (bike s) in
    let dx := x p - closestX a b p in
    let dy := y p - closestY a b p in
    let dist := contactDist a b p in
    let nx := js_or (dx / dist) 0 in
    let ny := js_or (dy / dist) (-1) in
    let dot := (x p' - oldx p) * - ny + (y p' - oldy p) * nx in
    x p' = x p + nx * (radius p - dist) /\
    y p' = y p + ny * (radius p - dist) /\
    oldx p' = oldx p + - ny * dot * (1 - GROUND_FRICTION PHYSICS) /\
    oldy p' = oldy p + nx * dot * (1 - GROUND_FRICTION PHYSICS) /\
    sameBody p p' /\
    (isWheel p = false -> rotation p' = rotation p).
Proof.
  unfold fatal. intros Ht. rewrite Ht. cbn [andb]. revert Ht.
  unfold touches, contactDist, closestX, closestY, contactT, collide.
  cbv zeta.
  destruct (Rltb (x (get r (bike s))) (Rmin (Vertex.x a) (Vertex.x b) - 50)
            || Rltb (Rmax (Vertex.x a) (Vertex.x b) + 50) (x (get r (bike s))));
    [discriminate | ].
  destruct (Reqb _ 0); [discriminate | ].
  cbn [negb andb]. intros H1 H2. rewrite H1, H2.
  eexists. split; [reflexivity | ].
  cbn [x y oldx oldy mass radius isWheel pinned rotation].
  unfold sameBody. cbn [x y oldx oldy mass radius isWheel pinned rotation].
  repeat split; try reflexivity.
  intros Hw. rewrite Hw. reflexivity.
Qed.

(** X9.  The test of a point against a segment ends the collision pass
    exactly when the contact is fatal, which only a contact of the head
    can be, and then nothing but the status is written: the pass returns
    [die s].  Every other test lets the pass go on. *)
Theorem collide_returns_iff_fatal :
  forall (PHYSICS : Physics) (r : PointRef) (a b : Vertex.t) (s s' : State),
    (collide PHYSICS r a b s = Return s' <->
     fatal r a b (get r (bike s)) = true /\ s' = die s) /\
    (fatal r a b (get r (bike s)) = true ->
     r = HEAD /\
     contactDist a b (get r (bike s)) < radius (get r (bike s)) * 0.8).
Proof.
  intros PHYSICS r a b s s'. split.
  - split.
    + intros H.
      destruct (touches a b (get r (bike s))) eqn:Ht.
      * destruct (fatal r a b (get r (bike s))) eqn:Hf.
        -- rewrite (collide_fatal PHYSICS r a b s Hf) in H.
           injection H as H. split; [reflexivity | symmetry; exact H].
        -- destruct (collide_push PHYSICS r a b s Ht Hf) as (p' & E & _).
           rewrite E in H. discriminate.
      * rewrite (collide_no_touch PHYSICS r a b s Ht) in H. discriminate.
    + intros [Hf E]. subst s'. apply collide_fatal, Hf.
  - unfold fatal. intros H.
    apply andb_prop in H. destruct H as [H H3].
    apply andb_prop in H. destruct H as [_ H2].
    split; [apply PointRef_eqb_eq, H2 | apply Rltb_lt, H3].
Qed.

Lemma contact_normal (dx dy : R) :
  dy <> 0 ->
  let dist := hypot dx dy in
  0 < dist /\
  js_or (dx / dist) 0 = dx / dist /\
  js_or (dy / dist) (-1) = dy / dist /\
  (dx / dist) * (dx / dist) + (dy / dist) * (dy / dist) = 1.
Proof.
  intros Hdy dist.
  assert (Hpos : 0 < dist).
  { pose proof (hypot_nonneg dx dy) as K. fold dist in K.
    destruct (Req_dec_T dist 0) as [E | E]; [ | lra].
    apply hypot_zero in E. destruct E as [_ E]. contradiction. }
  assert (Hsq : dist * dist = dx * dx + dy * dy).
  { subst dist. unfold hypot. apply sqrt_sqrt.
    pose proof (Rle_0_sqr dx) as A. pose proof (Rle_0_sqr dy) as B.
    unfold Rsqr in A, B. lra. }
  split; [exact Hpos | ]. split; [ | split].
  - unfold js_or, Reqb. destruct (Req_dec_T (dx / dist) 0) as [E | E];
      [symmetry; exact E | reflexivity].
  - unfold js_or. rewrite Reqb_false; [reflexivity | ].
    intros E. apply Hdy.
    replace dy with (dy / dist * dist) by (field; lra). rewrite E. ring.
  - replace (dx / dist * (dx / dist) + dy / dist * (dy / dist))
      with ((dx * dx + dy * dy) / (dist * dist)) by (field; lra).
    rewrite <- Hsq. field. lra.
Qed.

(** X10.  A contact that is not fatal and whose closest point is not
    level with the centre ([dy <> 0]) pushes the point, pinned or not,
    out along the line through the closest point, to exactly its radius
    from it. *)
Theorem collide_pushes_to_radius :
  forall (PHYSICS : Physics) (r : PointRef) (a b : Vertex.t) (s : State),
    let p := get r (bike s) in
    let p' := get r (bike (flowState (collide PHYSICS r a b s))) in
    touches a b p = true ->
    fatal r a b p = false ->
    y p - closestY a b p <> 0 ->
    hypot (x p' - closestX a b p) (y p' - closestY a b p) = radius p.
Proof.
  intros PHYSICS r a b s p p' Ht Hf Hdy.
  destruct (collide_push PHYSICS r a b s Ht Hf) as (q & E & K).
  cbv zeta in K. destruct K as (Kx & Ky & _).
  subst p'. rewrite E. cbn [flowState bike set_bike]. rewrite get_set_same.
  fold p in Kx, Ky.
  destruct (contact_normal (x p - closestX a b p) (y p - closestY a b p) Hdy)
    as (Hpos & Nx & Ny & _).
  unfold contactDist in Kx, Ky. rewrite Nx in Kx. rewrite Ny in Ky.
  set (dx := x p - closestX a b p) in *.
  set (dy := y p - closestY a b p) in *.
  set (dist := hypot dx dy) in *.
  assert (Hr : dist < radius p).
  { unfold touches in Ht. apply andb_prop in Ht. destruct Ht as [_ Ht].
    apply Rltb_lt in Ht. exact Ht. }
  replace (x q - closestX a b p) with (dx * (radius p / dist))
    by (rewrite Kx; subst dx; field; lra).
  replace (y q - closestY a b p) with (dy * (radius p / dist))
    by (rewrite Ky; subst dy; field; lra).
  rewrite hypot_scale. fold dist.
  rewrite Rabs_pos_eq.
  - field. lra.
  - apply Rlt_le, Rdiv_lt_0_compat; lra.
Qed.


(** X12.  When the closest point is level with the centre of the point
    ([dy = 0], which includes a centre lying on the segment), the normal
    falls back to the vertical component -1: a contact that is not fatal
    lifts the point by the whole overlap, and a centre on the segment is
    moved straight up by the radius. *)
Theorem collide_level_contact_lifts :
  forall (PHYSICS : Physics) (r : PointRef) (a b : Vertex.t) (s : State),
    let p := get r (bike s) in
    let p' := get r (bike (flowState (collide PHYSICS r a b s))) in
    touches a b p = true ->
    fatal r a b p = false ->
    y p - closestY a b p = 0 ->
    y p' = y p - (radius p - contactDist a b p) /\
    (x p - closestX a b p = 0 -> x p' = x p /\ y p' = y p - radius p).
Proof.
  intros PHYSICS r a b s p p' Ht Hf Hdy.
  destruct (collide_push PHYSICS r a b s Ht Hf) as (q & E & K).
  cbv zeta in K. destruct K as (Kx & Ky & _).
  subst p'. rewrite E. cbn [flowState bike set_bike]. rewrite get_set_same.
  fold p in Kx, Ky. rewrite Hdy in Ky.
  assert (Ny : js_or (0 / contactDist a b p) (-1) = -1).
  { unfold js_or. rewrite Reqb_true; [reflexivity | unfold Rdiv; ring]. }
  rewrite Ny in Ky.
  split; [rewrite Ky; ring | ].
  intros Hdx. rewrite Hdx in Kx.
  assert (Nx : js_or (0 / contactDist a b p) 0 = 0).
  { unfold js_or. destruct (Reqb _ 0); [reflexivity | unfold Rdiv; ring]. }
  rewrite Nx in Kx.
  assert (Hz : contactDist a b p = 0).
  { unfold contactDist. rewrite Hdx, Hdy. unfold hypot.
    replace (0 * 0 + 0 * 0) with 0 by ring. apply sqrt_0. }
  rewrite Kx, Ky, Hz. split; ring.
Qed.

(** The contact of a wheel at [(50, py)] with the sample segment. *)
Lemma sample_contact (py : R) :
  let p := restPoint 50 py 23 true false in
  closestX (Vertex.mk 0 0) (Vertex.mk 100 0) p = 50 /\
  closestY (Vertex.mk 0 0) (Vertex.mk 100 0) p = 0.
Proof.
  cbv zeta.
  assert (T : contactT (Vertex.mk 0 0) (Vertex.mk 100 0) (restPoint 50 py 23 true false)
              = 0.5).
  { unfold contactT. cbn [restPoint x y Vertex.x Vertex.y].
    replace (((50 - 0) * (100 - 0) + (py - 0) * (0 - 0)) /
             ((100 - 0) * (100 - 0) + (0 - 0) * (0 - 0))) with 0.5 by lra.
    rewrite Rmin_right by lra. rewrite Rmax_right by lra. reflexivity. }
  unfold closestX, closestY. rewrite T. cbn [Vertex.x Vertex.y]. split; lra.
Qed.

Lemma sample_touches (py : R) :
  -23 < py <= 0 ->
  let p := restPoint 50 py 23 true false in
  contactDist (Vertex.mk 0 0) (Vertex.mk 100 0) p = - py /\
  touches (Vertex.mk 0 0) (Vertex.mk 100 0) p = true /\
  fatal RW (Vertex.mk 0 0) (Vertex.mk 100 0) p = false.
Proof.
  intros Hpy p. destruct (sample_contact py) as [Cx Cy]. fold p in Cx, Cy.
  assert (D : contactDist (Vertex.mk 0 0) (Vertex.mk 100 0) p = - py).
  { unfold contactDist. rewrite Cx, Cy. subst p. cbn [restPoint x y].
    replace (50 - 50) with 0 by lra. replace (py - 0) with py by lra.
    apply hypot_down. lra. }
  assert (T : touches (Vertex.mk 0 0) (Vertex.mk 100 0) p = true).
  { unfold touches. rewrite D. subst p. cbn [restPoint x y radius Vertex.x Vertex.y].
    eval_cmp. reflexivity. }
  split; [exact D | ]. split; [exact T | ].
  unfold fatal. rewrite T. reflexivity.
Qed.

(** The overlapping wheel of [fallenBike] ends 23 from the segment. *)
Lemma collide_pushes_to_radius_witness :
  touches (Vertex.mk 0 0) (Vertex.mk 100 0)
          (get RW (bike (sampleState fallenBike noKeys DEAD))) = true /\
  hypot
    (x (get RW (bike (flowState
                        (collide samplePhysics RW (Vertex.mk 0 0) (Vertex.mk 100 0)
                                 (sampleState fallenBike noKeys DEAD)))))
     - 50)
    (y (get RW (bike (flowState
                        (collide samplePhysics RW (Vertex.mk 0 0) (Vertex.mk 100 0)
                                 (sampleState fallenBike noKeys DEAD)))))
     - 0)
  = 23.
Proof.
  assert (R10 : -23 < -10 <= 0) by lra.
  destruct (sample_touches (-10) R10) as (D & T & F).
  destruct (sample_contact (-10)) as [Cx Cy].
  split; [exact T | ].
  assert (Hy : y (get RW (bike (sampleState fallenBike noKeys DEAD)))
               - closestY (Vertex.mk 0 0) (Vertex.mk 100 0)
                   (get RW (bike (sampleState fallenBike noKeys DEAD)))
               <> 0).
  { change (get RW (bike (sampleState fallenBike noKeys DEAD)))
      with (restPoint 50 (-10) 23 true false).
    rewrite Cy. cbn [restPoint y]. lra. }
  pose proof (collide_pushes_to_radius samplePhysics RW (Vertex.mk 0 0)
                (Vertex.mk 100 0) (sampleState fallenBike noKeys DEAD) T F Hy) as K.
  cbv zeta in K.
  change (get RW (bike (sampleState fallenBike noKeys DEAD)))
    with (restPoint 50 (-10) 23 true false) in K.
  rewrite Cx, Cy in K. exact K.
Defined.


(** A wheel whose centre lies on the segment is lifted by its radius. *)
Lemma collide_level_contact_lifts_witness :
  touches (Vertex.mk 0 0) (Vertex.mk 100 0)
          (get RW (bike (sampleState (sampleBike false 50 0 0) noKeys PLAYING))) = true /\
  y (get RW (bike (flowState
                     (collide samplePhysics RW (Vertex.mk 0 0) (Vertex.mk 100 0)
                              (sampleState (sampleBike false 50 0 0) noKeys PLAYING)))))
  = 0 - 23.
Proof.
  assert (R0 : -23 < 0 <= 0) by lra.
  destruct (sample_touches 0 R0) as (D & T & F).
  destruct (sample_contact 0) as [Cx Cy].
  split; [exact T | ].
  assert (Hy : y (get RW (bike (sampleState (sampleBike false 50 0 0) noKeys PLAYING)))
               - closestY (Vertex.mk 0 0) (Vertex.mk 100 0)
                   (get RW (bike (sampleState (sampleBike false 50 0 0) noKeys PLAYING)))
               = 0).
  { change (get RW (bike (sampleState (sampleBike false 50 0 0) noKeys PLAYING)))
      with (restPoint 50 0 23 true false).
    rewrite Cy. cbn [restPoint y]. lra. }
  assert (Hx : x (get RW (bike (sampleState (sampleBike false 50 0 0) noKeys PLAYING)))
               - closestX (Vertex.mk 0 0) (Vertex.mk 100 0)
                   (get RW (bike (sampleState (sampleBike false 50 0 0) noKeys PLAYING)))
               = 0).
  { change (get RW (bike (sampleState (sampleBike false 50 0 0) noKeys PLAYING)))
      with (restPoint 50 0 23 true false).
    rewrite Cx. cbn [restPoint x]. lra. }
  destruct (collide_level_contact_lifts samplePhysics RW (Vertex.mk 0 0) (Vertex.mk 100 0)
              (sampleState (sampleBike false 50 0 0) noKeys PLAYING) T F Hy)
    as [_ K].
  destruct (K Hx) as [_ K2]. exact K2.
Defined.

(** ** Gameplay evaluation: pickups and outcome *)

Lemma collectApple_pickedUp (b : Bike) (a : Entity.t) :
  pickedUp b a (collectApple b a).
Proof.
  unfold pickedUp, collectApple.
  destruct (truthy (Entity.collected a)) eqn:E; cbn [negb orb].
  - repeat split; try reflexivity. exact E.
  - destruct (existsb (near b (Entity.x a) (Entity.y a)) bikeParts);
      repeat split; try reflexivity. exact E.
Qed.

(** X13.  A gameplay evaluation keeps the apples in number, order, place
    and radius, and an apple is collected after it exactly when it was
    collected before or one of the rear wheel, front wheel, body and head
    is at less than 35 from it; the handle collects nothing. *)
Theorem checkGameplay_pickups :
  forall (s : State),
    Forall2 (pickedUp (bike s)) (apples s) (apples (checkGameplay s)) /\
    ~ In HANDLE bikeParts.
Proof.
  intros s. split.
  - rewrite apples_checkGameplay.
    induction (apples s) as [ | a l IH]; cbn [map]; constructor.
    + apply collectApple_pickedUp.
    + exact IH.
  - intros [H | [H | [H | [H | []]]]]; discriminate.
Qed.

(** X14.  A gameplay evaluation in status [PLAYING] ends [WON] if every
    apple was found collected and a body part touches the flower;
    otherwise [DEAD] if a body part touches a killer; otherwise
    [PLAYING]. *)
Theorem checkGameplay_outcome :
  forall (s : State),
    status s = PLAYING ->
    status (checkGameplay s)
    = if winsNow s then WON else if killedNow s then DEAD else PLAYING.
Proof.
  intros s Hs. rewrite checkGameplay_unfold. cbv zeta.
  unfold winsNow, killedNow, set_flower, set_apples.
  cbn [sticks terrain apples killers flower bike keys status camera Flower.x Flower.y].
  rewrite length_map, Hs.
  destruct (Nat.eqb (collectedCount (apples s)) (List.length (apples s)));
    cbn [andb].
  - destruct (existsb (near (bike s) (Flower.x (flower s)) (Flower.y (flower s)))
                      bikeParts).
    + rewrite bike_win, killers_win. cbn [bike killers].
      destruct (existsb _ (killers s)); reflexivity.
    + cbn [bike killers]. destruct (existsb _ (killers s)); reflexivity.
  - cbn [bike killers]. destruct (existsb _ (killers s)); reflexivity.
Qed.

(** [goalState] touches the flower and a killer: the outcome is [WON]. *)
Lemma checkGameplay_outcome_witness :
  status goalState = PLAYING /\
  status (checkGameplay goalState)
  = if winsNow goalState then WON else if killedNow goalState then DEAD else PLAYING.
Proof.
  split; [reflexivity | ].
  apply (checkGameplay_outcome goalState). reflexivity.
Defined.

(** X15.  The contact radius of a killer is never zero: a killer without
    radius, or with radius 0, counts with radius 15, any other with its
    own. *)
Theorem killerRadius_never_zero :
  forall (k : Entity.t),
    killerRadius k <> 0 /\
    (Entity.r k = None \/ Entity.r k = Some 0 -> killerRadius k = 15) /\
    (forall v, Entity.r k = Some v -> v <> 0 -> killerRadius k = v).
Proof.
  intros k. unfold killerRadius, js_or.
  destruct (Entity.r k) as [v | ].
  - unfold Reqb. destruct (Req_dec_T v 0) as [E | E].
    + split; [lra | ]. split; [reflexivity | ].
      intros w Hw Hn. injection Hw as Hw. subst w. contradiction.
    + split; [exact E | ]. split.
      * intros [H | H]; [discriminate | ]. injection H as H. contradiction.
      * intros w Hw _. injection Hw as Hw. exact Hw.
  - split; [lra | ]. split; [reflexivity | ]. intros w Hw. discriminate.
Qed.

(** ** What a physics step keeps *)

Lemma sameBody_refl (p : Point) : sameBody p p.
Proof. unfold sameBody. repeat split; reflexivity. Qed.

Lemma sameBody_trans (p q u : Point) : sameBody p q -> sameBody q u -> sameBody p u.
Proof.
  unfold sameBody. intros (A1 & A2 & A3 & A4) (B1 & B2 & B3 & B4).
  repeat split; congruence.
Qed.

Lemma controls_sameBody (PHYSICS : Physics) (k : InputState) (b : Bike)
    (r : PointRef) :
  sameBody (get r b) (get r (controls PHYSICS k b)).
Proof.
  unfold controls, sameBody.
  destruct (up k), (down k), (left k), (right k), (space k), r;
    repeat split; reflexivity.
Qed.

Lemma integrate_sameBody (PHYSICS : Physics) (b : Bike) (r : PointRef) :
  sameBody (get r b) (get r (integrate PHYSICS b)).
Proof.
  rewrite get_integrate. unfold integratePoint, sameBody.
  destruct (pinned (get r b)) eqn:E; cbn; repeat split; try reflexivity.
  exact E.
Qed.

Lemma relax_sameBody (l : list Stick) (b : Bike) (r : PointRef) :
  sameBody (get r b) (get r (relax l b)).
Proof.
  destruct (relax_edits_positions_only l b r) as (_ & _ & A & B & C & D & _).
  unfold sameBody. repeat split; assumption.
Qed.

Lemma collide_sameBody (PHYSICS : Physics) (r : PointRef) (a b : Vertex.t)
    (s : State) (r' : PointRef) :
  sameBody (get r' (bike s))
           (get r' (bike (flowState (collide PHYSICS r a b s)))).
Proof.
  destruct (touches a b (get r (bike s))) eqn:Ht.
  - destruct (fatal r a b (get r (bike s))) eqn:Hf.
    + rewrite (collide_fatal PHYSICS r a b s Hf). cbn [flowState].
      rewrite bike_die. apply sameBody_refl.
    + destruct (collide_push PHYSICS r a b s Ht Hf) as (p' & E & K).
      cbv zeta in K. destruct K as (_ & _ & _ & _ & K & _).
      rewrite E. cbn [flowState bike set_bike].
      destruct (PointRef_eq_dec r r') as [D | D].
      * subst r'. rewrite get_set_same. exact K.
      * rewrite get_set_other by exact D. apply sameBody_refl.
  - rewrite (collide_no_touch PHYSICS r a b s Ht). apply sameBody_refl.
Qed.

Lemma segmentLoop_sameBody (PHYSICS : Physics) (r : PointRef)
    (segs : list (Vertex.t * Vertex.t)) (s : State) (r' : PointRef) :
  sameBody (get r' (bike s))
           (get r' (bike (flowState (segmentLoop PHYSICS r segs s)))).
Proof.
  revert s. induction segs as [ | [a b] rest IH]; intros s; cbn [segmentLoop].
  - apply sameBody_refl.
  - pose proof (collide_sameBody PHYSICS r a b s r') as K.
    destruct (collide PHYSICS r a b s) as [s1 | s1]; cbn [flowState] in *.
    + eapply sameBody_trans; [exact K | apply IH].
    + exact K.
Qed.

Lemma pointLoop_sameBody (PHYSICS : Physics) (ps : list PointRef)
    (segs : list (Vertex.t * Vertex.t)) (s : State) (r' : PointRef) :
  sameBody (get r' (bike s))
           (get r' (bike (flowState (pointLoop PHYSICS ps segs s)))).
Proof.
  revert s. induction ps as [ | r rest IH]; intros s; cbn [pointLoop].
  - apply sameBody_refl.
  - pose proof (segmentLoop_sameBody PHYSICS r segs s r') as K.
    destruct (segmentLoop PHYSICS r segs s) as [s1 | s1]; cbn [flowState] in *.
    + eapply sameBody_trans; [exact K | apply IH].
    + exact K.
Qed.

Lemma checkCollisions_sameBody (PHYSICS : Physics) (s s' : State) (r : PointRef) :
  checkCollisions PHYSICS s = Some s' ->
  sameBody (get r (bike s)) (get r (bike s')).
Proof.
  unfold checkCollisions. destruct (terrain s) as [ | t0 rest]; [discriminate | ].
  cbv zeta. intros H. apply Some_eq in H. subst s'.
  match goal with
  | |- context [pointLoop PHYSICS points (segments (terrain ?u)) ?u] =>
      pose proof (pointLoop_sameBody PHYSICS points (segments (terrain u)) u r) as K;
      assert (E : bike u = bike s)
  end.
  { destruct (Rltb _ _); [apply bike_die | reflexivity]. }
  rewrite E in K. exact K.
Qed.

Lemma iterate_sameBody (PHYSICS : Physics) (n : nat) (s s' : State) (r : PointRef) :
  iterate PHYSICS n s = Some s' ->
  sameBody (get r (bike s)) (get r (bike s')).
Proof.
  revert s. induction n as [ | n IH]; intros s; cbn [iterate].
  - intros H. apply Some_eq in H. subst s'. apply sameBody_refl.
  - destruct (relaxAndCollide PHYSICS s) as [s1 | ] eqn:E; [ | discriminate].
    intros H. unfold relaxAndCollide in E.
    apply (checkCollisions_sameBody PHYSICS _ _ r) in E.
    cbn [bike set_bike] in E.
    eapply sameBody_trans; [apply (relax_sameBody (sticks s)) | ].
    eapply sameBody_trans; [exact E | apply IH, H].
Qed.

(** X16.  A physics step never changes the mass, the radius, the wheel
    flag or the pinned flag of a point. *)
Theorem updatePhysics_keeps_bodies :
  forall (PHYSICS : Physics) (s s' : State) (r : PointRef),
    updatePhysics PHYSICS s = Some s' ->
    sameBody (get r (bike s)) (get r (bike s')).
Proof.
  intros PHYSICS s s' r. unfold updatePhysics.
  destruct (negb (GameStatus_eqb (status s) PLAYING)).
  - intros H. apply Some_eq in H. subst s'. apply sameBody_refl.
  - destruct (iterate PHYSICS (ITERATIONS PHYSICS) _) as [s1 | ] eqn:E;
      [ | discriminate].
    intros H. apply Some_eq in H. subst s'.
    apply (iterate_sameBody PHYSICS _ _ _ r) in E. cbn [bike set_bike] in E.
    rewrite bike_checkGameplay.
    eapply sameBody_trans; [apply (controls_sameBody PHYSICS (keys s)) | ].
    eapply sameBody_trans; [apply (integrate_sameBody PHYSICS) | exact E].
Qed.

(** The step of the sample bike at rest, clear of the terrain. *)
Lemma sample_step :
  updatePhysics samplePhysics (sampleState (sampleBike false 1000 0 0) noKeys PLAYING)
  = Some (set_flower (Flower.mk (-100000) 0 true)
            (sampleState
               (integrate samplePhysics
                  (controls samplePhysics noKeys (sampleBike false 1000 0 0)))
               noKeys PLAYING)).
Proof.
  apply updatePhysics_clear.
  - intros r. destruct r; cbn; lra.
  - cbn. lra.
Qed.

Lemma updatePhysics_keeps_bodies_witness :
  exists s',
    updatePhysics samplePhysics (sampleState (sampleBike false 1000 0 0) noKeys PLAYING)
    = Some s' /\
    sameBody (get RW (bike (sampleState (sampleBike false 1000 0 0) noKeys PLAYING)))
             (get RW (bike s')).
Proof.
  eexists. split; [exact sample_step | ].
  apply (updatePhysics_keeps_bodies samplePhysics _ _ RW sample_step).
Defined.

(** X17.  The physics step fails, with the [TypeError] of
    [s.terrain[0]], exactly when the status is [PLAYING], the terrain is
    empty and [ITERATIONS] is not zero; in every other case it returns a
    state. *)
Theorem updatePhysics_fails_iff :
  forall (PHYSICS : Physics) (s : State),
    updatePhysics PHYSICS s = None <->
    status s = PLAYING /\ terrain s = [] /\ ITERATIONS PHYSICS <> 0%nat.
Proof.
  intros PHYSICS s. split.
  - intros H.
    destruct (status s) eqn:Es;
      try (rewrite updatePhysics_not_playing in H
             by (rewrite Es; discriminate); discriminate).
    split; [reflexivity | ].
    destruct (terrain s) as [ | t0 rest] eqn:Et.
    + split; [reflexivity | ]. intros Hz.
      unfold updatePhysics in H. rewrite Es, Hz in H. cbn in H. discriminate.
    + assert (Hne : terrain s <> []) by (rewrite Et; discriminate).
      destruct (updatePhysics_total PHYSICS s Hne) as [s' E].
      rewrite E in H. discriminate.
  - intros (Hs & Ht & Hn). unfold updatePhysics. rewrite Hs.
    cbn [GameStatus_eqb negb].
    destruct (ITERATIONS PHYSICS) as [ | n]; [contradiction Hn; reflexivity | ].
    cbn [iterate]. unfold relaxAndCollide, checkCollisions.
    cbn [terrain set_bike]. rewrite Ht. reflexivity.
Qed.

Lemma appleKept_refl (l : list Entity.t) : Forall2 appleKept l l.
Proof.
  induction l as [ | a l IH]; constructor; [ | exact IH].
  unfold appleKept. repeat split; try reflexivity. intros H. exact H.
Qed.

Lemma levelKept_refl (s : State) : levelKept s s.
Proof.
  unfold levelKept. repeat split; try reflexivity.
  - intros H. exact H.
  - apply appleKept_refl.
Qed.

Lemma levelKept_sameLevel (s s' : State) : sameLevel s s' -> levelKept s s'.
Proof.
  unfold sameLevel, levelKept. intros (A1 & A2 & A3 & A4 & A5 & A6 & A7).
  rewrite A1, A2, A3, A4, A5, A6, A7. repeat split; try reflexivity.
  - intros H. exact H.
  - apply appleKept_refl.
Qed.

Lemma levelKept_checkGameplay (s : State) : levelKept s (checkGameplay s).
Proof.
  assert (A : Forall2 appleKept (apples s) (apples (checkGameplay s))).
  { destruct (checkGameplay_pickups s) as [H _].
    eapply Forall2_impl; [ | exact H].
    intros a a' (P1 & P2 & _ & P4). unfold appleKept.
    repeat split; try assumption. intros K. rewrite P4, K. reflexivity. }
  revert A. rewrite checkGameplay_unfold. cbv zeta. intros A.
  unfold levelKept.
  repeat match goal with
         | |- context [if ?c then _ else _] => destruct c
         end;
    unfold die, win in *; cbn [status set_flower set_apples set_status] in *;
    repeat match goal with
           | |- context [if ?c then _ else _] => destruct c
           end;
    cbn in *; repeat split; try reflexivity; try exact A; intros H; exact H.
Qed.

Lemma appleKept_trans (l1 l2 l3 : list Entity.t) :
  Forall2 appleKept l1 l2 -> Forall2 appleKept l2 l3 -> Forall2 appleKept l1 l3.
Proof.
  intros A. revert l3.
  induction A as [ | a a' l l' Ha Hl IH]; intros l3 B;
    inversion B as [ | u v lu lv Kuv Kl]; subst.
  - constructor.
  - constructor; [ | apply IH, Kl].
    destruct Ha as (P1 & P2 & P3). destruct Kuv as (Q1 & Q2 & Q3).
    unfold appleKept. repeat split; try congruence.
    intros H. apply Q3, P3, H.
Qed.

Lemma levelKept_trans (s1 s2 s3 : State) :
  levelKept s1 s2 -> levelKept s2 s3 -> levelKept s1 s3.
Proof.
  unfold levelKept.
  intros (A1 & A2 & A3 & A4 & A5 & A6 & A7 & A8 & A9)
         (B1 & B2 & B3 & B4 & B5 & B6 & B7 & B8 & B9).
  repeat split; try congruence.
  - intros H. apply B8, A8, H.
  - eapply appleKept_trans; eassumption.
Qed.

(** X18.  A physics step that returns keeps the level: sticks, terrain,
    killers, key flags and camera are unchanged, the flower stays in
    place and is never locked again, the apples stay in place and in
    order and none is uncollected.  The status is kept or goes from
    [PLAYING] to [WON] or to [DEAD]. *)
Theorem updatePhysics_keeps_level :
  forall (PHYSICS : Physics) (s s' : State),
    updatePhysics PHYSICS s = Some s' ->
    levelKept s s' /\
    (status s' = status s \/
     (status s = PLAYING /\ (status s' = WON \/ status s' = DEAD))).
Proof.
  intros PHYSICS s s'. unfold updatePhysics.
  destruct (status s) eqn:Es; cbn [GameStatus_eqb negb];
    try (intros H; apply Some_eq in H; subst s'; rewrite Es;
         split; [apply levelKept_refl | left; reflexivity]).
  destruct (iterate PHYSICS (ITERATIONS PHYSICS) _) as [s1 | ] eqn:E;
    [ | discriminate].
  intros H. apply Some_eq in H. subst s'.
  apply iterate_keeps in E. destruct E as [E1 E2].
  split.
  - eapply levelKept_trans; [ | apply levelKept_checkGameplay].
    apply levelKept_sameLevel.
    eapply sameLevel_trans; [ | exact E1]. apply sameLevel_set_bike.
  - assert (K : status s1 = PLAYING \/ status s1 = DEAD).
    { destruct E2 as [K | [_ K]]; [left; rewrite K; exact Es | right; exact K]. }
    destruct K as [K | K].
    + rewrite (checkGameplay_outcome s1 K).
      destruct (winsNow s1); [right; split; [reflexivity | left; reflexivity] | ].
      destruct (killedNow s1);
        [right; split; [reflexivity | right; reflexivity] | left; reflexivity].
    + right. split; [reflexivity | right].
      rewrite checkGameplay_not_playing; [exact K | rewrite K; discriminate].
Qed.

Lemma updatePhysics_keeps_level_witness :
  exists s',
    updatePhysics samplePhysics (sampleState (sampleBike false 1000 0 0) noKeys PLAYING)
    = Some s' /\
    levelKept (sampleState (sampleBike false 1000 0 0) noKeys PLAYING) s'.
Proof.
  eexists. split; [exact sample_step | ].
  apply (updatePhysics_keeps_level samplePhysics _ _ sample_step).
Defined.

(** ** Control impulses: what they leave alone *)

(** X19.  The control impulses never touch the head, and of the other
    points they edit only [x], [y] and [oldx]: the previous height, the
    rotation, the mass, the radius and the flags of every point are
    kept.  With [up], [down], [left], [right] and [space] released they
    return the bike as it is, whatever [enter]. *)
Theorem controls_frame :
  forall (PHYSICS : Physics) (k : InputState) (b : Bike),
    get HEAD (controls PHYSICS k b) = get HEAD b /\
    (forall r,
       oldy (get r (controls PHYSICS k b)) = oldy (get r b) /\
       rotation (get r (controls PHYSICS k b)) = rotation (get r b) /\
       sameBody (get r b) (get r (controls PHYSICS k b))) /\
    (up k = false -> down k = false -> left k = false -> right k = false ->
     space k = false -> controls PHYSICS k b = b).
Proof.
  intros PHYSICS k b. split; [ | split].
  - unfold controls.
    destruct (up k), (down k), (left k), (right k), (space k); reflexivity.
  - intros r. split; [ | split].
    + unfold controls.
      destruct (up k), (down k), (left k), (right k), (space k), r; reflexivity.
    + unfold controls.
      destruct (up k), (down k), (left k), (right k), (space k), r; reflexivity.
    + apply controls_sameBody.
  - intros H1 H2 H3 H4 H5. unfold controls.
    rewrite H1, H2, H3, H4, H5. reflexivity.
Qed.

(** ** The frame loop *)

Lemma steps_terrain (PHYSICS : Physics) (n : nat) (s s' : State) :
  steps PHYSICS n s = Some s' -> terrain s' = terrain s.
Proof.
  revert s. induction n as [ | n IH]; intros s; cbn [steps].
  - intros H. apply Some_eq in H. subst s'. reflexivity.
  - destruct (updatePhysics PHYSICS s) as [s1 | ] eqn:E; [ | discriminate].
    intros H. apply IH in H. rewrite H.
    apply updatePhysics_keeps_level in E. destruct E as [(_ & E & _) _]. exact E.
Qed.

Lemma steps_snoc (PHYSICS : Physics) (n : nat) (s s1 s2 : State) :
  updatePhysics PHYSICS s = Some s1 ->
  steps PHYSICS n s1 = Some s2 ->
  steps PHYSICS (S n) s = Some s2.
Proof. intros H1 H2. cbn [steps]. rewrite H1. exact H2. Qed.

(** X20.  With a positive [TIMESTEP], a terrain that is not empty and
    fuel for the time accumulated, the loop of [tick] ends: it has run
    some number [k] of physics steps, one per [TIMESTEP] taken off the
    accumulator, and leaves less than one [TIMESTEP]; an accumulator
    that started at or above zero stays so. *)
Theorem drain_runs_whole_steps :
  forall (PHYSICS : Physics) (TIMESTEP : R) (fuel : nat) (acc : R) (s : State),
    0 < TIMESTEP ->
    terrain s <> [] ->
    acc < INR fuel * TIMESTEP ->
    exists (k : nat) (s' : State),
      drain PHYSICS TIMESTEP fuel acc s = Done (acc - INR k * TIMESTEP, s') /\
      steps PHYSICS k s = Some s' /\
      (k <= fuel)%nat /\
      acc - INR k * TIMESTEP < TIMESTEP /\
      (0 <= acc -> 0 <= acc - INR k * TIMESTEP) /\
      (acc < TIMESTEP -> k = 0%nat).
Proof.
  intros PHYSICS TIMESTEP fuel. induction fuel as [ | fuel IH];
    intros acc s Hts Ht Hf.
  - exists 0%nat, s. cbn [drain steps INR].
    assert (Hlt : acc < TIMESTEP) by (cbn [INR] in Hf; lra).
    rewrite (Rltb_true _ _ Hlt).
    replace (acc - 0 * TIMESTEP) with acc by ring.
    repeat split; try reflexivity; try lra; lia.
  - cbn [drain]. destruct (Rlt_dec acc TIMESTEP) as [Hlt | Hge].
    + exists 0%nat, s. rewrite (Rltb_true _ _ Hlt). cbn [steps INR].
      replace (acc - 0 * TIMESTEP) with acc by ring.
      repeat split; try reflexivity; try lra; lia.
    + rewrite Rltb_false by lra.
      destruct (updatePhysics_total PHYSICS s Ht) as [s1 E1]. rewrite E1.
      assert (Ht1 : terrain s1 <> []).
      { apply updatePhysics_keeps_level in E1. destruct E1 as [(_ & E & _) _].
        rewrite E. exact Ht. }
      assert (Hf1 : acc - TIMESTEP < INR fuel * TIMESTEP).
      { rewrite S_INR in Hf. lra. }
      destruct (IH (acc - TIMESTEP) s1 Hts Ht1 Hf1)
        as (k & s' & D & St & Hk & Hlt & Hpos & _).
      exists (S k), s'. rewrite S_INR.
      replace (acc - (INR k + 1) * TIMESTEP) with (acc - TIMESTEP - INR k * TIMESTEP)
        by ring.
      split; [exact D | ]. split; [apply (steps_snoc PHYSICS k s s1 s' E1 St) | ].
      split; [lia | ]. split; [exact Hlt | ]. split; [ | intros K; lra].
      intros _. apply Hpos. lra.
Qed.

Lemma drain_runs_whole_steps_witness :
  0 < 10 /\
  terrain (sampleState (sampleBike false 1000 0 0) noKeys MENU) <> [] /\
  25 < INR 3 * 10 /\
  exists (k : nat) (s' : State),
    drain samplePhysics 10 3 25 (sampleState (sampleBike false 1000 0 0) noKeys MENU)
    = Done (25 - INR k * 10, s') /\
    25 - INR k * 10 < 10.
Proof.
  assert (H1 : 0 < 10) by lra.
  assert (H2 : terrain (sampleState (sampleBike false 1000 0 0) noKeys MENU) <> [])
    by discriminate.
  assert (H3 : 25 < INR 3 * 10) by (cbn [INR]; lra).
  split; [exact H1 | ]. split; [exact H2 | ]. split; [exact H3 | ].
  destruct (drain_runs_whole_steps samplePhysics 10 3 25
              (sampleState (sampleBike false 1000 0 0) noKeys MENU) H1 H2 H3)
    as (k & s' & D & _ & _ & L & _).
  exists k, s'. split; [exact D | exact L].
Defined.

(** ** Keyboard, resize and restart *)

Module InputFacts.

Import String.

Lemma statusMove_refl (a : GameStatus) : statusMove a a = true.
Proof. destruct a; reflexivity. Qed.

Lemma statusMove_playing (a : GameStatus) : statusMove a PLAYING = true.
Proof. destruct a; reflexivity. Qed.

Lemma startGame_status (PHYSICS : Physics) (GAME_CONFIG : GameConfig)
    (random : nat -> R) (w : World) :
  statusMove (status (world w))
             (status (world (Input.startGame PHYSICS GAME_CONFIG random w))) = true /\
  (canvas (Input.startGame PHYSICS GAME_CONFIG random w) = None <-> canvas w = None).
Proof.
  unfold Input.startGame. destruct (canvas w) as [[width height] | ] eqn:E.
  - cbn [world canvas]. split; [apply statusMove_playing | ].
    split; intros H; discriminate.
  - split; [apply statusMove_refl | ]. rewrite ?E. split; intros H; reflexivity.
Qed.

Lemma handle_no_canvas (PHYSICS : Physics) (GAME_CONFIG : GameConfig)
    (random : nat -> R) (e : Event) (w w' : World) :
  Input.handle PHYSICS GAME_CONFIG random e w = Some w' ->
  canvas w = None -> status (world w) <> PLAYING ->
  status (world w') = status (world w) /\ canvas w' = None.
Proof.
  intros H Hc Hs.
  destruct e as [code | code | iw ih | | | ]; cbn [Input.handle] in H.
  - apply Some_eq in H. subst w'.
    unfold Input.handleKeyDown, Input.startGame. cbv zeta.
    cbn [world canvas status set_keys]. rewrite Hc.
    destruct (eqb code "Enter");
      [destruct (negb (GameStatus_eqb (status (world w)) PLAYING)) | ];
      split; reflexivity.
  - apply Some_eq in H. subst w'. unfold Input.handleKeyUp.
    cbn [world canvas status set_keys]. split; [reflexivity | exact Hc].
  - apply Some_eq in H. subst w'. unfold Input.handleResize. rewrite Hc.
    split; [reflexivity | exact Hc].
  - apply Some_eq in H. subst w'. unfold Input.startGame. rewrite Hc.
    split; [reflexivity | exact Hc].
  - rewrite (updatePhysics_not_playing PHYSICS (world w) Hs) in H.
    apply Some_eq in H. subst w'. cbn [world canvas].
    split; [reflexivity | exact Hc].
  - rewrite Hc in H. apply Some_eq in H. subst w'.
    split; [reflexivity | exact Hc].
Qed.

(** X21.  A key event writes the key flags only, except [Enter] going
    down outside [PLAYING] on a mounted canvas; and a key going down and
    up again leaves the game as the key going up alone does. *)
Theorem key_events_write_keys_only :
  forall (PHYSICS : Physics) (GAME_CONFIG : GameConfig) (random : nat -> R)
         (code : string) (w : World),
    (exists k,
       Input.handleKeyUp code w = mkWorld (set_keys k (world w)) (canvas w)) /\
    (code <> "Enter"%string \/ status (world w) = PLAYING \/ canvas w = None ->
     (exists k,
        Input.handleKeyDown PHYSICS GAME_CONFIG random code w
        = mkWorld (set_keys k (world w)) (canvas w)) /\
     Input.handleKeyUp code (Input.handleKeyDown PHYSICS GAME_CONFIG random code w)
     = Input.handleKeyUp code w).
Proof.
  intros PHYSICS GAME_CONFIG random code w. split.
  - eexists. reflexivity.
  - intros H.
    assert (E : Input.handleKeyDown PHYSICS GAME_CONFIG random code w
                = mkWorld (set_keys (Input.setFlag code true (keys (world w))) (world w))
                          (canvas w)).
    { unfold Input.handleKeyDown, Input.startGame. cbv zeta.
      cbn [world canvas status set_keys].
      destruct (eqb code "Enter") eqn:Ee; [ | reflexivity].
      destruct H as [H | [H | H]].
      - apply eqb_eq in Ee. contradiction.
      - rewrite H. reflexivity.
      - rewrite H. destruct (negb _); reflexivity. }
    rewrite E. split; [eexists; reflexivity | ].
    unfold Input.handleKeyUp, Input.setFlag.
    cbn [world canvas keys set_keys up down left right space enter].
    destruct (eqb code "ArrowUp"), (eqb code "ArrowDown"),
      (eqb code "ArrowLeft"), (eqb code "ArrowRight"), (eqb code "Space"),
      (eqb code "Enter"); reflexivity.
Qed.

(** X22.  [Enter] going down outside [PLAYING], on a mounted canvas,
    starts a new level in status [PLAYING] with every key flag cleared,
    the [enter] flag it has just set included; while [PLAYING] it only
    sets the [enter] flag. *)
Theorem enter_restarts_outside_playing :
  forall (PHYSICS : Physics) (GAME_CONFIG : GameConfig) (random : nat -> R)
         (w : World),
    (status (world w) <> PLAYING ->
     forall width height, canvas w = Some (width, height) ->
       Input.handleKeyDown PHYSICS GAME_CONFIG random "Enter" w
       = mkWorld (initLevel PHYSICS GAME_CONFIG random width height PLAYING)
                 (canvas w) /\
       keys (world (Input.handleKeyDown PHYSICS GAME_CONFIG random "Enter" w))
       = noKeys) /\
    (status (world w) = PLAYING ->
     Input.handleKeyDown PHYSICS GAME_CONFIG random "Enter" w
     = mkWorld
         (set_keys (mkKeys (up (keys (world w))) (down (keys (world w)))
                           (left (keys (world w))) (right (keys (world w)))
                           (space (keys (world w))) true)
                   (world w))
         (canvas w)).
Proof.
  intros PHYSICS GAME_CONFIG random w. split.
  - intros Hs width height Hc.
    unfold Input.handleKeyDown, Input.startGame. cbv zeta.
    cbn [world canvas status set_keys].
    change (eqb "Enter" "Enter") with true. cbv iota. rewrite Hc.
    destruct (status (world w)) eqn:Es; try (contradiction Hs; reflexivity);
      cbn [GameStatus_eqb negb world canvas]; split; reflexivity.
  - intros Hs. unfold Input.handleKeyDown, Input.setFlag. cbv zeta.
    cbn [world canvas status set_keys]. rewrite Hs.
    reflexivity.
Qed.

Lemma enter_restarts_outside_playing_witness :
  status (world (mkWorld lostLevel (Some (800, 600)))) <> PLAYING /\
  status (world (Input.handleKeyDown samplePhysics sampleConfig (fun _ => 0) "Enter"
                   (mkWorld lostLevel (Some (800, 600))))) = PLAYING /\
  keys (world (Input.handleKeyDown samplePhysics sampleConfig (fun _ => 0) "Enter"
                 (mkWorld lostLevel (Some (800, 600))))) = noKeys.
Proof.
  assert (H : status (world (mkWorld lostLevel (Some (800, 600)))) <> PLAYING)
    by (cbn; discriminate).
  destruct (enter_restarts_outside_playing samplePhysics sampleConfig (fun _ => 0)
              (mkWorld lostLevel (Some (800, 600)))) as [K _].
  destruct (K H 800 600 eq_refl) as [K1 K2].
  split; [exact H | ]. split; [rewrite K1; reflexivity | exact K2].
Defined.

Lemma handle_status (PHYSICS : Physics) (GAME_CONFIG : GameConfig)
    (random : nat -> R) (e : Event) (w w' : World) :
  Input.handle PHYSICS GAME_CONFIG random e w = Some w' ->
  statusMove (status (world w)) (status (world w')) = true /\
  (canvas w' = None <-> canvas w = None).
Proof.
  destruct e as [code | code | iw ih | | | ]; cbn [Input.handle]; intros H.
  - apply Some_eq in H. subst w'.
    unfold Input.handleKeyDown. cbv zeta.
    destruct (eqb code "Enter");
      [destruct (negb (GameStatus_eqb _ PLAYING)) | ].
    + match goal with
      | |- context [Input.startGame _ _ _ ?u] =>
          destruct (startGame_status PHYSICS GAME_CONFIG random u) as [A B]
      end.
      cbn [world canvas status set_keys] in A, B. split; [exact A | exact B].
    + cbn [world canvas status set_keys].
      split; [apply statusMove_refl | split; intros K; exact K].
    + cbn [world canvas status set_keys].
      split; [apply statusMove_refl | split; intros K; exact K].
  - apply Some_eq in H. subst w'. unfold Input.handleKeyUp.
    cbn [world canvas status set_keys].
    split; [apply statusMove_refl | split; intros K; exact K].
  - apply Some_eq in H. subst w'. unfold Input.handleResize.
    destruct (canvas w) as [c | ] eqn:E.
    + cbn [world canvas]. split.
      * destruct (status (world w)) eqn:Es; cbn [GameStatus_eqb];
          rewrite ?Es; reflexivity.
      * split; intros K; discriminate.
    + rewrite E. split; [apply statusMove_refl | split; intros K; exact K].
  - apply Some_eq in H. subst w'. apply startGame_status.
  - destruct (updatePhysics PHYSICS (world w)) as [s | ] eqn:E; [ | discriminate].
    apply Some_eq in H. subst w'. cbn [world canvas].
    apply updatePhysics_keeps_level in E. destruct E as [_ E].
    split; [ | split; intros K; exact K].
    destruct E as [E | [E1 [E | E]]].
    + rewrite E. apply statusMove_refl.
    + rewrite E1, E. reflexivity.
    + rewrite E1, E. reflexivity.
  - destruct (canvas w) as [[width height] | ] eqn:E; apply Some_eq in H; subst w'.
    + cbn [world canvas]. rewrite ?E.
      split; [apply statusMove_refl | split; intros K; exact K].
    + rewrite ?E. split; [apply statusMove_refl | split; intros K; exact K].
Qed.

(** X23.  Whatever the events, the status only moves along [MENU] to
    [PLAYING], [PLAYING] to [WON] or [DEAD], and [WON] or [DEAD] back to
    [PLAYING]: after any sequence of events that completes, a game that
    has left [MENU] is not in [MENU]; and while no canvas is mounted a
    game that is not [PLAYING] keeps its status, no level can be
    started. *)
Theorem status_moves_of_events :
  forall (PHYSICS : Physics) (GAME_CONFIG : GameConfig)
         (es : list (Event * (nat -> R))) (w w' : World),
    Input.handleAll PHYSICS GAME_CONFIG es w = Some w' ->
    (forall e random w1,
       Input.handle PHYSICS GAME_CONFIG random e w = Some w1 ->
       statusMove (status (world w)) (status (world w1)) = true) /\
    (status (world w) <> MENU -> status (world w') <> MENU) /\
    (canvas w = None -> status (world w) <> PLAYING ->
     status (world w') = status (world w) /\ canvas w' = None).
Proof.
  intros PHYSICS GAME_CONFIG es w w' H. split; [ | split].
  - intros e random w1 K. apply (handle_status PHYSICS GAME_CONFIG random e w w1 K).
  - revert w H. induction es as [ | [e random] rest IH]; intros w H Hs;
      cbn [Input.handleAll] in H.
    + apply Some_eq in H. subst w'. exact Hs.
    + destruct (Input.handle PHYSICS GAME_CONFIG random e w) as [w1 | ] eqn:E;
        [ | discriminate].
      apply (IH w1 H).
      apply handle_status in E. destruct E as [E _].
      destruct (status (world w)); try (contradiction Hs; reflexivity);
        destruct (status (world w1)); try discriminate; discriminate.
  - revert w H. induction es as [ | [e random] rest IH]; intros w H Hc Hs;
      cbn [Input.handleAll] in H.
    + apply Some_eq in H. subst w'. split; [reflexivity | exact Hc].
    + destruct (Input.handle PHYSICS GAME_CONFIG random e w) as [w1 | ] eqn:E;
        [ | discriminate].
      destruct (handle_no_canvas PHYSICS GAME_CONFIG random e w w1 E Hc Hs)
        as [E1 E2].
      destruct (IH w1 H E2) as [I1 I2]; [rewrite E1; exact Hs | ].
      split; [rewrite I1; exact E1 | exact I2].
Qed.

(** A lost game: [Enter] goes down and up, then the window is resized. *)
Lemma status_moves_of_events_witness :
  status (world (mkWorld lostLevel (Some (800, 600)))) <> MENU /\
  exists w',
    Input.handleAll samplePhysics sampleConfig
      [(KeyDown "Enter", fun _ => 0); (KeyUp "Enter", fun _ => 0);
       (Resize 1024 768, fun _ => 0)]
      (mkWorld lostLevel (Some (800, 600)))
    = Some w' /\
    status (world w') <> MENU.
Proof.
  assert (H : status (world (mkWorld lostLevel (Some (800, 600)))) <> MENU)
    by (cbn; discriminate).
  split; [exact H | ].
  eexists. split; [reflexivity | ].
  exact (proj1 (proj2 (status_moves_of_events samplePhysics sampleConfig
                         [(KeyDown "Enter", fun _ => 0); (KeyUp "Enter", fun _ => 0);
                          (Resize 1024 768, fun _ => 0)]
                         (mkWorld lostLevel (Some (800, 600))) _ eq_refl)) H).
Defined.

End InputFacts.

(** ** One frame *)

(** X24.  A frame on a mounted canvas, with a positive [TIMESTEP], a
    terrain that is not empty, an accumulator within [0, TIMESTEP) and a
    clock that has not gone back, runs a whole number [k] of physics
    steps and then the camera update; it leaves the accumulator within
    [0, TIMESTEP) again and sets the last time to now.  However long the
    frame took, the steps cover at most 100 ms more than was
    accumulated. *)
Theorem tick_catches_up :
  forall (PHYSICS : Physics) (TIMESTEP : R) (fuel : nat) (width height now : R)
         (c : Clock) (s : State),
    0 < TIMESTEP ->
    terrain s <> [] ->
    0 <= accumulator c < TIMESTEP ->
    lastTime c <= now ->
    TIMESTEP + 100 <= INR fuel * TIMESTEP ->
    exists (k : nat) (s' : State),
      let acc := accumulator c + Rmin (now - lastTime c) 100 - INR k * TIMESTEP in
      tick PHYSICS TIMESTEP fuel (Some (width, height)) now c s
      = Done (mkClock now acc, drawCamera width height s') /\
      steps PHYSICS k s = Some s' /\
      0 <= acc < TIMESTEP /\
      INR k * TIMESTEP <= accumulator c + 100.
Proof.
  intros PHYSICS TIMESTEP fuel width height now c s Hts Ht Hacc Hnow Hfuel.
  assert (Hf : 0 <= Rmin (now - lastTime c) 100 <= 100).
  { unfold Rmin. destruct (Rle_dec (now - lastTime c) 100); lra. }
  assert (Hlt : accumulator c + Rmin (now - lastTime c) 100 < INR fuel * TIMESTEP)
    by lra.
  destruct (drain_runs_whole_steps PHYSICS TIMESTEP fuel
              (accumulator c + Rmin (now - lastTime c) 100) s Hts Ht Hlt)
    as (k & s' & D & St & _ & L & P & _).
  exists k, s'. cbv zeta. unfold tick. cbv zeta. rewrite D.
  split; [reflexivity | ]. split; [exact St | ].
  assert (P' : 0 <= accumulator c + Rmin (now - lastTime c) 100 - INR k * TIMESTEP)
    by (apply P; lra).
  split; [split; [exact P' | exact L] | lra].
Qed.

Lemma tick_catches_up_witness :
  0 < 10 /\ 0 <= accumulator (mkClock 0 5) < 10 /\ lastTime (mkClock 0 5) <= 1000 /\
  10 + 100 <= INR 11 * 10 /\
  exists (k : nat) (s' : State),
    steps samplePhysics k (sampleState (sampleBike false 1000 0 0) noKeys MENU)
    = Some s' /\
    INR k * 10 <= accumulator (mkClock 0 5) + 100.
Proof.
  assert (H1 : 0 < 10) by lra.
  assert (H2 : terrain (sampleState (sampleBike false 1000 0 0) noKeys MENU) <> [])
    by discriminate.
  assert (H3 : 0 <= accumulator (mkClock 0 5) < 10) by (cbn; lra).
  assert (H4 : lastTime (mkClock 0 5) <= 1000) by (cbn; lra).
  assert (H5 : 10 + 100 <= INR 11 * 10) by (cbn [INR]; lra).
  split; [exact H1 | ]. split; [exact H3 | ]. split; [exact H4 | ].
  split; [exact H5 | ].
  destruct (tick_catches_up samplePhysics 10 11 800 600 1000 (mkClock 0 5)
              (sampleState (sampleBike false 1000 0 0) noKeys MENU)
              H1 H2 H3 H4 H5) as (k & s' & K).
  cbv zeta in K. destruct K as (_ & St & _ & B).
  exists k, s'. split; [exact St | exact B].
Defined.

(** ** The time label *)

Module HudFacts.

Lemma labels_below_100_minutes :
  forallb Hud.labelOk (seq 0 (100 * 60)) = true.
Proof. vm_compute. reflexivity. Qed.

(** X25.  For every time below 100 minutes the label of the HUD has the
    five characters [mm:ss], and reading the minutes and seconds back
    gives the time: distinct times have distinct labels. *)
Theorem formatTime_round_trip :
  forall (t : nat),
    (t < 100 * 60)%nat ->
    String.length (Hud.formatTime t) = 5%nat /\
    Hud.readTime (Hud.formatTime t) = Some t.
Proof.
  intros t Ht.
  pose proof labels_below_100_minutes as H.
  rewrite forallb_forall in H.
  assert (Hin : In t (seq 0 (100 * 60))) by (apply in_seq; lia).
  specialize (H t Hin). unfold Hud.labelOk in H.
  apply andb_prop in H. destruct H as [H1 H2].
  apply Nat.eqb_eq in H1. split; [exact H1 | ].
  destruct (Hud.readTime (Hud.formatTime t)) as [t' | ]; [ | discriminate].
  apply Nat.eqb_eq in H2. rewrite H2. reflexivity.
Qed.

Lemma formatTime_round_trip_witness :
  (75 < 100 * 60)%nat /\ Hud.readTime (Hud.formatTime 75) = Some 75%nat.
Proof.
  assert (H : (75 < 100 * 60)%nat) by lia.
  split; [exact H | ].
  apply (formatTime_round_trip 75 H).
Defined.

End HudFacts.

(** ** Heights of a generated level *)

Lemma genLoop_heights (random : nat -> R) (height : R) (n i : nat) (g : Gen) :
  400 <= height ->
  (forall v, In v (genTerrain g) ->
             Vertex.y v = height + 2000 \/ 200 <= Vertex.y v <= height + 200) ->
  200 <= tY g <= height + 200 ->
  let g' := genLoop random height n i g in
  (forall v, In v (genTerrain g') ->
             Vertex.y v = height + 2000 \/ 200 <= Vertex.y v <= height + 200) /\
  200 <= tY g' <= height + 200.
Proof.
  intros Hh. cbv zeta. revert i g.
  induction n as [ | n IH]; intros i g Hv Ht; cbn [genLoop].
  - split; assumption.
  - assert (Ht' : 200 <= tY (genStep random height i g) <= height + 200).
    { destruct (genStep_tY random height i g) as [E | [v E]]; rewrite E.
      - lra.
      - unfold Rmax, Rmin.
        destruct (Rle_dec (height + 200) v); destruct (Rle_dec 200 _); lra. }
    apply IH; [ | exact Ht'].
    intros v Hin. rewrite genStep_terrain in Hin.
    apply in_app_or in Hin. destruct Hin as [Hin | [Hin | []]].
    + apply Hv, Hin.
    + subst v. right. exact Ht'.
Qed.

(** X26.  In a new level of height at least 400, every terrain vertex is
    either at the depth [height + 2000] of the anchors or within
    [200, height + 200], and the flower, 100 above the last generated
    vertex, is within [100, height + 100]. *)
Theorem new_level_heights :
  forall (PHYSICS : Physics) (GAME_CONFIG : GameConfig) (random : nat -> R)
         (width height : R) (startStatus : GameStatus),
    400 <= height ->
    let s := initLevel PHYSICS GAME_CONFIG random width height startStatus in
    (forall v, In v (terrain s) ->
               Vertex.y v = height + 2000 \/ 200 <= Vertex.y v <= height + 200) /\
    100 <= Flower.y (flower s) <= height + 100.
Proof.
  intros PHYSICS GAME_CONFIG random width height startStatus Hh s.
  destruct (genLoop_heights random height (TERRAIN_SEGMENTS GAME_CONFIG) 0
              (genStart height) Hh) as [A B].
  - intros v [H | [H | []]]; subst v; cbn [Vertex.y]; [left; reflexivity | right; lra].
  - cbn [genStart tY]. lra.
  - split.
    + intros v Hin.
      change (terrain s)
        with (genTerrain (genLoop random height (TERRAIN_SEGMENTS GAME_CONFIG) 0
                            (genStart height))
                ++ [Vertex.mk
                      (tX (genLoop random height (TERRAIN_SEGMENTS GAME_CONFIG) 0
                             (genStart height)) + 500)
                      (height + 2000)]) in Hin.
      apply in_app_or in Hin. destruct Hin as [Hin | [Hin | []]].
      * apply A, Hin.
      * subst v. left. reflexivity.
    + change (Flower.y (flower s))
        with (tY (genLoop random height (TERRAIN_SEGMENTS GAME_CONFIG) 0
                    (genStart height)) - 100).
      lra.
Qed.

Lemma new_level_heights_witness :
  400 <= 600 /\ 100 <= Flower.y (flower lostLevel) <= 600 + 100.
Proof.
  assert (H : 400 <= 600) by lra.
  split; [exact H | ].
  destruct (new_level_heights samplePhysics sampleConfig (fun _ => 0) 800 600 DEAD H)
    as [_ K].
  exact K.
Defined.

(** ** Rest lengths *)

(** X27.  [createStick] takes the rest length it is given unless that
    length is missing or zero, and then takes the current distance of the
    two points: no stick is created with rest length 0 between points
    that are apart. *)
Theorem createStick_rest_length :
  forall (b : Bike) (q1 q2 : PointRef) (l : option R) (k : R) (v : bool),
    let d := hypot (x (get q2 b) - x (get q1 b)) (y (get q2 b) - y (get q1 b)) in
    (l = None \/ l = Some 0 -> length (createStick b q1 q2 l k v) = d) /\
    (forall u, l = Some u -> u <> 0 -> length (createStick b q1 q2 l k v) = u) /\
    (d <> 0 -> length (createStick b q1 q2 l k v) <> 0) /\
    p1 (createStick b q1 q2 l k v) = q1 /\ p2 (createStick b q1 q2 l k v) = q2 /\
    stiffness (createStick b q1 q2 l k v) = k.
Proof.
  intros b q1 q2 l k v d. unfold createStick. cbn [length p1 p2 stiffness].
  fold d. unfold js_or, Reqb.
  split; [ | split; [ | split; [ | repeat split]]].
  - intros [H | H]; subst l; [reflexivity | ].
    destruct (Req_dec_T 0 0) as [_ | N]; [reflexivity | contradiction N; reflexivity].
  - intros u Hu Hn. subst l.
    destruct (Req_dec_T u 0) as [E | _]; [contradiction | reflexivity].
  - intros Hd. destruct l as [u | ]; [ | exact Hd].
    destruct (Req_dec_T u 0) as [E | N]; [exact Hd | exact N].
Qed.

(** ** The head against the terrain *)

Lemma segmentLoop_clear (PHYSICS : Physics) (r : PointRef)
    (segs : list (Vertex.t * Vertex.t)) (s : State) :
  (forall a b, In (a, b) segs -> touches a b (get r (bike s)) = false) ->
  segmentLoop PHYSICS r segs s = Next s.
Proof.
  induction segs as [ | [a b] rest IH]; intros H; cbn [segmentLoop]; [reflexivity | ].
  rewrite collide_no_touch by (apply H; left; reflexivity).
  apply IH. intros a' b' Hin. apply H. right. exact Hin.
Qed.

Lemma segmentLoop_fatal (PHYSICS : Physics) (r : PointRef)
    (before after : list (Vertex.t * Vertex.t)) (a b : Vertex.t) (s : State) :
  (forall a' b', In (a', b') before -> touches a' b' (get r (bike s)) = false) ->
  fatal r a b (get r (bike s)) = true ->
  segmentLoop PHYSICS r (before ++ (a, b) :: after) s = Return (die s).
Proof.
  induction before as [ | [a' b'] rest IH]; intros H Hf; cbn [app segmentLoop].
  - rewrite (collide_fatal PHYSICS r a b s Hf). reflexivity.
  - rewrite collide_no_touch by (apply H; left; reflexivity).
    apply IH; [ | exact Hf]. intros a'' b'' Hin. apply H. right. exact Hin.
Qed.

(** X28.  A collision pass in which no other point touches the terrain
    and the first segment the head touches is touched fatally, deeper
    than a fifth of the head's radius, writes nothing but the status: it
    returns [die s], which is [DEAD] if the game was [PLAYING]. *)
Theorem head_impact_kills :
  forall (PHYSICS : Physics) (s : State)
         (before after : list (Vertex.t * Vertex.t)) (a b : Vertex.t),
    segments (terrain s) = before ++ (a, b) :: after ->
    (forall r a' b', r <> HEAD -> In (a', b') (segments (terrain s)) ->
                     touches a' b' (get r (bike s)) = false) ->
    (forall a' b', In (a', b') before -> touches a' b' (head (bike s)) = false) ->
    fatal HEAD a b (head (bike s)) = true ->
    checkCollisions PHYSICS s = Some (die s) /\
    (status s = PLAYING -> status (die s) = DEAD).
Proof.
  intros PHYSICS s before after a b Hseg Hclear Hbefore Hfatal.
  split; [ | intros Hs; rewrite status_die, Hs; reflexivity].
  unfold checkCollisions.
  destruct (terrain s) as [ | t0 rest] eqn:Et.
  { destruct before; discriminate. }
  cbv zeta.
  set (s1 := if Rltb (Vertex.y t0 + 2000) (y (head (bike s))) then die s else s).
  assert (Eb : bike s1 = bike s).
  { subst s1. destruct (Rltb _ _); [apply bike_die | reflexivity]. }
  assert (Ett : terrain s1 = t0 :: rest).
  { subst s1. destruct (Rltb _ _); [ | exact Et].
    destruct (sameLevel_die s) as (_ & K & _). rewrite K. exact Et. }
  assert (Ed : die s1 = die s).
  { subst s1. destruct (Rltb _ _); [apply die_die | reflexivity]. }
  rewrite Ett, Hseg. unfold points. cbn [pointLoop].
  assert (C : forall r, r <> HEAD ->
                segmentLoop PHYSICS r (before ++ (a, b) :: after) s1 = Next s1).
  { intros r Hr. apply segmentLoop_clear. intros a' b' Hin. rewrite Eb.
    apply Hclear; [exact Hr | ]. rewrite Hseg. exact Hin. }
  rewrite (C RW), (C FW), (C BODY), (C HANDLE) by discriminate.
  rewrite (segmentLoop_fatal PHYSICS HEAD before after a b s1).
  - cbn [flowState]. rewrite Ed. reflexivity.
  - intros a' b' Hin. rewrite Eb. apply Hbefore, Hin.
  - rewrite Eb. exact Hfatal.
Qed.

Lemma crashed_contacts :
  fatal HEAD (Vertex.mk 0 0) (Vertex.mk 100 0) (head crashedBike) = true /\
  forall r, r <> HEAD ->
            touches (Vertex.mk 0 0) (Vertex.mk 100 0) (get r crashedBike) = false.
Proof.
  split.
  - assert (T : contactT (Vertex.mk 0 0) (Vertex.mk 100 0) (head crashedBike) = 0.5).
    { unfold contactT. cbn [crashedBike head restPoint x y Vertex.x Vertex.y].
      replace (((50 - 0) * (100 - 0) + (-5 - 0) * (0 - 0)) /
               ((100 - 0) * (100 - 0) + (0 - 0) * (0 - 0))) with 0.5 by lra.
      rewrite Rmin_right by lra. rewrite Rmax_right by lra. reflexivity. }
    assert (D : contactDist (Vertex.mk 0 0) (Vertex.mk 100 0) (head crashedBike) = 5).
    { unfold contactDist, closestX, closestY. rewrite T.
      cbn [crashedBike head restPoint x y Vertex.x Vertex.y].
      replace (50 - (0 + 0.5 * (100 - 0))) with 0 by lra.
      replace (-5 - (0 + 0.5 * (0 - 0))) with (-5) by lra.
      rewrite hypot_down by lra. lra. }
    unfold fatal, touches. rewrite D.
    cbn [crashedBike head restPoint x y radius Vertex.x Vertex.y PointRef_eqb].
    eval_cmp. reflexivity.
  - intros r Hr. unfold touches.
    destruct r; try (contradiction Hr; reflexivity);
      cbn [crashedBike get rw fw body handle restPoint x y radius Vertex.x Vertex.y];
      rewrite Rmax_right by lra;
      match goal with
      | |- context [Rltb (100 + 50) ?u] => rewrite (Rltb_true (100 + 50) u) by lra
      end;
      rewrite orb_true_r; reflexivity.
Qed.

(** The head of [crashedBike] hits the sample segment: the pass kills. *)
Lemma head_impact_kills_witness :
  fatal HEAD (Vertex.mk 0 0) (Vertex.mk 100 0)
        (head (bike (sampleState crashedBike noKeys PLAYING))) = true /\
  checkCollisions samplePhysics (sampleState crashedBike noKeys PLAYING)
  = Some (die (sampleState crashedBike noKeys PLAYING)).
Proof.
  destruct crashed_contacts as [F C].
  split; [exact F | ].
  apply (head_impact_kills samplePhysics (sampleState crashedBike noKeys PLAYING)
           [] [] (Vertex.mk 0 0) (Vertex.mk 100 0)).
  - reflexivity.
  - intros r a' b' Hr [Hin | []]. injection Hin as E1 E2. subst a' b'.
    apply C, Hr.
  - intros a' b' [].
  - exact F.
Defined.

(** ** The pass after a fall *)









